(** * DTMF tone generator (src/effects/DtmfGen.cpp): sample-exact
      segmentation and tone synthesis.

    Conventions of the embedding.
    - [sampleCount] (a signed 64-bit counter), [size_t] and [int] values are
      mathematical integers ([Z]); the fields are declared in DtmfGen.h.
      Arithmetic overflow is outside the model.
    - The integer part of the code (the redistribution loop, the segment
      cursor, the block loop) is modelled once and shared by everything
      below.
    - [double] arithmetic is modelled twice.  The main development
      idealises it as real arithmetic ([R], [floor] as [Zfloor]); it serves
      the statements that do not depend on how a result is rounded.
      Module [Binary64] evaluates the same expressions of [Recalculate] and
      [ProcessInitialize] in IEEE 754 binary64 (round to nearest even, one
      rounding per operation, no fused multiply-add), with the primitive
      floats of the kernel; it serves the statements that do depend on
      rounding.
    - A [double] passed for a [float] parameter is narrowed by [to_float].
    - [wxASSERT] is the release-build no-op; the asserted conditions are
      stated as separate predicates.
    - An integer division by zero and a string access out of range are
      crashes, modelled by explicit result constructors.  *)

From Stdlib Require Import ZArith List Bool Lia Ascii String.
From Stdlib Require Import Reals Lra.
From Stdlib Require PrimFloat FloatOps SpecFloat Uint63.
Import ListNotations.

Local Open Scope Z_scope.

(** ** Integer core of [EffectDtmf::ProcessInitialize] *)

(** Outcome of a loop run with a bound on the number of passes. *)
Inductive outcome (A : Type) : Type :=
| Done (a : A)
| Crash
| OutOfFuel.
Arguments Done {A} a.
Arguments Crash {A}.
Arguments OutOfFuel {A}.

(** The slot lengths and the remainder while they are being adjusted. *)
Record Slots : Type := mkSlots {
  slotTone : Z;      (* numSamplesTone *)
  slotSilence : Z;   (* numSamplesSilence *)
  slotDiff : Z       (* diff *)
}.

(** [diff = numSamplesSequence - (dtmfNTones * numSamplesTone)
            - (dtmfNTones - 1) * numSamplesSilence]  (lines 136 and 147). *)
Definition diff_of (T N t s : Z) : Z := T - N * t - (N - 1) * s.

(** C++ [a / b] on signed integers: truncation toward zero, a crash when
    [b = 0]. *)
Definition cdiv (a b : Z) : option Z :=
  if b =? 0 then None else Some (Z.quot a b).

(** The redistribution loop, lines 138-149:
    [while (diff > 2 * dtmfNTones - 1) { numSamplesTone += diff / N;
       numSamplesSilence += diff / (N - 1); diff = ...; }]. *)
Fixpoint spread (fuel : nat) (T N : Z) (st : Slots) : outcome Slots :=
  if slotDiff st >? 2 * N - 1 then
    match fuel with
    | O => OutOfFuel
    | S fuel' =>
        match cdiv (slotDiff st) N, cdiv (slotDiff st) (N - 1) with
        | Some qt, Some qs =>
            let t' := slotTone st + qt in
            let s' := slotSilence st + qs in
            spread fuel' T N (mkSlots t' s' (diff_of T N t' s'))
        | _, _ => Crash
        end
    end
  else Done st.

(** Lines 136-149 as a whole: initial remainder, then the loop. *)
Definition redistribute (fuel : nat) (T N t s : Z) : outcome Slots :=
  spread fuel T N (mkSlots t s (diff_of T N t s)).

(** The condition of [wxASSERT(diff >= 0)] (line 150). *)
Definition assert_diff_nonneg (st : Slots) : Prop := 0 <= slotDiff st.

(** ** The segment cursor of [EffectDtmf::ProcessBlock] *)

Record Cursor : Type := mkCursor {
  numSamplesSequence : Z;
  numSamplesTone : Z;
  numSamplesSilence : Z;
  diff : Z;
  curSeqPos : Z;
  isTone : bool;
  numRemaining : Z;
  curTonePos : Z
}.

(** Lines 152-154: the cursor as [ProcessInitialize] leaves it.
    [curTonePos] is not assigned there and keeps the value [old] holds. *)
Definition init_cursor (T : Z) (st : Slots) (old : Cursor) : Cursor :=
  mkCursor T (slotTone st) (slotSilence st) (slotDiff st) (-1) false 0
           (curTonePos old).

(** Body of [if (numRemaining == 0) { ... }], lines 187-202: start the
    next segment and take one sample from the remainder while it lasts
    ([numRemaining += (diff-- > 0 ? 1 : 0)]). *)
Definition startSegment (c : Cursor) : Cursor :=
  let tone := negb (isTone c) in
  let extra := if diff c >? 0 then 1 else 0 in
  if tone then
    mkCursor (numSamplesSequence c) (numSamplesTone c) (numSamplesSilence c)
             (diff c - 1) (curSeqPos c + 1) true
             (numSamplesTone c + extra) 0
  else
    mkCursor (numSamplesSequence c) (numSamplesTone c) (numSamplesSilence c)
             (diff c - 1) (curSeqPos c) false
             (numSamplesSilence c + extra) (curTonePos c).

(** The lengths given to the next [k] segments, in order. *)
Fixpoint segment_lengths (k : nat) (c : Cursor) : list Z :=
  match k with
  | O => []
  | S k' => let c' := startSegment c in
            numRemaining c' :: segment_lengths k' (c' )
  end.

Definition zsum (l : list Z) : Z := fold_right Z.add 0 l.

(** ** Settings, effect state and [Settings::Recalculate] *)

Record Settings : Type := mkSettings {
  dtmfSequence : string;
  dtmfNTones : Z;
  dtmfTone : R;        (* seconds *)
  dtmfSilence : R;     (* seconds *)
  dtmfDutyCycle : R;   (* 0.0 - 100.0 *)
  dtmfAmplitude : R
}.

Record EffectDtmf : Type := mkEffect {
  mSettings : Settings;
  mDuration : R;       (* GetDuration() / SetDuration() *)
  mT0 : R;
  mSampleRate : R;
  mCursor : Cursor
}.

Definition GetDuration (e : EffectDtmf) : R := mDuration e.

Definition SetDuration (d : R) (e : EffectDtmf) : EffectDtmf :=
  mkEffect (mSettings e) d (mT0 e) (mSampleRate e) (mCursor e).

Definition with_settings (s : Settings) (e : EffectDtmf) : EffectDtmf :=
  mkEffect s (mDuration e) (mT0 e) (mSampleRate e) (mCursor e).

Definition with_cursor (c : Cursor) (e : EffectDtmf) : EffectDtmf :=
  mkEffect (mSettings e) (mDuration e) (mT0 e) (mSampleRate e) c.

(** Lines 443-484.  Updates dtmfNTones, dtmfTone, dtmfSilence, and
    sometimes the duration.  The quotient and the products are exact
    here; [Binary64.Recalculate] rounds each of them. *)
Definition Recalculate (e : EffectDtmf) : EffectDtmf :=
  let s := mSettings e in
  let n := Z.of_nat (String.length (dtmfSequence s)) in
  let upd (tone silence : R) :=
    mkSettings (dtmfSequence s) n tone silence
               (dtmfDutyCycle s) (dtmfAmplitude s) in
  if n =? 0 then
    with_settings (upd 0%R 0%R) (SetDuration 0%R e)
  else if n =? 1 then
    with_settings (upd (GetDuration e) 0%R) e
  else
    let slot := (GetDuration e
                 / (IZR n + (dtmfDutyCycle s / 100) - 1))%R in
    with_settings (upd (slot * (dtmfDutyCycle s / 100))%R
                       (slot * (1 - (dtmfDutyCycle s / 100)))%R) e.

(** ** [EffectDtmf::ProcessInitialize], lines 105-157 *)

(** The four floors are taken of exact products here, and of rounded
    ones in [Binary64.ProcessInitialize]; the integers they give can
    differ by one.  What follows the floors is the integer core. *)

Definition ProcessInitialize (fuel : nat) (e : EffectDtmf)
  : outcome (bool * EffectDtmf) :=
  let s := mSettings e in
  if dtmfNTones s <=? 0 then Done (false, e)   (* message box, return false *)
  else
    let duration := GetDuration e in
    let nT0 := Zfloor (mT0 e * mSampleRate e + 0.5) in
    let nT1 := Zfloor ((mT0 e + duration) * mSampleRate e + 0.5) in
    let T := nT1 - nT0 in
    let t := Zfloor (dtmfTone s * mSampleRate e) in
    let sl := Zfloor (dtmfSilence s * mSampleRate e) in
    match redistribute fuel T (dtmfNTones s) t sl with
    | Done st => Done (true, with_cursor (init_cursor T st (mCursor e)) e)
    | Crash => Crash
    | OutOfFuel => OutOfFuel
    end.

(** ** [EffectDtmf::MakeDtmfTone], lines 486-610 *)

Local Open Scope char_scope.

(** First [switch]: the low tone (left column of the keypad table). *)
Definition low_tone (tone : ascii) : R :=
  match tone with
  | "1" | "2" | "3" | "A"
  | "a" | "b" | "c"
  | "d" | "e" | "f" => 697
  | "4" | "5" | "6" | "B"
  | "g" | "h" | "i"
  | "j" | "k" | "l"
  | "m" | "n" | "o" => 770
  | "7" | "8" | "9" | "C"
  | "p" | "q" | "r" | "s"
  | "t" | "u" | "v"
  | "w" | "x" | "y" | "z" => 852
  | "*" | "0" | "#" | "D" => 941
  | _ => 0
  end%R.

(** Second [switch]: the high tone (top row of the keypad table). *)
Definition high_tone (tone : ascii) : R :=
  match tone with
  | "1" | "4" | "7" | "*"
  | "g" | "h" | "i"
  | "p" | "q" | "r" | "s" => 1209
  | "2" | "5" | "8" | "0"
  | "a" | "b" | "c"
  | "j" | "k" | "l"
  | "t" | "u" | "v" => 1336
  | "3" | "6" | "9" | "#"
  | "d" | "e" | "f"
  | "m" | "n" | "o"
  | "w" | "x" | "y" | "z" => 1477
  | "A" | "B" | "C" | "D" => 1633
  | _ => 0
  end%R.

Local Close Scope char_scope.

Definition kFadeInOut : R := 250.

(** [wxMin(a, b)] is [((a) < (b)) ? (a) : (b)]. *)
Definition wxMin (a b : R) : R := if Rlt_dec a b then a else b.

(** Conversion of a [double] to [size_t]: truncation toward zero. *)
Definition to_size_t (x : R) : nat :=
  Z.to_nat (if Rle_dec 0 x then Zfloor x else Zceil x).

(** The values taken by [i] in [for (size_t i = 0; i < A; i++)] for a
    real bound [A]. *)
Definition iters_below (A : R) : list nat := seq 0 (Z.to_nat (Zceil A)).

(** [buffer[i] *= m]; [None] when [i] is outside the buffer. *)
Fixpoint scale_at (b : list R) (i : nat) (m : R) : option (list R) :=
  match b, i with
  | [], _ => None
  | x :: b', O => Some ((x * m)%R :: b')
  | x :: b', S i' =>
      match scale_at b' i' m with
      | Some r => Some (x :: r)
      | None => None
      end
  end.

(** [for i in its: buffer[i + offset] *= m i]. *)
Fixpoint fade_loop (its : list nat) (offset : nat) (m : nat -> R)
         (b : list R) : option (list R) :=
  match its with
  | [] => Some b
  | i :: rest =>
      match scale_at b (i + offset) (m i) with
      | Some b' => fade_loop rest offset m b'
      | None => None
      end
  end.

(** Lines 577-588: the two sines, before any fade. *)
Definition tone_wave (len : nat) (fs : R) (tone : ascii) (last : Z)
           (amplitude : R) : list R :=
  let A := (2 * PI / fs * low_tone tone)%R in
  let B := (2 * PI / fs * high_tone tone)%R in
  map (fun i : nat =>
         (amplitude * 0.5 *
          (sin (A * IZR (Z.of_nat i + last)) +
           sin (B * IZR (Z.of_nat i + last))))%R)
      (seq 0 len).

(** Lines 590-596. *)
Definition fade_in (len : nat) (fs : R) (last : Z) (b : list R)
  : option (list R) :=
  if last =? 0 then
    let A := wxMin (INR len) (fs / kFadeInOut) in
    fade_loop (iters_below A) 0 (fun i => (INR i / A)%R) b
  else Some b.

(** Lines 598-608. *)
Definition fade_out (len : nat) (fs : R) (last total : Z) (b : list R)
  : option (list R) :=
  if last >=? total - Z.of_nat len then
    let A := wxMin (INR len) (fs / kFadeInOut) in
    let offset := to_size_t (INR len - A) in
    fade_loop (iters_below A) offset (fun i => (1 - INR i / A)%R) b
  else Some b.

(** The samples left in [buffer[0 .. len)]; [None] stands for a write
    outside that range. *)
Definition MakeDtmfTone (len : nat) (fs : R) (tone : ascii)
           (last total : Z) (amplitude : R) : option (list R) :=
  match fade_in len fs last (tone_wave len fs tone last amplitude) with
  | Some b => fade_out len fs last total b
  | None => None
  end.

(** ** [EffectDtmf::ProcessBlock], lines 159-228 *)

(** [limitSampleBufferSize(bufferSize, limit)] comes with [sampleCount]
    from the sample library: the smaller of [bufferSize] and [limit], and
    0 for a negative [limit]. *)
Definition limitSampleBufferSize (bufferSize limit : Z) : Z :=
  Z.min bufferSize (Z.max 0 limit).

(** [dtmfSequence[pos]]; [None] outside the string. *)
Definition char_at (s : string) (pos : Z) : option ascii :=
  if pos <? 0 then None else String.get (Z.to_nat pos) s.

(** [numRemaining -= len], and [curTonePos += len] inside a tone. *)
Definition consume (len : Z) (c : Cursor) : Cursor :=
  mkCursor (numSamplesSequence c) (numSamplesTone c) (numSamplesSilence c)
           (diff c) (curSeqPos c) (isTone c)
           (numRemaining c - len)
           (if isTone c then curTonePos c + len else curTonePos c).

(** [MakeDtmfTone] takes the sample rate and the amplitude as [float]
    while [mSampleRate] and [dtmfAmplitude] are [double]: the call narrows
    both.  The conversion rounds to the nearest value with a significand
    of 24 bits, ties to even; below [2^-126] the spacing stays that of the
    smallest normal numbers.  (Values too large for a [float] are outside
    the model.) *)
Definition round_half_even (y : R) : Z :=
  let f := Zfloor y in
  if Rlt_dec (y - IZR f) (1 / 2) then f
  else if Rlt_dec (1 / 2) (y - IZR f) then f + 1
  else if Z.even f then f else f + 1.

(** The exponent [e] with [2^e <= |x| < 2^(e+1)]. *)
Definition binary_exponent (x : R) : Z := Zfloor (ln (Rabs x) / ln 2).

Definition to_float (x : R) : R :=
  if Req_dec_T x 0 then 0%R
  else
    let q := powerRZ 2 (Z.max (binary_exponent x) (-126) - 23) in
    (IZR (round_half_even (x / q)) * q)%R.

(** One pass of the [while (size)] loop: the new cursor, the samples
    written, and their number. *)
Definition block_step (e : EffectDtmf) (c : Cursor) (size : Z)
  : option (Cursor * list R * Z) :=
  let c1 := if numRemaining c =? 0 then startSegment c else c in
  let len := limitSampleBufferSize size (numRemaining c1) in
  if isTone c1 then
    match char_at (dtmfSequence (mSettings e)) (curSeqPos c1) with
    | Some tone =>
        match MakeDtmfTone (Z.to_nat len) (to_float (mSampleRate e)) tone
                           (curTonePos c1) (numSamplesTone c1)
                           (to_float (dtmfAmplitude (mSettings e))) with
        | Some samples => Some (consume len c1, samples, len)
        | None => None
        end
    | None => None
    end
  else
    Some (consume len c1, repeat 0%R (Z.to_nat len), len).

Fixpoint block_loop (fuel : nat) (e : EffectDtmf) (c : Cursor) (size : Z)
         (out : list R) (processed : Z) : outcome (Cursor * list R * Z) :=
  if size =? 0 then Done (c, out, processed)
  else
    match fuel with
    | O => OutOfFuel
    | S fuel' =>
        match block_step e c size with
        | Some (c', samples, len) =>
            block_loop fuel' e c' (size - len) (out ++ samples)
                       (processed + len)
        | None => Crash
        end
    end.

(** The new state, the samples written to [outbuf[0]] and the returned
    count. *)
Definition ProcessBlock (fuel : nat) (e : EffectDtmf) (size : Z)
  : outcome (EffectDtmf * list R * Z) :=
  match block_loop fuel e (mCursor e) size [] 0 with
  | Done (c, out, processed) => Done (with_cursor c e, out, processed)
  | Crash => Crash
  | OutOfFuel => OutOfFuel
  end.

(** Successive calls of [ProcessBlock] with the requested sizes, each
    allowed [fuel] loop passes; the returned counts are collected. *)
Fixpoint ProcessBlocks (fuel : nat) (e : EffectDtmf) (sizes : list Z)
  : outcome (EffectDtmf * list Z) :=
  match sizes with
  | [] => Done (e, [])
  | size :: rest =>
      match ProcessBlock fuel e size with
      | Done (e', _, processed) =>
          match ProcessBlocks fuel e' rest with
          | Done (e'', counts) => Done (e'', processed :: counts)
          | Crash => Crash
          | OutOfFuel => OutOfFuel
          end
      | Crash => Crash
      | OutOfFuel => OutOfFuel
      end
  end.

(** ** [EffectDtmf::SetAutomationParameters], lines 248-274 *)

(** [kSymbols], lines 42-55, concatenated as in lines 256-260. *)
Definition kSymbols : list string :=
  [ "0"; "1"; "2"; "3";
    "4"; "5"; "6"; "7";
    "8"; "9"; "*"; "#";
    "A"; "B"; "C"; "D";
    "a"; "b"; "c"; "d";
    "e"; "f"; "g"; "h";
    "i"; "j"; "k"; "l";
    "m"; "n"; "o"; "p";
    "q"; "r"; "s"; "t";
    "u"; "v"; "w"; "x";
    "y"; "z" ]%string.

Definition symbols : string := fold_left String.append kSymbols EmptyString.

Fixpoint mem_char (c : ascii) (s : string) : bool :=
  match s with
  | EmptyString => false
  | String d s' => Ascii.eqb c d || mem_char c s'
  end.

(** [s.find_first_not_of(chars)]: the first position of [s] holding a
    character that is not in [chars]; [None] is [wxString::npos]. *)
Fixpoint find_first_not_of (s chars : string) : option nat :=
  match s with
  | EmptyString => None
  | String c s' =>
      if mem_char c chars then option_map S (find_first_not_of s' chars)
      else Some O
  end.

(** The three values a [CommandParameters] may hold for this effect. *)
Record CommandParameters : Type := mkParms {
  parmDutyCycle : option R;
  parmAmplitude : option R;
  parmSequence : option string
}.

Definition MIN_DutyCycle : R := 0.
Definition MAX_DutyCycle : R := 100.
Definition MIN_Amplitude : R := 0.001.
Definition MAX_Amplitude : R := 1.

(** The value a parameter reads as: the stored one, else the default. *)
Definition read_or {A : Type} (v : option A) (def : A) : A :=
  match v with Some x => x | None => def end.

(** Modelled from the spec: the macros [ReadAndVerifyDouble] and
    [ReadAndVerifyString] belong to the effect base class, not to
    DtmfGen.cpp.  The host parameter registry supplies named values with
    a declared default, minimum and maximum per field: a missing value
    reads as the default, and a number outside its bounds fails
    verification. *)
Definition ReadAndVerifyDouble (v : option R) (def lo hi : R) : option R :=
  let x := read_or v def in
  if Rle_dec lo x then if Rle_dec x hi then Some x else None else None.

Definition ReadAndVerifyString (v : option string) (def : string)
  : option string :=
  Some (read_or v def).

Section Automation.

(** [Settings::DefaultSequence], [DefaultDutyCycle] and
    [DefaultAmplitude] are declared in DtmfGen.h. *)
Variable DefaultSequence : string.
Variables DefaultDutyCycle DefaultAmplitude : R.

(** The returned flag and the effect afterwards. *)
Definition SetAutomationParameters (parms : CommandParameters)
           (e : EffectDtmf) : bool * EffectDtmf :=
  match ReadAndVerifyDouble (parmDutyCycle parms) DefaultDutyCycle
                            MIN_DutyCycle MAX_DutyCycle with
  | None => (false, e)
  | Some DutyCycle =>
    match ReadAndVerifyDouble (parmAmplitude parms) DefaultAmplitude
                              MIN_Amplitude MAX_Amplitude with
    | None => (false, e)
    | Some Amplitude =>
      match ReadAndVerifyString (parmSequence parms) DefaultSequence with
      | None => (false, e)
      | Some Sequence =>
        match find_first_not_of Sequence symbols with
        | Some _ => (false, e)
        | None =>
            let s := mSettings e in
            let s' := mkSettings Sequence (dtmfNTones s) (dtmfTone s)
                                 (dtmfSilence s) DutyCycle Amplitude in
            (true, Recalculate (with_settings s' e))
        end
      end
    end
  end.

End Automation.

(** ** Auxiliary notions used in the statements *)

(** The exit condition as the specification words it. *)
Definition exit_invariant (N : Z) (st : Slots) : Prop :=
  0 <= slotDiff st < 2 * N - 1.

(** Number of tones (resp. silences) among the next [k] segments when the
    cursor currently is in a tone ([b = true]) or not. *)
Fixpoint tones_in (k : nat) (b : bool) : Z :=
  match k with
  | O => 0
  | S k' => (if b then 0 else 1) + tones_in k' (negb b)
  end.

Fixpoint silences_in (k : nat) (b : bool) : Z :=
  match k with
  | O => 0
  | S k' => (if b then 1 else 0) + silences_in k' (negb b)
  end.

(** The slot lengths fill the duration: [N] tones and [N - 1] silences. *)
Definition slots_fill (e : EffectDtmf) : Prop :=
  (IZR (dtmfNTones (mSettings e)) * dtmfTone (mSettings e)
   + (IZR (dtmfNTones (mSettings e)) - 1) * dtmfSilence (mSettings e)
   = GetDuration e)%R.

(** The values of lines 124-130 and 136-137 in real arithmetic. *)
Definition nominal_total (e : EffectDtmf) : Z :=
  Zfloor ((mT0 e + GetDuration e) * mSampleRate e + 0.5)
  - Zfloor (mT0 e * mSampleRate e + 0.5).

Definition nominal_slots (e : EffectDtmf) : Slots :=
  let t := Zfloor (dtmfTone (mSettings e) * mSampleRate e) in
  let s := Zfloor (dtmfSilence (mSettings e) * mSampleRate e) in
  mkSlots t s (diff_of (nominal_total e) (dtmfNTones (mSettings e)) t s).

(** The duty cycle is within the bounds declared for the parameter. *)
Definition duty_cycle_in_range (e : EffectDtmf) : Prop :=
  (MIN_DutyCycle <= dtmfDutyCycle (mSettings e) <= MAX_DutyCycle)%R.

(** A concrete run: sequence 123, duty cycle 50, amplitude 1, three
    seconds at 8000 Hz, starting at time 0. *)
Definition example_effect : EffectDtmf :=
  mkEffect (mkSettings "123" 0 0 0 50 1) 3 0 8000
           (mkCursor 0 0 0 0 0 false 0 0).

(** The alphabet in the specification's words: digits, star, hash, the
    capitals A to D and the lowercase letters. *)
Definition in_alphabet (c : ascii) : bool :=
  let n := nat_of_ascii c in
  ((48 <=? n) && (n <=? 57))%nat        (* 0 - 9 *)
  || (n =? 42)%nat                      (* star *)
  || (n =? 35)%nat                      (* hash *)
  || ((65 <=? n) && (n <=? 68))%nat     (* A - D *)
  || ((97 <=? n) && (n <=? 122))%nat.   (* a - z *)

Fixpoint string_forall (f : ascii -> bool) (s : string) : bool :=
  match s with
  | EmptyString => true
  | String c s' => f c && string_forall f s'
  end.

Definition verifies (x lo hi : R) : Prop := (lo <= x <= hi)%R.

(** The window width [A] of both fades and the offset of the fade-out,
    lines 592 and 602-603. *)
Definition fade_width (len : nat) (fs : R) : R :=
  wxMin (INR len) (fs / kFadeInOut).

Definition fade_offset (len : nat) (fs : R) : nat :=
  to_size_t (INR len - fade_width len fs).

(** The factor applied to sample [j] by the fade-in and by the fade-out
    of one call. *)
Definition fade_in_gain (len : nat) (fs : R) (last : Z) (j : nat) : R :=
  if (last =? 0)
     && (j <? List.length (iters_below (fade_width len fs)))%nat
  then (INR j / fade_width len fs)%R else 1%R.

Definition fade_out_gain (len : nat) (fs : R) (last total : Z) (j : nat)
  : R :=
  if (last >=? total - Z.of_nat len)
     && (fade_offset len fs <=? j)%nat
     && (j <? fade_offset len fs
              + List.length (iters_below (fade_width len fs)))%nat
  then (1 - INR (j - fade_offset len fs) / fade_width len fs)%R else 1%R.

(** Sample [n] of the symbol, counted from its start, before any fade. *)
Definition wave_sample (fs : R) (tone : ascii) (amplitude : R) (n : Z) : R :=
  (amplitude * 0.5 *
   (sin (2 * PI / fs * low_tone tone * IZR n) +
    sin (2 * PI / fs * high_tone tone * IZR n)))%R.

(** The keypad as a table: each row has a low frequency, each cell a
    high frequency and the symbols it holds (a digit or sign, with the
    lowercase letters printed on that key). *)
Definition keypad : list (R * list (R * string)) :=
  [ (697%R, [ (1209%R, "1");     (1336%R, "2abc");
              (1477%R, "3def");  (1633%R, "A") ]);
    (770%R, [ (1209%R, "4ghi");  (1336%R, "5jkl");
              (1477%R, "6mno");  (1633%R, "B") ]);
    (852%R, [ (1209%R, "7pqrs"); (1336%R, "8tuv");
              (1477%R, "9wxyz"); (1633%R, "C") ]);
    (941%R, [ (1209%R, "*");     (1336%R, "0");
              (1477%R, "#");     (1633%R, "D") ]) ]%string.

Fixpoint lookup_cells (low : R) (cells : list (R * string)) (c : ascii)
  : option (R * R) :=
  match cells with
  | [] => None
  | (high, keys) :: rest =>
      if mem_char c keys then Some (low, high) else lookup_cells low rest c
  end.

Fixpoint lookup_rows (rows : list (R * list (R * string))) (c : ascii)
  : option (R * R) :=
  match rows with
  | [] => None
  | (low, cells) :: rest =>
      match lookup_cells low cells c with
      | Some p => Some p
      | None => lookup_rows rest c
      end
  end.

Definition keypad_lookup (c : ascii) : option (R * R) := lookup_rows keypad c.

(** The (low, high) pair of a symbol; both 0 for a symbol not on the
    keypad. *)
Definition tone_frequencies (c : ascii) : R * R :=
  match keypad_lookup c with Some p => p | None => (0%R, 0%R) end.

(** Samples still to come from the current segment and from the next
    [k] segments. *)
Definition capacity (k : nat) (c : Cursor) : Z :=
  numRemaining c + zsum (segment_lengths k c).

(** State of the cursor when [k] of the [2N - 1] segments of a run of
    [N] tones have not been started yet. *)
Definition cursor_ok (N : Z) (k : nat) (c : Cursor) : Prop :=
  0 <= numSamplesTone c /\ 0 <= numSamplesSilence c /\
  0 <= numRemaining c /\ Z.of_nat k <= 2 * N - 1 /\
  2 * curSeqPos c + (if isTone c then 1 else 2) + Z.of_nat k = 2 * N - 1.

(** Loop passes a call may still need. *)
Definition passes_left (k : nat) (c : Cursor) : nat :=
  (k + (if (numRemaining c =? 0)%Z then 0 else 1))%nat.

(** The concrete run after [Recalculate] and [ProcessInitialize]. *)
Definition example_initialized : EffectDtmf :=
  with_cursor (init_cursor (nominal_total (Recalculate example_effect))
                           (nominal_slots (Recalculate example_effect))
                           (mCursor (Recalculate example_effect)))
              (Recalculate example_effect).

(** A sequence of one tone with duration 0, and the same run as
    [Recalculate] and [ProcessInitialize] leave it: no samples. *)
Definition single_tone_config : EffectDtmf :=
  mkEffect (mkSettings "1" 0 0 0 50 1) 0 0 8000
           (mkCursor 0 0 0 0 0 false 0 0).

Definition single_tone_empty : EffectDtmf :=
  mkEffect (mkSettings "1" 1 0 0 50 1) 0 0 8000
           (mkCursor 0 0 0 0 (-1) false 0 0).

(** Two tones at duty cycle 100 over 24003.9 samples (3.0004875 s at
    8000 Hz), and at duty cycle 0 over 24000.5 samples (3.0000625 s). *)
Definition full_duty_effect : EffectDtmf :=
  mkEffect (mkSettings "12" 0 0 0 100 1) 3.0004875 0 8000
           (mkCursor 0 0 0 0 0 false 0 0).

Definition zero_duty_effect : EffectDtmf :=
  mkEffect (mkSettings "12" 0 0 0 0 1) 3.0000625 0 8000
           (mkCursor 0 0 0 0 0 false 0 0).

(** ** Event handlers of the dialog, lines 424-437 and 630-653 *)

(** Scale of the duty-cycle slider (last column of the [Param] table,
    line 37). *)
Definition SCL_DutyCycle : R := 10.

Definition set_dtmfSequence (text : string) (e : EffectDtmf) : EffectDtmf :=
  let s := mSettings e in
  with_settings (mkSettings text (dtmfNTones s) (dtmfTone s) (dtmfSilence s)
                            (dtmfDutyCycle s) (dtmfAmplitude s)) e.

Definition set_dtmfDutyCycle (dc : R) (e : EffectDtmf) : EffectDtmf :=
  let s := mSettings e in
  with_settings (mkSettings (dtmfSequence s) (dtmfNTones s) (dtmfTone s)
                            (dtmfSilence s) dc (dtmfAmplitude s)) e.

(** [MyValidator::OnSequence]: [text] is the value of the sequence box.
    ([DoUpdateUI] only rewrites labels.) *)
Definition OnSequence (text : string) (e : EffectDtmf) : EffectDtmf :=
  Recalculate (set_dtmfSequence text e).

(** [MyValidator::OnDuration]: [value] is the value of the duration
    control. *)
Definition OnDuration (value : R) (e : EffectDtmf) : EffectDtmf :=
  Recalculate (SetDuration value e).

(** [MyValidator::OnDutyCycle]: [pos] is [evt.GetInt()], the slider
    position. *)
Definition OnDutyCycle (pos : Z) (e : EffectDtmf) : EffectDtmf :=
  Recalculate (set_dtmfDutyCycle (IZR pos / SCL_DutyCycle)%R e).

(** [MyValidator::ValidateUI]: slider position and duration control are
    read back, then everything is recalculated. *)
Definition ValidateUI (pos : Z) (value : R) (e : EffectDtmf)
  : bool * EffectDtmf :=
  (true,
   Recalculate
     (SetDuration value (set_dtmfDutyCycle (IZR pos / SCL_DutyCycle)%R e))).

(** Two tones whose slot lengths were derived for a duration of 0 and a
    single tone whose slot length was, each with the duration since set
    to one second. *)
Definition stale_pair_effect : EffectDtmf :=
  mkEffect (mkSettings "12" 2 0 0 50 1) 1 0 8000
           (mkCursor 0 0 0 0 0 false 0 0).

Definition stale_single_effect : EffectDtmf :=
  mkEffect (mkSettings "1" 1 0 0 50 1) 1 0 8000
           (mkCursor 0 0 0 0 0 false 0 0).

(** The pair as [ProcessInitialize] leaves it: one pass of the loop has
    made the slots 4000 and 8000 samples long. *)
Definition stale_pair_initialized : EffectDtmf :=
  with_cursor (mkCursor 8000 4000 8000 (-8000) (-1) false 0 0)
              stale_pair_effect.

(** The cursor on which a loop pass works: a new segment is started when
    the current one is used up. *)
Definition pass_cursor (c : Cursor) : Cursor :=
  if numRemaining c =? 0 then startSegment c else c.

(** A tone may be synthesized at the cursor: its symbol lies inside the
    sequence. *)
Definition symbol_in_range (e : EffectDtmf) (c : Cursor) : Prop :=
  isTone c = true ->
  exists ch, char_at (dtmfSequence (mSettings e)) (curSeqPos c) = Some ch.

(** The sixteen keys of the keypad proper. *)
Definition keypad_keys : list ascii :=
  list_ascii_of_string "0123456789*#ABCD".

(** Inside a tone [curTonePos] counts the samples of that tone already
    written: with what remains it makes up the length of the segment,
    [numSamplesTone] or one more. *)
Definition tone_position_ok (c : Cursor) : Prop :=
  isTone c = true ->
  0 <= curTonePos c /\
  numSamplesTone c <= curTonePos c + numRemaining c <= numSamplesTone c + 1.


(** ** The double computations in IEEE 754 binary64 *)

Module Binary64.

Import PrimFloat.

(** [(sampleCount) floor(x)]: the largest integer not above [x], read off
    the sign, significand and exponent of [x].  The conversion of an
    infinity or a NaN to an integer is undefined. *)
Definition floor (x : float) : option Z :=
  match FloatOps.Prim2SF x with
  | SpecFloat.S754_zero _ => Some 0
  | SpecFloat.S754_finite s m e =>
      let v := if s then Z.neg m else Z.pos m in
      Some (if 0 <=? e then v * 2 ^ e else v / 2 ^ (- e))
  | _ => None
  end.

(** [(double) n] for an [int] that is not negative. *)
Definition of_int (n : Z) : float := of_uint63 (Uint63.of_Z n).

Record Settings : Type := mkSettings {
  dtmfSequence : string;
  dtmfNTones : Z;
  dtmfTone : float;        (* seconds *)
  dtmfSilence : float;     (* seconds *)
  dtmfDutyCycle : float;   (* 0.0 - 100.0 *)
  dtmfAmplitude : float
}.

Record EffectDtmf : Type := mkEffect {
  mSettings : Settings;
  mDuration : float;       (* GetDuration() / SetDuration() *)
  mT0 : float;
  mSampleRate : float;
  mCursor : Cursor
}.

Definition GetDuration (e : EffectDtmf) : float := mDuration e.

Definition SetDuration (d : float) (e : EffectDtmf) : EffectDtmf :=
  mkEffect (mSettings e) d (mT0 e) (mSampleRate e) (mCursor e).

Definition with_settings (s : Settings) (e : EffectDtmf) : EffectDtmf :=
  mkEffect s (mDuration e) (mT0 e) (mSampleRate e) (mCursor e).

Definition with_cursor (c : Cursor) (e : EffectDtmf) : EffectDtmf :=
  mkEffect (mSettings e) (mDuration e) (mT0 e) (mSampleRate e) c.

(** Lines 443-484: [slot = duration / ((double) N + dutyCycle / 100.0 - 1)],
    one rounding for each of the two divisions, the sum and the
    difference, then one for each product. *)
Definition Recalculate (e : EffectDtmf) : EffectDtmf :=
  let s := mSettings e in
  let n := Z.of_nat (String.length (dtmfSequence s)) in
  let upd (tone silence : float) :=
    mkSettings (dtmfSequence s) n tone silence
               (dtmfDutyCycle s) (dtmfAmplitude s) in
  if n =? 0 then
    with_settings (upd 0%float 0%float) (SetDuration 0%float e)
  else if n =? 1 then
    with_settings (upd (GetDuration e) 0%float) e
  else
    let slot := (GetDuration e
                 / (of_int n + (dtmfDutyCycle s / 100) - 1))%float in
    with_settings (upd (slot * (dtmfDutyCycle s / 100))%float
                       (slot * (1 - (dtmfDutyCycle s / 100)))%float) e.

(** Lines 105-157; the loop and the cursor are the integer core above. *)
Definition ProcessInitialize (fuel : nat) (e : EffectDtmf)
  : outcome (bool * EffectDtmf) :=
  let s := mSettings e in
  if dtmfNTones s <=? 0 then Done (false, e)   (* message box, return false *)
  else
    let duration := GetDuration e in
    match floor (mT0 e * mSampleRate e + 0.5)%float,
          floor ((mT0 e + duration) * mSampleRate e + 0.5)%float,
          floor (dtmfTone s * mSampleRate e)%float,
          floor (dtmfSilence s * mSampleRate e)%float with
    | Some nT0, Some nT1, Some t, Some sl =>
        let T := nT1 - nT0 in
        match redistribute fuel T (dtmfNTones s) t sl with
        | Done st => Done (true, with_cursor (init_cursor T st (mCursor e)) e)
        | Crash => Crash
        | OutOfFuel => OutOfFuel
        end
    | _, _, _, _ => Crash
    end.

(** The values of lines 124-130 and 136-137. *)
Definition nominal_total (e : EffectDtmf) : option Z :=
  match floor (mT0 e * mSampleRate e + 0.5)%float,
        floor ((mT0 e + GetDuration e) * mSampleRate e + 0.5)%float with
  | Some nT0, Some nT1 => Some (nT1 - nT0)
  | _, _ => None
  end.

Definition nominal_slots (e : EffectDtmf) : option Slots :=
  match nominal_total e,
        floor (dtmfTone (mSettings e) * mSampleRate e)%float,
        floor (dtmfSilence (mSettings e) * mSampleRate e)%float with
  | Some T, Some t, Some s =>
      Some (mkSlots t s (diff_of T (dtmfNTones (mSettings e)) t s))
  | _, _, _ => None
  end.

(** A selection at 44100 Hz that starts [t0] seconds into the track; the
    derived fields are still to be set by [Recalculate]. *)
Definition selection (sequence : string) (dutyCycle duration t0 : float)
  : EffectDtmf :=
  mkEffect (mkSettings sequence 0 0%float 0%float dutyCycle 1%float)
           duration t0 44100%float (mkCursor 0 0 0 0 0 false 0 0).

(** No tone: the sequence box is empty. *)
Definition empty_selection : EffectDtmf :=
  selection EmptyString 55%float 1%float 0%float.

(** The examples give a decimal value as the double nearest to it,
    written in hexadecimal: the value a C++ literal or a parsed text
    field holds. *)

(** One tone of 1 s starting at 0.005 s. *)
Definition one_second_tone : EffectDtmf :=
  selection "1" 55%float 1%float
            0x1.47ae147ae147bp-8%float.   (* 0.005 *)

(** One tone of 0.7 s starting at 0.175 s. *)
Definition long_single_tone : EffectDtmf :=
  selection "1" 55%float
            0x1.6666666666666p-1%float    (* 0.7 *)
            0x1.6666666666666p-3%float.   (* 0.175 *)

(** Two tones at duty cycle 8 over 0.21 s starting at 0.175 s. *)
Definition short_pair : EffectDtmf :=
  selection "12" 8%float
            0x1.ae147ae147ae1p-3%float    (* 0.21 *)
            0x1.6666666666666p-3%float.   (* 0.175 *)

(** Two tones at duty cycle 100 over 3.0004875 s, and at duty cycle 0
    over 3.0000625 s, both at 8000 Hz from the start of the track. *)
Definition full_duty_pair : EffectDtmf :=
  mkEffect (mkSettings "12" 0 0%float 0%float 100%float 1%float)
           0x1.800ff97247454p+1%float     (* 3.0004875 *)
           0%float 8000%float
           (mkCursor 0 0 0 0 0 false 0 0).

Definition zero_duty_pair : EffectDtmf :=
  mkEffect (mkSettings "12" 0 0%float 0%float 0%float 1%float)
           0x1.80020c49ba5e3p+1%float     (* 3.0000625 *)
           0%float 8000%float
           (mkCursor 0 0 0 0 0 false 0 0).

Definition zero : float := 0%float.

End Binary64.
(** * Properties *)

(** ** Narrowing a double to a float *)

Lemma round_half_even_bounds (y : R) :
  Zfloor y <= round_half_even y <= Zfloor y + 1.
Proof.
  unfold round_half_even. cbv zeta.
  destruct (Rlt_dec _ _); [lia|]. destruct (Rlt_dec _ _); [lia|].
  destruct (Z.even _); lia.
Qed.

Lemma round_half_even_IZR (z : Z) : round_half_even (IZR z) = z.
Proof.
  unfold round_half_even. cbv zeta. rewrite ZfloorZ.
  destruct (Rlt_dec _ _) as [|H]; [reflexivity|]. exfalso. apply H. lra.
Qed.

Lemma powerRZ_2_le (n m : Z) : n <= m -> (powerRZ 2 n <= powerRZ 2 m)%R.
Proof.
  intros H. rewrite !powerRZ_Rpower by lra.
  apply Rle_Rpower; [lra | apply IZR_le; exact H].
Qed.

Lemma binary_exponent_bounds (x : R) :
  (0 < x)%R ->
  (powerRZ 2 (binary_exponent x) <= x < powerRZ 2 (binary_exponent x + 1))%R.
Proof.
  intros Hx. unfold binary_exponent. rewrite (Rabs_pos_eq x) by lra.
  pose proof (Zfloor_bound (ln x / ln 2)) as [H1 H2].
  set (e := Zfloor (ln x / ln 2)) in *.
  assert (H2p : (0 < ln 2)%R) by (pose proof ln_lt_2; lra).
  rewrite !powerRZ_Rpower by lra. unfold Rpower.
  rewrite plus_IZR.
  assert (E : (ln x / ln 2 * ln 2 = ln x)%R) by (field; lra).
  assert (L1 : (IZR e * ln 2 <= ln x)%R) by (rewrite <- E; nra).
  assert (L2 : (ln x < (IZR e + 1) * ln 2)%R) by (rewrite <- E; nra).
  pose proof (exp_ln x Hx) as Ex.
  split.
  - destruct L1 as [L1 | L1].
    + apply exp_increasing in L1. lra.
    + rewrite L1. lra.
  - apply exp_increasing in L2. lra.
Qed.

Lemma binary_exponent_eq (x : R) (e : Z) :
  (powerRZ 2 e <= x < powerRZ 2 (e + 1))%R -> binary_exponent x = e.
Proof.
  intros [H1 H2].
  assert (Hx : (0 < x)%R).
  { pose proof (powerRZ_lt 2 e ltac:(lra)). lra. }
  destruct (binary_exponent_bounds x Hx) as [B1 B2].
  set (k := binary_exponent x) in *.
  destruct (Z_lt_le_dec k e) as [Hlt | Hge].
  - pose proof (powerRZ_2_le (k + 1) e ltac:(lia)). lra.
  - destruct (Z_lt_le_dec e k) as [Hlt | Hle]; [|lia].
    pose proof (powerRZ_2_le (e + 1) k ltac:(lia)). lra.
Qed.

(** Narrowing keeps a value of the unit interval inside it. *)
Lemma to_float_unit (a : R) :
  (0 <= a <= 1)%R -> (0 <= to_float a <= 1)%R.
Proof.
  intros [H0 H1]. unfold to_float.
  destruct (Req_dec_T a 0) as [|Hne]; [lra|].
  assert (Ha : (0 < a)%R) by lra.
  destruct (binary_exponent_bounds a Ha) as [B1 B2].
  set (e := binary_exponent a) in *.
  set (m := Z.max e (-126)).
  cbv zeta.
  assert (Hq : (0 < powerRZ 2 (m - 23))%R) by (apply powerRZ_lt; lra).
  set (q := powerRZ 2 (m - 23)) in *.
  pose proof (round_half_even_bounds (a / q)) as [R1 R2].
  pose proof (Zfloor_bound (a / q)) as [F1 F2].
  assert (Hy0 : (0 <= a / q)%R).
  { apply Rmult_le_pos; [lra|]. left. apply Rinv_0_lt_compat. exact Hq. }
  assert (Hf0 : 0 <= Zfloor (a / q)) by (apply (Zfloor_lub 0); exact Hy0).
  assert (Hr0 : (0 <= IZR (round_half_even (a / q)))%R)
    by (apply IZR_le; lia).
  split; [apply Rmult_le_pos; lra|].
  assert (He : e <= 0).
  { destruct (Z_le_gt_dec e 0) as [|Hgt]; [assumption|].
    assert (H : (powerRZ 2 1 <= powerRZ 2 e)%R)
      by (apply powerRZ_2_le; lia).
    simpl in H. lra. }
  destruct (Z.eq_dec e 0) as [E0 | E0].
  - (* a = 1 *)
    rewrite E0 in B1. simpl in B1.
    assert (Ea : a = 1%R) by lra.
    assert (Em : m = 0) by (subst m; lia).
    subst q. rewrite Em, Ea.
    replace (1 / powerRZ 2 (0 - 23))%R with (IZR (2 ^ 23)).
    + rewrite round_half_even_IZR. right.
      change (0 - 23) with (-23). simpl. lra.
    + change (0 - 23) with (-23). simpl. lra.
  - assert (Hm : m <= -1) by (subst m; lia).
    assert (Hy : (a / q < IZR (2 ^ 24))%R).
    { apply Rmult_lt_reg_r with q; [exact Hq|].
      replace (a / q * q)%R with a by (field; lra).
      assert (Hle : (powerRZ 2 (e + 1) <= powerRZ 2 (m + 1))%R)
        by (apply powerRZ_2_le; subst m; lia).
      replace (IZR (2 ^ 24) * q)%R with (powerRZ 2 (m + 1)); [lra|].
      subst q. replace (m + 1) with (24 + (m - 23)) by lia.
      rewrite powerRZ_add by lra. f_equal. simpl. lra. }
    assert (Hr : round_half_even (a / q) <= 2 ^ 24).
    { assert (Zfloor (a / q) < 2 ^ 24); [|lia].
      apply lt_IZR. lra. }
    apply IZR_le in Hr.
    assert (Hq1 : (IZR (2 ^ 24) * q <= 1)%R).
    { replace (IZR (2 ^ 24) * q)%R with (powerRZ 2 (m + 1)).
      - replace 1%R with (powerRZ 2 0) by reflexivity.
        apply powerRZ_2_le; lia.
      - subst q. replace (m + 1) with (24 + (m - 23)) by lia.
        rewrite powerRZ_add by lra. f_equal. simpl. lra. }
    nra.
Qed.

(** Narrowing can raise a value: 0.8 becomes 13421773 / 2^24, which is
    0.800000011920929. *)
Lemma to_float_raises :
  to_float 0.8 = (13421773 / 16777216)%R /\ (0.8 < to_float 0.8)%R.
Proof.
  assert (E0 : to_float 0.8 = (13421773 / 16777216)%R).
  { unfold to_float.
    destruct (Req_dec_T 0.8 0) as [H|_]; [lra|].
    rewrite (binary_exponent_eq 0.8 (-1)) by (simpl; lra).
    change (Z.max (-1) (-126) - 23) with (-24). cbv zeta.
    assert (E : round_half_even (0.8 / powerRZ 2 (-24)) = 13421773).
    { unfold round_half_even. cbv zeta.
      rewrite (Zfloor_eq 13421772) by (simpl; lra).
      destruct (Rlt_dec _ _) as [H|_]; [simpl in H; lra|].
      destruct (Rlt_dec _ _) as [_|H]; [reflexivity|].
      exfalso. apply H. simpl. lra. }
    rewrite E. simpl. lra. }
  split; [exact E0 | rewrite E0; lra].
Qed.

(** ** The redistribution loop *)

Lemma spread_idle (fuel : nat) (T N : Z) (st : Slots) :
  slotDiff st <= 2 * N - 1 -> spread fuel T N st = Done st.
Proof.
  intros H.
  assert (E : (slotDiff st >? 2 * N - 1) = false)
    by (rewrite Z.gtb_ltb; apply Z.ltb_ge; lia).
  destruct fuel; cbn [spread]; rewrite E; reflexivity.
Qed.

(** One pass of the loop body, entered with [N >= 2], leaves a negative
    remainder: the [N] tone slots and the [N - 1] silence slots each take
    the whole of [diff]. *)
Lemma spread_pass_overshoots (T N t s : Z) :
  2 <= N -> 2 * N - 1 < diff_of T N t s ->
  let d := diff_of T N t s in
  diff_of T N (t + Z.quot d N) (s + Z.quot d (N - 1)) <= - (N - 1).
Proof.
  intros HN Hd d. unfold diff_of in *. fold d.
  assert (Hd0 : 0 <= d) by (subst d; lia).
  rewrite !Z.quot_div_nonneg by lia.
  pose proof (Z.div_mod d N ltac:(lia)) as E1.
  pose proof (Z.mod_pos_bound d N ltac:(lia)) as B1.
  pose proof (Z.div_mod d (N - 1) ltac:(lia)) as E2.
  pose proof (Z.mod_pos_bound d (N - 1) ltac:(lia)) as B2.
  assert (H2 : 2 <= d / (N - 1)) by (apply Z.div_le_lower_bound; lia).
  subst d. nia.
Qed.

Lemma spread_one_pass (fuel : nat) (T N t s : Z) :
  2 <= N -> 2 * N - 1 < diff_of T N t s ->
  let d := diff_of T N t s in
  let t' := t + Z.quot d N in
  let s' := s + Z.quot d (N - 1) in
  spread (S fuel) T N (mkSlots t s d)
  = Done (mkSlots t' s' (diff_of T N t' s')).
Proof.
  intros HN Hd d t' s'. cbn [spread slotDiff slotTone slotSilence].
  assert (E : (d >? 2 * N - 1) = true)
    by (rewrite Z.gtb_ltb; apply Z.ltb_lt; subst d; lia).
  rewrite E. unfold cdiv.
  destruct (N =? 0) eqn:E1; [apply Z.eqb_eq in E1; lia|].
  destruct (N - 1 =? 0) eqn:E2; [apply Z.eqb_eq in E2; lia|].
  apply spread_idle. cbn [slotDiff].
  pose proof (spread_pass_overshoots T N t s HN Hd) as H. simpl in H.
  subst t' s' d. lia.
Qed.

(** With a single tone the loop body divides by [N - 1 = 0]. *)
Lemma spread_single_tone_crash (fuel : nat) (T t s : Z) :
  1 < diff_of T 1 t s -> redistribute (S fuel) T 1 t s = Crash.
Proof.
  intros H. unfold redistribute. cbn [spread slotDiff].
  assert (E : (diff_of T 1 t s >? 2 * 1 - 1) = true)
    by (rewrite Z.gtb_ltb; apply Z.ltb_lt; lia).
  rewrite E. reflexivity.
Qed.

(** The loop returns whenever it is not entered with a single tone. *)
Lemma redistribute_returns (T N t s : Z) (fuel : nat) :
  1 <= N -> (1 <= fuel)%nat ->
  2 <= N \/ diff_of T N t s <= 2 * N - 1 ->
  exists st, redistribute fuel T N t s = Done st.
Proof.
  intros HN Hf Hc. unfold redistribute.
  destruct (Z_le_gt_dec (diff_of T N t s) (2 * N - 1)) as [Hle | Hgt].
  - eexists. apply spread_idle. exact Hle.
  - destruct fuel as [|fuel]; [lia|].
    eexists. apply spread_one_pass; lia.
Qed.

(** C2, as the code has it: for at least two tones the redistribution
    loop of ProcessInitialize terminates after at most one pass, for one
    tone it terminates when it is not entered; on exit the remainder is
    at most [2N - 1], it is the remainder of the slot lengths reached, and
    when the initial remainder lies in [0, 2N - 1] the slot lengths are
    unchanged and the remainder is not negative. *)
Theorem redistribute_exit (T N t s : Z) (fuel : nat) :
  1 <= N -> (1 <= fuel)%nat ->
  2 <= N \/ diff_of T N t s <= 2 * N - 1 ->
  exists st, redistribute fuel T N t s = Done st /\
    slotDiff st <= 2 * N - 1 /\
    slotDiff st = diff_of T N (slotTone st) (slotSilence st) /\
    (0 <= diff_of T N t s <= 2 * N - 1 ->
       st = mkSlots t s (diff_of T N t s) /\ 0 <= slotDiff st).
Proof.
  intros HN Hf Hc. unfold redistribute.
  destruct (Z_le_gt_dec (diff_of T N t s) (2 * N - 1)) as [Hle | Hgt].
  - exists (mkSlots t s (diff_of T N t s)).
    rewrite spread_idle by exact Hle.
    cbn [slotDiff slotTone slotSilence]. repeat split; try lia.
  - assert (HN2 : 2 <= N) by lia.
    destruct fuel as [|fuel]; [lia|].
    rewrite spread_one_pass by lia.
    eexists; split; [reflexivity|].
    cbn [slotDiff slotTone slotSilence].
    pose proof (spread_pass_overshoots T N t s HN2 ltac:(lia)) as H.
    cbv zeta in H. repeat split; try lia.
Qed.

Lemma redistribute_exit_witness :
  exists st, redistribute 1 24000 3 5333 2666 = Done st /\
    slotDiff st <= 2 * 3 - 1 /\
    slotDiff st = diff_of 24000 3 (slotTone st) (slotSilence st) /\
    (0 <= diff_of 24000 3 5333 2666 <= 2 * 3 - 1 ->
       st = mkSlots 5333 2666 (diff_of 24000 3 5333 2666) /\
       0 <= slotDiff st).
Proof.
  apply (redistribute_exit 24000 3 5333 2666 1); [lia | lia | left; lia].
Defined.

(** C2 as stated fails: the loop leaves [diff = 2N - 1] untouched (one
    tone, one sample), and a pass of the loop leaves a negative remainder
    (two tones, four samples, empty slots). *)
Lemma redistribute_exit_counterexample :
  (forall fuel, redistribute fuel 1 1 0 0 = Done (mkSlots 0 0 1)) /\
  ~ exit_invariant 1 (mkSlots 0 0 1) /\
  (forall fuel, redistribute (S fuel) 4 2 0 0 = Done (mkSlots 2 4 (-4))) /\
  ~ exit_invariant 2 (mkSlots 2 4 (-4)) /\
  ~ assert_diff_nonneg (mkSlots 2 4 (-4)).
Proof.
  unfold exit_invariant, assert_diff_nonneg. simpl.
  repeat split; try lia.
  - intros fuel. destruct fuel; reflexivity.
  - intros fuel. unfold redistribute. simpl. destruct fuel; reflexivity.
Qed.

(** ** Segment lengths handed out by the [ProcessBlock] loop *)

Lemma tones_in_odd (m : nat) :
  tones_in (S (2 * m)) false = Z.of_nat m + 1 /\
  silences_in (S (2 * m)) false = Z.of_nat m.
Proof.
  induction m as [|m [IHt IHs]]; [split; reflexivity|].
  replace (S (2 * S m))%nat with (S (S (S (2 * m)))) by lia.
  split.
  - change (tones_in (S (S (S (2 * m)))) false)
      with (1 + (0 + tones_in (S (2 * m)) false)). lia.
  - change (silences_in (S (S (S (2 * m)))) false)
      with (0 + (1 + silences_in (S (2 * m)) false)). lia.
Qed.

Lemma startSegment_fields (c : Cursor) :
  numSamplesSequence (startSegment c) = numSamplesSequence c /\
  numSamplesTone (startSegment c) = numSamplesTone c /\
  numSamplesSilence (startSegment c) = numSamplesSilence c /\
  diff (startSegment c) = diff c - 1 /\
  isTone (startSegment c) = negb (isTone c) /\
  curSeqPos (startSegment c)
  = (if isTone c then curSeqPos c else curSeqPos c + 1) /\
  numRemaining (startSegment c)
  = (if isTone c then numSamplesSilence c else numSamplesTone c)
    + (if diff c >? 0 then 1 else 0).
Proof.
  unfold startSegment. destruct (isTone c); simpl; repeat split.
Qed.

Lemma segment_lengths_sum (k : nat) : forall c : Cursor,
  zsum (segment_lengths k c)
  = tones_in k (isTone c) * numSamplesTone c
    + silences_in k (isTone c) * numSamplesSilence c
    + Z.min (Z.max 0 (diff c)) (Z.of_nat k).
Proof.
  induction k as [|k IH]; intros c.
  - simpl. lia.
  - cbn [segment_lengths zsum fold_right tones_in silences_in].
    fold (zsum (segment_lengths k (startSegment c))). rewrite IH.
    destruct (startSegment_fields c) as (_ & Ht & Hs & Hd & Hb & _ & Hr).
    rewrite Ht, Hs, Hd, Hb, Hr.
    assert (E : Z.min (Z.max 0 (diff c)) (Z.of_nat (S k))
                = (if diff c >? 0 then 1 else 0)
                  + Z.min (Z.max 0 (diff c - 1)) (Z.of_nat k)).
    { rewrite Z.gtb_ltb. destruct (0 <? diff c) eqn:E.
      - apply Z.ltb_lt in E. lia.
      - apply Z.ltb_ge in E. lia. }
    rewrite E. destruct (isTone c); simpl negb; lia.
Qed.

(** The [2N - 1] segments of a run (N tones, N - 1 silences) add up to
    the total exactly when the remainder left by [ProcessInitialize] is
    not negative; a negative remainder is the excess. *)
Lemma segments_total (T N : Z) (st : Slots) (old : Cursor) :
  1 <= N ->
  slotDiff st = diff_of T N (slotTone st) (slotSilence st) ->
  slotDiff st <= 2 * N - 1 ->
  zsum (segment_lengths (Z.to_nat (2 * N - 1)) (init_cursor T st old))
  = T - Z.min 0 (slotDiff st).
Proof.
  intros HN Hd Hle. rewrite segment_lengths_sum.
  replace (Z.to_nat (2 * N - 1)) with (S (2 * Z.to_nat (N - 1))) by lia.
  cbn [init_cursor isTone numSamplesTone numSamplesSilence diff].
  destruct (tones_in_odd (Z.to_nat (N - 1))) as [Et Es]. rewrite Et, Es.
  unfold diff_of in Hd. rewrite Z2Nat.id by lia.
  destruct (Z_le_gt_dec 0 (slotDiff st)); nia.
Qed.

(** ** The floors of [ProcessInitialize] in real arithmetic *)

(** The number of samples between two rounded positions differs from the
    exact length by less than one. *)
Lemma rounded_span (a D : R) :
  (D - 1 < IZR (Zfloor (a + D) - Zfloor a) < D + 1)%R.
Proof.
  rewrite minus_IZR.
  pose proof (Zfloor_bound (a + D)). pose proof (Zfloor_bound a). lra.
Qed.

(** When [N] tones of [x] samples and [N - 1] silences of [y] samples
    fill the span exactly, flooring both leaves a remainder between 0 and
    [2N - 1]: the loop of lines 138-149 is not entered. *)
Lemma floor_remainder (N : Z) (a D x y : R) :
  1 <= N ->
  (IZR N * x + (IZR N - 1) * y = D)%R ->
  0 <= diff_of (Zfloor (a + D) - Zfloor a) N (Zfloor x) (Zfloor y)
    <= 2 * N - 1.
Proof.
  intros HN HD.
  pose proof (rounded_span a D) as [HT1 HT2].
  pose proof (Zfloor_bound x) as [Hx1 Hx2].
  pose proof (Zfloor_bound y) as [Hy1 Hy2].
  assert (Hn : (1 <= IZR N)%R) by (apply IZR_le; lia).
  unfold diff_of.
  set (T := Zfloor (a + D) - Zfloor a) in *.
  set (t := Zfloor x) in *. set (s := Zfloor y) in *.
  assert (E : (IZR (T - N * t - (N - 1) * s)
               = IZR T - IZR N * IZR t - (IZR N - 1) * IZR s)%R).
  { rewrite !minus_IZR, !mult_IZR, minus_IZR. reflexivity. }
  split.
  - assert (H : -1 < T - N * t - (N - 1) * s); [|lia].
    apply lt_IZR. rewrite E. nra.
  - assert (H : T - N * t - (N - 1) * s < 2 * N); [|lia].
    apply lt_IZR. rewrite E, mult_IZR. nra.
Qed.

(** ** [Recalculate] followed by [ProcessInitialize], in real arithmetic *)

Lemma Recalculate_NTones (e : EffectDtmf) :
  dtmfNTones (mSettings (Recalculate e))
  = Z.of_nat (String.length (dtmfSequence (mSettings e))) /\
  dtmfSequence (mSettings (Recalculate e)) = dtmfSequence (mSettings e) /\
  dtmfDutyCycle (mSettings (Recalculate e)) = dtmfDutyCycle (mSettings e) /\
  dtmfAmplitude (mSettings (Recalculate e)) = dtmfAmplitude (mSettings e) /\
  mT0 (Recalculate e) = mT0 e /\
  mSampleRate (Recalculate e) = mSampleRate e /\
  mCursor (Recalculate e) = mCursor e.
Proof.
  unfold Recalculate.
  destruct (Z.of_nat (String.length (dtmfSequence (mSettings e))) =? 0);
    [|destruct (Z.of_nat (String.length (dtmfSequence (mSettings e))) =? 1)];
    simpl; repeat split.
Qed.

Lemma Recalculate_slots_fill (e : EffectDtmf) :
  duty_cycle_in_range e ->
  1 <= dtmfNTones (mSettings (Recalculate e)) ->
  slots_fill (Recalculate e).
Proof.
  unfold duty_cycle_in_range, MIN_DutyCycle, MAX_DutyCycle, slots_fill.
  intros Hdc HN.
  destruct (Recalculate_NTones e) as (EN & _). rewrite EN in HN.
  unfold Recalculate, GetDuration.
  set (n := Z.of_nat (String.length (dtmfSequence (mSettings e)))) in *.
  destruct (n =? 0) eqn:E0; [apply Z.eqb_eq in E0; lia|].
  destruct (n =? 1) eqn:E1; simpl.
  - apply Z.eqb_eq in E1. rewrite E1. lra.
  - apply Z.eqb_neq in E1.
    assert (Hn : (2 <= IZR n)%R) by (apply IZR_le; lia).
    field. lra.
Qed.

Lemma ProcessInitialize_filled (fuel : nat) (e : EffectDtmf) :
  1 <= dtmfNTones (mSettings e) -> slots_fill e ->
  ProcessInitialize fuel e
  = Done (true, with_cursor (init_cursor (nominal_total e) (nominal_slots e)
                                         (mCursor e)) e)
  /\ 0 <= slotDiff (nominal_slots e) <= 2 * dtmfNTones (mSettings e) - 1.
Proof.
  intros HN Hfill.
  assert (Hd : 0 <= slotDiff (nominal_slots e)
               <= 2 * dtmfNTones (mSettings e) - 1).
  { unfold nominal_slots, nominal_total. cbn [slotDiff].
    replace ((mT0 e + GetDuration e) * mSampleRate e + 0.5)%R
      with ((mT0 e * mSampleRate e + 0.5)
            + GetDuration e * mSampleRate e)%R by ring.
    apply floor_remainder; [exact HN|].
    unfold slots_fill in Hfill. rewrite <- Hfill. ring. }
  split; [|exact Hd].
  unfold ProcessInitialize.
  destruct (dtmfNTones (mSettings e) <=? 0) eqn:E;
    [apply Z.leb_le in E; lia|].
  unfold redistribute.
  change (mkSlots (Zfloor (dtmfTone (mSettings e) * mSampleRate e))
            (Zfloor (dtmfSilence (mSettings e) * mSampleRate e))
            (diff_of
               (Zfloor ((mT0 e + GetDuration e) * mSampleRate e + 0.5)
                - Zfloor (mT0 e * mSampleRate e + 0.5))
               (dtmfNTones (mSettings e))
               (Zfloor (dtmfTone (mSettings e) * mSampleRate e))
               (Zfloor (dtmfSilence (mSettings e) * mSampleRate e))))
    with (nominal_slots e).
  rewrite spread_idle by lia. reflexivity.
Qed.


Lemma Recalculate_single_fill (e : EffectDtmf) :
  dtmfNTones (mSettings (Recalculate e)) = 1 -> slots_fill (Recalculate e).
Proof.
  destruct (Recalculate_NTones e) as (EN & _). rewrite EN.
  unfold slots_fill, Recalculate, GetDuration. intros H1. rewrite H1.
  simpl. lra.
Qed.

(** ** What [ProcessInitialize] leaves *)

(** Whatever the loop returns satisfies its exit condition, and the
    remainder it leaves is the remainder of the slot lengths it leaves. *)
Lemma spread_exit (fuel : nat) (T N : Z) : forall (st st' : Slots),
  slotDiff st = diff_of T N (slotTone st) (slotSilence st) ->
  spread fuel T N st = Done st' ->
  slotDiff st' <= 2 * N - 1 /\
  slotDiff st' = diff_of T N (slotTone st') (slotSilence st').
Proof.
  assert (Hstop : forall st st' : Slots,
            slotDiff st = diff_of T N (slotTone st) (slotSilence st) ->
            (slotDiff st >? 2 * N - 1) = false ->
            Done st = Done st' ->
            slotDiff st' <= 2 * N - 1 /\
            slotDiff st' = diff_of T N (slotTone st') (slotSilence st')).
  { intros st st' Hd E H. injection H as <-.
    rewrite Z.gtb_ltb in E. apply Z.ltb_ge in E. split; [lia | exact Hd]. }
  induction fuel as [|fuel IH]; intros st st' Hd H; cbn [spread] in H;
    destruct (slotDiff st >? 2 * N - 1) eqn:E;
    try discriminate; try (apply (Hstop st st' Hd E H)).
  destruct (cdiv (slotDiff st) N) as [qt|]; [|discriminate].
  destruct (cdiv (slotDiff st) (N - 1)) as [qs|]; [|discriminate].
  apply IH in H; [exact H | reflexivity].
Qed.

Lemma ProcessInitialize_unfold (fuel : nat) (e : EffectDtmf) :
  1 <= dtmfNTones (mSettings e) ->
  ProcessInitialize fuel e
  = match spread fuel (nominal_total e) (dtmfNTones (mSettings e))
                 (nominal_slots e) with
    | Done st =>
        Done (true, with_cursor (init_cursor (nominal_total e) st (mCursor e)) e)
    | Crash => Crash
    | OutOfFuel => OutOfFuel
    end.
Proof.
  intros HN. unfold ProcessInitialize.
  destruct (dtmfNTones (mSettings e) <=? 0) eqn:E;
    [apply Z.leb_le in E; lia|].
  reflexivity.
Qed.

(** A successful call has a tone count of at least 1 and leaves the
    cursor of [init_cursor] on slot lengths that satisfy the exit
    condition of the loop, whatever the floors were. *)
Lemma ProcessInitialize_leaves (fuel : nat) (e e1 : EffectDtmf) :
  ProcessInitialize fuel e = Done (true, e1) ->
  1 <= dtmfNTones (mSettings e) /\
  exists T st,
    e1 = with_cursor (init_cursor T st (mCursor e)) e /\
    slotDiff st <= 2 * dtmfNTones (mSettings e) - 1 /\
    slotDiff st
    = diff_of T (dtmfNTones (mSettings e)) (slotTone st) (slotSilence st).
Proof.
  intros H.
  assert (HN : 1 <= dtmfNTones (mSettings e)).
  { unfold ProcessInitialize in H.
    destruct (dtmfNTones (mSettings e) <=? 0) eqn:E; [discriminate|].
    apply Z.leb_gt in E. lia. }
  split; [exact HN|].
  rewrite ProcessInitialize_unfold in H by exact HN.
  destruct (spread fuel (nominal_total e) (dtmfNTones (mSettings e))
                   (nominal_slots e)) as [st| |] eqn:Er; try discriminate.
  injection H as <-. exists (nominal_total e), st.
  split; [reflexivity|].
  apply (spread_exit fuel (nominal_total e) (dtmfNTones (mSettings e))
           (nominal_slots e) st eq_refl Er).
Qed.

Lemma ProcessInitialize_leaves_binary64 (fuel : nat)
      (e e1 : Binary64.EffectDtmf) :
  Binary64.ProcessInitialize fuel e = Done (true, e1) ->
  1 <= Binary64.dtmfNTones (Binary64.mSettings e) /\
  exists T st,
    e1 = Binary64.with_cursor (init_cursor T st (Binary64.mCursor e)) e /\
    slotDiff st <= 2 * Binary64.dtmfNTones (Binary64.mSettings e) - 1 /\
    slotDiff st
    = diff_of T (Binary64.dtmfNTones (Binary64.mSettings e))
              (slotTone st) (slotSilence st).
Proof.
  unfold Binary64.ProcessInitialize. intros H.
  destruct (Binary64.dtmfNTones (Binary64.mSettings e) <=? 0) eqn:E;
    [discriminate|].
  apply Z.leb_gt in E. split; [lia|].
  destruct (Binary64.floor _) as [nT0|]; [|discriminate].
  destruct (Binary64.floor _) as [nT1|]; [|discriminate].
  destruct (Binary64.floor _) as [t|]; [|discriminate].
  destruct (Binary64.floor _) as [sl|]; [|discriminate].
  destruct (redistribute fuel (nT1 - nT0)
              (Binary64.dtmfNTones (Binary64.mSettings e)) t sl)
    as [st| |] eqn:Er; try discriminate.
  injection H as <-. exists (nT1 - nT0), st.
  split; [reflexivity|].
  apply (spread_exit fuel (nT1 - nT0)
           (Binary64.dtmfNTones (Binary64.mSettings e))
           (mkSlots t sl
              (diff_of (nT1 - nT0)
                 (Binary64.dtmfNTones (Binary64.mSettings e)) t sl))
           st eq_refl Er).
Qed.

(** The fields of the cursor of [init_cursor], and what its [2N - 1]
    segments hold. *)
Lemma init_cursor_shape (N T : Z) (st : Slots) (old : Cursor) :
  1 <= N ->
  slotDiff st <= 2 * N - 1 ->
  slotDiff st = diff_of T N (slotTone st) (slotSilence st) ->
  let c := init_cursor T st old in
  curSeqPos c = -1 /\ isTone c = false /\ numRemaining c = 0 /\
  curTonePos c = curTonePos old /\
  diff c = numSamplesSequence c - N * numSamplesTone c
           - (N - 1) * numSamplesSilence c /\
  diff c <= 2 * N - 1 /\
  zsum (segment_lengths (Z.to_nat (2 * N - 1)) c)
  = numSamplesSequence c - Z.min 0 (diff c).
Proof.
  intros HN Hle Hd c. subst c.
  rewrite (segments_total T N st old HN Hd Hle).
  cbn [init_cursor curSeqPos isTone numRemaining curTonePos diff
       numSamplesSequence numSamplesTone numSamplesSilence].
  unfold diff_of in Hd. repeat split; lia.
Qed.

(** All [2N - 1] segments are still to come, and they hold at least the
    total. *)
Lemma init_cursor_ok (N T : Z) (st : Slots) (old : Cursor) :
  1 <= N -> 0 <= slotTone st -> 0 <= slotSilence st ->
  slotDiff st <= 2 * N - 1 ->
  slotDiff st = diff_of T N (slotTone st) (slotSilence st) ->
  cursor_ok N (Z.to_nat (2 * N - 1)) (init_cursor T st old) /\
  capacity (Z.to_nat (2 * N - 1)) (init_cursor T st old)
  = T - Z.min 0 (slotDiff st).
Proof.
  intros HN Ht Hs Hle Hd. split.
  - unfold cursor_ok, init_cursor.
    cbn [numSamplesTone numSamplesSilence numRemaining curSeqPos isTone].
    repeat split; lia.
  - unfold capacity. rewrite (segments_total T N st old HN Hd Hle).
    cbn [init_cursor numRemaining]. lia.
Qed.

Lemma stale_pair_slots :
  nominal_slots stale_pair_effect = mkSlots 0 0 8000.
Proof.
  unfold nominal_slots, nominal_total, diff_of, GetDuration. simpl.
  rewrite (Zfloor_eq 8000 ((0 + 1) * 8000 + 0.5)) by lra.
  rewrite (Zfloor_eq 0 (0 * 8000 + 0.5)) by lra.
  rewrite (Zfloor_eq 0 (0 * 8000)) by lra.
  reflexivity.
Qed.

Lemma stale_pair_initialize :
  ProcessInitialize 1 stale_pair_effect = Done (true, stale_pair_initialized).
Proof.
  rewrite ProcessInitialize_unfold by (simpl; lia).
  rewrite stale_pair_slots.
  assert (E : nominal_total stale_pair_effect = 8000).
  { unfold nominal_total, GetDuration. simpl.
    rewrite (Zfloor_eq 8000 ((0 + 1) * 8000 + 0.5)) by lra.
    rewrite (Zfloor_eq 0 (0 * 8000 + 0.5)) by lra.
    reflexivity. }
  rewrite E. reflexivity.
Qed.

(** ** Rounding in the binary64 computation *)

(** C5: the second half of the claim fails on the code.  For one tone of
    0.7 s that starts 0.175 s into a track of 44100 Hz, Recalculate gives
    a tone count of 1, and the products of lines 124-130, each rounded to
    a double, give numSamplesSequence = 30871 and numSamplesTone = 30869:
    diff = 2 exceeds 2N - 1 = 1, the loop is entered, and its body
    divides by dtmfNTones - 1 = 0.  The call does not return true. *)
Theorem single_tone_division_by_zero :
  let e := Binary64.Recalculate Binary64.long_single_tone in
  Binary64.dtmfNTones (Binary64.mSettings e) = 1 /\
  Binary64.nominal_total e = Some 30871 /\
  Binary64.nominal_slots e = Some (mkSlots 30869 0 2) /\
  cdiv 2 (Binary64.dtmfNTones (Binary64.mSettings e) - 1) = None /\
  Binary64.ProcessInitialize 0 e = OutOfFuel /\
  forall fuel, Binary64.ProcessInitialize (S fuel) e = Crash.
Proof.
  cbv zeta. repeat split; intros; vm_compute; reflexivity.
Qed.

(** C1: the claim fails on the code.  For one tone of 1 s that starts
    0.005 s into a track of 44100 Hz the rounded products give
    numSamplesSequence = 44099 and numSamplesTone = 44100: diff = -1,
    against the code's own assertion, and the one segment holds 44100
    samples.  For two tones at duty cycle 8 over 0.21 s starting at
    0.175 s they give numSamplesSequence = 9262 and slot lengths 685 and
    7888: diff = 4 exceeds 2N - 1 = 3, one pass of the loop makes the
    slots 687 and 7892 long, and the three segments hold 9266 samples. *)
Theorem segment_sum_misses_total :
  (exists e',
     (forall fuel,
        Binary64.ProcessInitialize fuel
          (Binary64.Recalculate Binary64.one_second_tone) = Done (true, e')) /\
     Binary64.mCursor e' = mkCursor 44099 44100 0 (-1) (-1) false 0 0 /\
     ~ assert_diff_nonneg (mkSlots 44100 0 (diff (Binary64.mCursor e'))) /\
     segment_lengths 1 (Binary64.mCursor e') = [44100] /\
     zsum (segment_lengths 1 (Binary64.mCursor e'))
     <> numSamplesSequence (Binary64.mCursor e')) /\
  (exists e',
     Binary64.nominal_slots (Binary64.Recalculate Binary64.short_pair)
     = Some (mkSlots 685 7888 4) /\
     (forall fuel,
        Binary64.ProcessInitialize (S fuel)
          (Binary64.Recalculate Binary64.short_pair) = Done (true, e')) /\
     Binary64.mCursor e' = mkCursor 9262 687 7892 (-4) (-1) false 0 0 /\
     segment_lengths 3 (Binary64.mCursor e') = [687; 7892; 687] /\
     zsum (segment_lengths 3 (Binary64.mCursor e')) = 9266 /\
     numSamplesSequence (Binary64.mCursor e') = 9262).
Proof.
  split.
  - exists (Binary64.with_cursor
              (mkCursor 44099 44100 0 (-1) (-1) false 0 0)
              (Binary64.Recalculate Binary64.one_second_tone)).
    split; [|split; [|split; [|split]]].
    + intros fuel. destruct fuel; vm_compute; reflexivity.
    + reflexivity.
    + unfold assert_diff_nonneg. simpl. lia.
    + reflexivity.
    + simpl. lia.
  - exists (Binary64.with_cursor
              (mkCursor 9262 687 7892 (-4) (-1) false 0 0)
              (Binary64.Recalculate Binary64.short_pair)).
    split; [vm_compute; reflexivity|].
    split; [|split; [|split; [|split]]].
    + intros fuel. destruct fuel; vm_compute; reflexivity.
    + reflexivity.
    + reflexivity.
    + reflexivity.
    + reflexivity.
Qed.

(** The branch of [Recalculate] for two tones or more. *)
Lemma Recalculate_general (e : EffectDtmf) :
  let n := Z.of_nat (String.length (dtmfSequence (mSettings e))) in
  let p := (dtmfDutyCycle (mSettings e) / 100)%R in
  let slot := (GetDuration e / (IZR n + p - 1))%R in
  2 <= n ->
  dtmfNTones (mSettings (Recalculate e)) = n /\
  dtmfTone (mSettings (Recalculate e)) = (slot * p)%R /\
  dtmfSilence (mSettings (Recalculate e)) = (slot * (1 - p))%R.
Proof.
  intros n p slot Hn. unfold Recalculate. fold n.
  destruct (Z.eqb_spec n 0) as [E0 | E0]; [lia|].
  destruct (Z.eqb_spec n 1) as [E1 | E1]; [lia|].
  simpl. repeat split.
Qed.

(** C6: Recalculate sets the tone count to the sequence length; with no
    tone the duration, dtmfTone and dtmfSilence become 0; with one tone
    dtmfTone is the whole duration and dtmfSilence is 0; otherwise
    dtmfTone = slot * (dutyCycle/100) and
    dtmfSilence = slot * (1 - dutyCycle/100) with
    slot = duration / (N + dutyCycle/100 - 1). *)
Theorem Recalculate_establishes (e : EffectDtmf) :
  let n := Z.of_nat (String.length (dtmfSequence (mSettings e))) in
  let s' := mSettings (Recalculate e) in
  let p := (dtmfDutyCycle (mSettings e) / 100)%R in
  dtmfNTones s' = n /\
  (n = 0 ->
   GetDuration (Recalculate e) = 0%R /\
   dtmfTone s' = 0%R /\ dtmfSilence s' = 0%R) /\
  (n = 1 ->
   GetDuration (Recalculate e) = GetDuration e /\
   dtmfTone s' = GetDuration e /\ dtmfSilence s' = 0%R) /\
  (n <> 0 -> n <> 1 ->
   let slot := (GetDuration e / (IZR n + p - 1))%R in
   GetDuration (Recalculate e) = GetDuration e /\
   dtmfTone s' = (slot * p)%R /\ dtmfSilence s' = (slot * (1 - p))%R).
Proof.
  intros n s' p. subst s'. unfold Recalculate. fold n.
  destruct (Z.eqb_spec n 0) as [E0 | E0];
    [|destruct (Z.eqb_spec n 1) as [E1 | E1]];
    simpl; repeat split; intros; try lia; try reflexivity.
Qed.

Lemma Recalculate_establishes_witness :
  dtmfNTones (mSettings (Recalculate example_effect)) = 3 /\
  GetDuration (Recalculate example_effect) = 3%R /\
  dtmfTone (mSettings (Recalculate example_effect))
  = (3 / (3 + 50 / 100 - 1) * (50 / 100))%R /\
  dtmfSilence (mSettings (Recalculate example_effect))
  = (3 / (3 + 50 / 100 - 1) * (1 - 50 / 100))%R.
Proof.
  destruct (Recalculate_establishes example_effect) as (HN & _ & _ & H).
  split; [exact HN|].
  apply H; simpl; lia.
Defined.

Lemma Zfloor_zero_times (x : R) : Zfloor (0 * x) = 0.
Proof. rewrite Rmult_0_l. apply (ZfloorZ 0). Qed.


(** ** [SetAutomationParameters] *)

Lemma symbols_alphabet (c : ascii) : mem_char c symbols = in_alphabet c.
Proof.
  destruct c as [[] [] [] [] [] [] [] []]; vm_compute; reflexivity.
Qed.

Lemma find_first_not_of_none (s chars : string) :
  find_first_not_of s chars = None
  <-> string_forall (fun c => mem_char c chars) s = true.
Proof.
  induction s as [|c s IH]; simpl; [tauto|].
  destruct (mem_char c chars); simpl.
  - destruct (find_first_not_of s chars); simpl.
    + split; [discriminate|]. intros H. apply IH in H. discriminate.
    + split; [intros _; apply IH; reflexivity | reflexivity].
  - split; discriminate.
Qed.

Lemma string_forall_ext (f g : ascii -> bool) (s : string) :
  (forall c, f c = g c) -> string_forall f s = string_forall g s.
Proof.
  intros H. induction s as [|c s IH]; simpl; [reflexivity|].
  rewrite H, IH. reflexivity.
Qed.

Lemma ReadAndVerifyDouble_ok (v : option R) (def lo hi : R) :
  verifies (read_or v def) lo hi ->
  ReadAndVerifyDouble v def lo hi = Some (read_or v def).
Proof.
  unfold verifies, ReadAndVerifyDouble. intros [H1 H2]. cbv zeta.
  destruct (Rle_dec lo (read_or v def)); [|contradiction].
  destruct (Rle_dec (read_or v def) hi); [|contradiction]. reflexivity.
Qed.

(** C9: SetAutomationParameters returns false for every incoming sequence
    holding a character outside the alphabet, and then the effect (so
    dtmfSequence, dtmfDutyCycle and dtmfAmplitude) is as before; when the
    two numbers verify and the sequence is within the alphabet it stores
    the three values, applies Recalculate and returns true. *)
Theorem SetAutomationParameters_checks
        (DefaultSequence : string) (DefaultDutyCycle DefaultAmplitude : R)
        (parms : CommandParameters) (e : EffectDtmf) :
  let Sequence := read_or (parmSequence parms) DefaultSequence in
  let DutyCycle := read_or (parmDutyCycle parms) DefaultDutyCycle in
  let Amplitude := read_or (parmAmplitude parms) DefaultAmplitude in
  let run := SetAutomationParameters DefaultSequence DefaultDutyCycle
                                     DefaultAmplitude parms e in
  (string_forall in_alphabet Sequence = false -> run = (false, e)) /\
  (fst run = false -> snd run = e) /\
  (verifies DutyCycle MIN_DutyCycle MAX_DutyCycle ->
   verifies Amplitude MIN_Amplitude MAX_Amplitude ->
   string_forall in_alphabet Sequence = true ->
   run = (true,
          Recalculate
            (with_settings
               (mkSettings Sequence (dtmfNTones (mSettings e))
                           (dtmfTone (mSettings e))
                           (dtmfSilence (mSettings e)) DutyCycle Amplitude)
               e))).
Proof.
  intros Sequence DutyCycle Amplitude run.
  assert (Hseq : forall b, string_forall in_alphabet Sequence = b ->
            (find_first_not_of Sequence symbols = None <-> b = true)).
  { intros b Hb. rewrite find_first_not_of_none.
    rewrite (string_forall_ext _ in_alphabet) by apply symbols_alphabet.
    rewrite Hb. tauto. }
  subst run. unfold SetAutomationParameters, ReadAndVerifyString.
  fold Sequence. split; [|split].
  - intros Hbad.
    destruct (ReadAndVerifyDouble (parmDutyCycle parms) _ _ _);
      [|reflexivity].
    destruct (ReadAndVerifyDouble (parmAmplitude parms) _ _ _);
      [|reflexivity].
    destruct (Hseq false Hbad) as [Hnone _].
    destruct (find_first_not_of Sequence symbols); [reflexivity|].
    discriminate (Hnone eq_refl).
  - destruct (ReadAndVerifyDouble (parmDutyCycle parms) _ _ _);
      [|reflexivity].
    destruct (ReadAndVerifyDouble (parmAmplitude parms) _ _ _);
      [|reflexivity].
    destruct (find_first_not_of Sequence symbols); [reflexivity|].
    simpl. discriminate.
  - intros Hd Ha Hgood.
    rewrite (ReadAndVerifyDouble_ok _ _ _ _ Hd).
    rewrite (ReadAndVerifyDouble_ok _ _ _ _ Ha).
    destruct (Hseq true Hgood) as [_ Hnone].
    rewrite (Hnone eq_refl). reflexivity.
Qed.

Lemma SetAutomationParameters_checks_witness :
  SetAutomationParameters "audacity" 55 0.8
    (mkParms (Some 50%R) None (Some "12E"%string)) example_effect
  = (false, example_effect) /\
  SetAutomationParameters "audacity" 55 0.8
    (mkParms (Some 50%R) None (Some "12#"%string)) example_effect
  = (true,
     Recalculate
       (with_settings (mkSettings "12#" 0 0 0 50 0.8) example_effect)).
Proof.
  split.
  - apply (SetAutomationParameters_checks "audacity" 55 0.8
             (mkParms (Some 50%R) None (Some "12E"%string)) example_effect).
    reflexivity.
  - apply (SetAutomationParameters_checks "audacity" 55 0.8
             (mkParms (Some 50%R) None (Some "12#"%string)) example_effect).
    + unfold verifies, MIN_DutyCycle, MAX_DutyCycle. simpl. lra.
    + unfold verifies, MIN_Amplitude, MAX_Amplitude. simpl. lra.
    + reflexivity.
Defined.

(** ** Buffer writes of the fade loops *)

Lemma scale_at_spec (m : R) : forall (b : list R) (i : nat),
  (i < List.length b)%nat ->
  exists b', scale_at b i m = Some b' /\ List.length b' = List.length b /\
    forall j, nth j b' 0%R
              = if Nat.eqb j i then (nth j b 0 * m)%R else nth j b 0%R.
Proof.
  induction b as [|x b IH]; intros i Hi; simpl in Hi; [lia|].
  destruct i as [|i]; simpl.
  - eexists; split; [reflexivity|]. split; [reflexivity|].
    intros [|j]; reflexivity.
  - destruct (IH i ltac:(lia)) as (b' & E & Hl & Hn). rewrite E.
    eexists; split; [reflexivity|]. split; [simpl; lia|].
    intros [|j]; simpl; [reflexivity | apply Hn].
Qed.

Lemma scale_at_outside (m : R) : forall (b : list R) (i : nat),
  (List.length b <= i)%nat -> scale_at b i m = None.
Proof.
  induction b as [|x b IH]; intros i Hi; simpl; [reflexivity|].
  simpl in Hi. destruct i as [|i]; [lia|].
  rewrite IH by lia. reflexivity.
Qed.

(** The loop over [i = a, ..., a + k - 1] scales the entries at
    [i + offset], each once, when they all lie in the buffer. *)
Lemma fade_loop_spec (offset : nat) (m : nat -> R) (k : nat) :
  forall (a : nat) (b : list R),
  (k = 0 \/ a + k + offset <= List.length b)%nat ->
  exists b', fade_loop (seq a k) offset m b = Some b' /\
    List.length b' = List.length b /\
    forall j, nth j b' 0%R
      = if (a + offset <=? j)%nat && (j <? a + offset + k)%nat
        then (nth j b 0 * m (j - offset)%nat)%R else nth j b 0%R.
Proof.
  induction k as [|k IH]; intros a b Hk.
  - exists b. split; [reflexivity|]. split; [reflexivity|].
    intros j. destruct (a + offset <=? j)%nat eqn:E1; simpl; [|reflexivity].
    destruct (j <? a + offset + 0)%nat eqn:E2; [|reflexivity].
    apply Nat.leb_le in E1. apply Nat.ltb_lt in E2. lia.
  - destruct Hk as [Hk | Hk]; [discriminate|].
    cbn [seq fade_loop].
    destruct (scale_at_spec (m a) b (a + offset) ltac:(lia))
      as (b1 & E1 & L1 & N1).
    rewrite E1.
    destruct (IH (S a) b1 ltac:(right; lia)) as (b2 & E2 & L2 & N2).
    exists b2. split; [exact E2|]. split; [lia|].
    intros j. rewrite N2, N1.
    destruct (Nat.leb_spec (S a + offset) j);
      destruct (Nat.ltb_spec j (S a + offset + k));
      destruct (Nat.leb_spec (a + offset) j);
      destruct (Nat.ltb_spec j (a + offset + S k));
      destruct (Nat.eqb_spec j (a + offset));
      cbn [andb]; try lia; try reflexivity.
    replace (j - offset)%nat with a by lia. reflexivity.
Qed.

Lemma fade_loop_zero (offset : nat) (m : nat -> R) :
  forall (its : list nat) (b b' : list R),
  fade_loop its offset m b = Some b' ->
  (forall j, nth j b 0%R = 0%R) -> forall j, nth j b' 0%R = 0%R.
Proof.
  induction its as [|i its IH]; intros b b' H Hz j; simpl in H.
  - injection H as <-. apply Hz.
  - destruct (scale_at b (i + offset) (m i)) as [b1|] eqn:E; [|discriminate].
    apply (IH b1 b' H). intros j'.
    destruct (Nat.lt_ge_cases (i + offset) (List.length b)) as [Hlt | Hge].
    + destruct (scale_at_spec (m i) b (i + offset) Hlt) as (b2 & E2 & _ & N2).
      rewrite E in E2. injection E2 as <-. rewrite N2.
      destruct (Nat.eqb j' (i + offset)); rewrite Hz; lra.
    + rewrite scale_at_outside in E by lia. discriminate.
Qed.

(** ** Fade windows of [MakeDtmfTone] *)

Lemma wxMin_bounds (a b : R) : (wxMin a b <= a /\ wxMin a b <= b)%R.
Proof. unfold wxMin. destruct (Rlt_dec a b); lra. Qed.

Lemma Zceil_IZR (z : Z) : Zceil (IZR z) = z.
Proof. apply Zceil_eq. lra. Qed.

Lemma iters_below_length (A : R) :
  List.length (iters_below A) = Z.to_nat (Zceil A).
Proof. unfold iters_below. apply length_seq. Qed.

(** The loop variable takes exactly the values [i] with [i < A]. *)
Lemma iters_below_In (A : R) (i : nat) :
  In i (iters_below A) <-> (INR i < A)%R.
Proof.
  unfold iters_below. rewrite in_seq, INR_IZR_INZ.
  pose proof (Zceil_bound A) as [H1 H2].
  split.
  - intros [_ H].
    assert (Hz : Z.of_nat i <= Zceil A - 1) by lia.
    apply IZR_le in Hz. rewrite minus_IZR in Hz. lra.
  - intros H. split; [lia|].
    assert (Hz : Z.of_nat i < Zceil A) by (apply lt_IZR; lra). lia.
Qed.

Lemma fade_width_le_len (len : nat) (fs : R) :
  (fade_width len fs <= INR len)%R.
Proof. apply wxMin_bounds. Qed.

(** The fade windows never exceed [len] samples. *)
Lemma fade_count_le_len (len : nat) (fs : R) :
  (List.length (iters_below (fade_width len fs)) <= len)%nat.
Proof.
  rewrite iters_below_length.
  pose proof (Zceil_le _ _ (fade_width_le_len len fs)) as H.
  rewrite INR_IZR_INZ, Zceil_IZR in H. lia.
Qed.

(** The fade-out starts where [len] minus the window begins; together
    with the window it ends at [len]. *)
Lemma fade_offset_plus_count (len : nat) (fs : R) :
  (0 <= Zceil (fade_width len fs)) ->
  (fade_offset len fs + List.length (iters_below (fade_width len fs))
   = len)%nat.
Proof.
  intros H0. rewrite iters_below_length.
  unfold fade_offset, to_size_t.
  pose proof (fade_width_le_len len fs) as Hle.
  destruct (Rle_dec 0 (INR len - fade_width len fs)) as [_ | Hn]; [|lra].
  replace (INR len - fade_width len fs)%R
    with (- fade_width len fs + IZR (Z.of_nat len))%R
    by (rewrite INR_IZR_INZ; ring).
  rewrite Zfloor_addz, ZfloorN.
  pose proof (Zceil_le _ _ Hle) as H.
  rewrite INR_IZR_INZ, Zceil_IZR in H. lia.
Qed.

Lemma fade_loop_in_range (len : nat) (fs : R) (offset : nat) :
  offset = 0%nat \/ offset = fade_offset len fs ->
  let k := List.length (iters_below (fade_width len fs)) in
  (k = 0 \/ 0 + k + offset <= len)%nat.
Proof.
  intros Ho k.
  destruct (Z_lt_le_dec (Zceil (fade_width len fs)) 0) as [Hneg | Hpos].
  - left. subst k. rewrite iters_below_length. lia.
  - right. destruct Ho as [-> | ->].
    + pose proof (fade_count_le_len len fs). subst k. lia.
    + pose proof (fade_offset_plus_count len fs Hpos). subst k. lia.
Qed.

Lemma tone_wave_length (len : nat) (fs : R) (tone : ascii) (last : Z)
      (amplitude : R) :
  List.length (tone_wave len fs tone last amplitude) = len.
Proof. unfold tone_wave. rewrite length_map, length_seq. reflexivity. Qed.

Lemma tone_wave_nth (len : nat) (fs : R) (tone : ascii) (last : Z)
      (amplitude : R) (i : nat) :
  (i < len)%nat ->
  nth i (tone_wave len fs tone last amplitude) 0%R
  = wave_sample fs tone amplitude (Z.of_nat i + last).
Proof.
  intros Hi. unfold tone_wave.
  set (f := fun i0 : nat => _).
  rewrite (nth_indep _ 0%R (f 0%nat))
    by (rewrite length_map, length_seq; exact Hi).
  rewrite map_nth, seq_nth by exact Hi. reflexivity.
Qed.

(** Every write of a call stays inside [buffer[0 .. len)], and the
    sample left at [j] is the plain wave times the two fade factors. *)
Lemma MakeDtmfTone_spec (len : nat) (fs : R) (tone : ascii)
      (last total : Z) (amplitude : R) :
  exists out,
    MakeDtmfTone len fs tone last total amplitude = Some out /\
    List.length out = len /\
    forall j, nth j out 0%R
      = (nth j (tone_wave len fs tone last amplitude) 0
         * fade_in_gain len fs last j
         * fade_out_gain len fs last total j)%R.
Proof.
  unfold MakeDtmfTone.
  pose proof (tone_wave_length len fs tone last amplitude) as Lw.
  set (w := tone_wave len fs tone last amplitude) in *.
  assert (Hin : exists b, fade_in len fs last w = Some b /\
            List.length b = len /\
            forall j, nth j b 0%R
                      = (nth j w 0 * fade_in_gain len fs last j)%R).
  { unfold fade_in, fade_in_gain. fold (fade_width len fs).
    destruct (last =? 0); cbn [andb].
    - destruct (fade_loop_spec 0 (fun i => (INR i / fade_width len fs)%R)
                  (Z.to_nat (Zceil (fade_width len fs))) 0 w) as
          (b & E & L & Hn).
      { rewrite <- iters_below_length, Lw.
        apply (fade_loop_in_range len fs 0). left; reflexivity. }
      exists b. split; [exact E|]. split; [lia|].
      intros j. rewrite Hn, iters_below_length.
      rewrite Nat.add_0_r, Nat.sub_0_r. cbn [Nat.add Nat.leb andb].
      destruct (j <? Z.to_nat (Zceil (fade_width len fs)))%nat;
        [reflexivity | ring].
    - exists w. split; [reflexivity|]. split; [exact Lw|].
      intros j. lra. }
  destruct Hin as (b & Eb & Lb & Hb). rewrite Eb.
  unfold fade_out, fade_out_gain.
  fold (fade_width len fs). fold (fade_offset len fs).
  destruct (last >=? total - Z.of_nat len); cbn [andb].
  - destruct (fade_loop_spec (fade_offset len fs)
                (fun i => (1 - INR i / fade_width len fs)%R)
                (Z.to_nat (Zceil (fade_width len fs))) 0 b) as
        (o & E & L & Hn).
    { rewrite <- iters_below_length, Lb.
      apply (fade_loop_in_range len fs). right; reflexivity. }
    exists o. split; [exact E|]. split; [lia|].
    intros j. rewrite Hn, Hb, iters_below_length. cbn [Nat.add].
    destruct ((fade_offset len fs <=? j)%nat
              && (j <? fade_offset len fs
                       + Z.to_nat (Zceil (fade_width len fs)))%nat);
      ring.
  - exists b. split; [reflexivity|]. split; [exact Lb|].
    intros j. rewrite Hb. ring.
Qed.

(** ** The synthesized wave *)

(** The two [switch] statements agree with the keypad table. *)
Lemma switches_match_keypad (c : ascii) :
  (low_tone c, high_tone c) = tone_frequencies c.
Proof.
  destruct c as [[] [] [] [] [] [] [] []]; reflexivity.
Qed.

Lemma wave_sample_formula (fs : R) (tone : ascii) (amplitude : R) (n : Z) :
  wave_sample fs tone amplitude n
  = (amplitude * 0.5 *
     (sin (2 * PI * fst (tone_frequencies tone) * IZR n / fs) +
      sin (2 * PI * snd (tone_frequencies tone) * IZR n / fs)))%R.
Proof.
  rewrite <- switches_match_keypad. cbn [fst snd]. unfold wave_sample.
  f_equal. f_equal; f_equal; unfold Rdiv; ring.
Qed.

(** C3: a call returns a buffer of len samples, and sample i is
    amplitude * 0.5 * (sin(2 pi f_low (i+last)/fs)
                       + sin(2 pi f_high (i+last)/fs))
    times the factors of the two fades, with (f_low, f_high) read from
    the keypad table, which the two switch statements follow on every
    character; before the fades (the buffer after the loop of lines
    584-588), and in the buffer returned by a call that meets neither
    fade (last <> 0 and last < total - len), the sample is that value
    itself.  For a symbol that is not on the keypad both frequencies are
    0 and every sample the call leaves in the buffer is 0. *)
Theorem MakeDtmfTone_wave (len : nat) (fs : R) (tone : ascii)
        (last total : Z) (amplitude : R) :
  let f := tone_frequencies tone in
  let wave (i : nat) :=
    (amplitude * 0.5 *
     (sin (2 * PI * fst f * IZR (Z.of_nat i + last) / fs) +
      sin (2 * PI * snd f * IZR (Z.of_nat i + last) / fs)))%R in
  (low_tone tone, high_tone tone) = f /\
  (exists out,
     MakeDtmfTone len fs tone last total amplitude = Some out /\
     List.length out = len /\
     (forall i, (i < len)%nat ->
        nth i out 0%R
        = (wave i * fade_in_gain len fs last i
           * fade_out_gain len fs last total i)%R) /\
     (last <> 0 -> last < total - Z.of_nat len ->
      forall i, (i < len)%nat -> nth i out 0%R = wave i)) /\
  List.length (tone_wave len fs tone last amplitude) = len /\
  (forall i, (i < len)%nat ->
     nth i (tone_wave len fs tone last amplitude) 0%R = wave i) /\
  (keypad_lookup tone = None ->
   low_tone tone = 0%R /\ high_tone tone = 0%R /\
   Forall (fun x => x = 0%R) (tone_wave len fs tone last amplitude) /\
   exists out, MakeDtmfTone len fs tone last total amplitude = Some out /\
               List.length out = len /\ Forall (fun x => x = 0%R) out).
Proof.
  intros f wave.
  assert (Hwave : forall i, (i < len)%nat ->
            nth i (tone_wave len fs tone last amplitude) 0%R = wave i).
  { intros i Hi. rewrite tone_wave_nth by exact Hi.
    apply wave_sample_formula. }
  split; [apply switches_match_keypad|].
  split.
  { destruct (MakeDtmfTone_spec len fs tone last total amplitude)
      as (out & E & L & Hn).
    exists out. split; [exact E|]. split; [exact L|]. split.
    - intros i Hi. rewrite Hn, Hwave by exact Hi. reflexivity.
    - intros Hlast Hend i Hi. rewrite Hn, Hwave by exact Hi.
      unfold fade_in_gain, fade_out_gain.
      destruct (Z.eqb_spec last 0) as [E0 | _]; [contradiction|].
      assert (E1 : (last >=? total - Z.of_nat len) = false)
        by (rewrite Z.geb_leb; apply Z.leb_gt; lia).
      rewrite E1. cbn [andb]. ring. }
  split; [apply tone_wave_length|].
  split; [exact Hwave|].
  intros Hnone.
  pose proof (switches_match_keypad tone) as Hsw.
  unfold tone_frequencies in Hsw. rewrite Hnone in Hsw.
  injection Hsw as Hlow Hhigh.
  assert (Hw : forall j, nth j (tone_wave len fs tone last amplitude) 0%R
                         = 0%R).
  { intros j.
    destruct (Nat.lt_ge_cases j len) as [Hj | Hj].
    - rewrite tone_wave_nth by exact Hj. unfold wave_sample.
      rewrite Hlow, Hhigh, !Rmult_0_r, !Rmult_0_l, sin_0. ring.
    - apply nth_overflow. rewrite tone_wave_length. exact Hj. }
  split; [exact Hlow|]. split; [exact Hhigh|]. split.
  - apply Forall_nth. intros i d Hi.
    rewrite (nth_indep _ d 0%R Hi). apply Hw.
  - destruct (MakeDtmfTone_spec len fs tone last total amplitude)
      as (out & E & L & Hn).
    exists out. split; [exact E|]. split; [exact L|].
    apply Forall_nth. intros i d Hi.
    rewrite (nth_indep _ d 0%R Hi), Hn, Hw. ring.
Qed.

(** The key 5 (770 Hz and 1336 Hz) in the middle of a tone, and the
    letter E, which is on no key. *)
Lemma MakeDtmfTone_wave_witness :
  (low_tone "5", high_tone "5") = (770%R, 1336%R) /\
  (exists out,
     MakeDtmfTone 8 8000 "5" 100 1000 1 = Some out /\
     List.length out = 8%nat /\
     nth 3 out 0%R
     = (1 * 0.5 *
        (sin (2 * PI * 770 * IZR (Z.of_nat 3 + 100) / 8000) +
         sin (2 * PI * 1336 * IZR (Z.of_nat 3 + 100) / 8000)))%R) /\
  (exists out, MakeDtmfTone 8 8000 "E" 0 8 1 = Some out /\
               List.length out = 8%nat /\ Forall (fun x => x = 0%R) out).
Proof.
  destruct (MakeDtmfTone_wave 8 8000 "5" 100 1000 1)
    as (Hf & (out & E & L & _ & Hplain) & _).
  destruct (MakeDtmfTone_wave 8 8000 "E" 0 8 1) as (_ & _ & _ & _ & Hsilent).
  split; [exact Hf|]. split.
  - exists out. split; [exact E|]. split; [exact L|].
    apply (Hplain ltac:(lia) ltac:(simpl; lia) 3%nat). lia.
  - apply Hsilent. reflexivity.
Defined.

Lemma ratio_in_unit (x A : R) :
  (0 <= x < A)%R -> (0 <= x / A < 1)%R.
Proof.
  intros [H0 H1].
  assert (HA : (0 < A)%R) by lra.
  pose proof (Rinv_0_lt_compat A HA) as Hi.
  assert (E : (A * / A = 1)%R) by (apply Rinv_r; lra).
  unfold Rdiv. split; nra.
Qed.

Lemma fade_width_pos (len : nat) (fs : R) :
  (0 < len)%nat -> (0 < fs)%R -> (0 < fade_width len fs)%R.
Proof.
  intros Hl Hf. unfold fade_width, wxMin, kFadeInOut.
  destruct (Rlt_dec (INR len) (fs / 250)).
  - apply lt_0_INR. exact Hl.
  - lra.
Qed.

Lemma wave_sample_start (fs : R) (tone : ascii) (amplitude : R) :
  wave_sample fs tone amplitude 0 = 0%R.
Proof.
  unfold wave_sample. rewrite !Rmult_0_r, sin_0. ring.
Qed.

(** C8: in every call the fade width min(len, fs/250) is at most len, so
    the fade loops run at most len times and the fade-out offset
    len - min(len, fs/250) is not negative; every index written by either
    fade lies in [0, len) and every factor lies in [0, 1]; the call never
    writes outside buffer[0 .. len); and for last = 0 the factor of the
    fade-in at the first sample is 0 (positive sample rate) and the first
    sample left in the buffer is exactly 0. *)
Theorem fade_windows_bounded (len : nat) (fs : R) (tone : ascii)
        (last total : Z) (amplitude : R) :
  let A := fade_width len fs in
  let offset := fade_offset len fs in
  (A <= INR len /\ A <= fs / kFadeInOut)%R /\
  (List.length (iters_below A) <= len)%nat /\
  (0 <= INR len - A)%R /\
  (forall i, In i (iters_below A) ->
     (i < len)%nat /\ (i + offset < len)%nat /\
     (0 <= INR i / A <= 1)%R /\ (0 <= 1 - INR i / A <= 1)%R) /\
  (exists out, MakeDtmfTone len fs tone last total amplitude = Some out /\
               List.length out = len) /\
  (last = 0 -> (0 < len)%nat ->
   ((0 < fs)%R -> fade_in_gain len fs last 0 = 0%R) /\
   exists out, MakeDtmfTone len fs tone last total amplitude = Some out /\
               nth 0 out 1%R = 0%R).
Proof.
  intros A offset.
  pose proof (wxMin_bounds (INR len) (fs / kFadeInOut)) as HA.
  fold (fade_width len fs) in HA. fold A in HA.
  destruct (MakeDtmfTone_spec len fs tone last total amplitude)
    as (out & E & L & Hn).
  split; [exact HA|].
  split; [apply fade_count_le_len|].
  split; [lra|].
  split; [|split].
  - intros i Hi.
    pose proof Hi as Hlt. apply iters_below_In in Hlt.
    pose proof (pos_INR i) as Hi0.
    assert (Hil : (i < len)%nat) by (apply INR_lt; lra).
    assert (Hc : 0 <= Zceil A).
    { pose proof (Zceil_bound A) as [_ Hc].
      assert (H : -1 < Zceil A) by (apply lt_IZR; lra). lia. }
    pose proof (fade_offset_plus_count len fs Hc) as Hoff.
    fold offset in Hoff. fold A in Hoff.
    assert (Hik : (i < List.length (iters_below A))%nat).
    { unfold iters_below in Hi |- *. rewrite length_seq.
      apply in_seq in Hi. lia. }
    pose proof (ratio_in_unit (INR i) A ltac:(lra)) as Hr.
    repeat split; try lia; lra.
  - exists out. split; [exact E | exact L].
  - intros Hlast Hlen. split.
    + intros Hfs.
      pose proof (fade_width_pos len fs Hlen Hfs) as Hpos. fold A in Hpos.
      unfold fade_in_gain. fold A. rewrite Hlast. cbn [Z.eqb andb].
      assert (Hk : (0 < List.length (iters_below A))%nat).
      { rewrite iters_below_length.
        pose proof (Zceil_bound A) as [_ Hc].
        assert (H : 0 < Zceil A) by (apply lt_IZR; lra). lia. }
      destruct (Nat.ltb_spec 0 (List.length (iters_below A))); [|lia].
      simpl INR. unfold Rdiv. ring.
    + exists out. split; [exact E|].
      rewrite (nth_indep _ 1%R 0%R) by lia. rewrite Hn.
      rewrite tone_wave_nth by exact Hlen.
      rewrite Hlast. change (Z.of_nat 0 + 0) with 0.
      rewrite wave_sample_start. ring.
Qed.

Lemma fade_windows_bounded_witness :
  ((0 < 8000)%R -> fade_in_gain 8 8000 0 0 = 0%R) /\
  exists out, MakeDtmfTone 8 8000 "5" 0 8 1 = Some out /\
              nth 0 out 1%R = 0%R.
Proof.
  apply (fade_windows_bounded 8 8000 "5" 0 8 1); [reflexivity | lia].
Defined.

(** ** Phase continuity *)

(** Outside the first and the last [fs/250] samples of the symbol a call
    leaves the plain wave. *)
Lemma MakeDtmfTone_plain (len : nat) (fs : R) (tone : ascii)
      (last total : Z) (amplitude : R) (out : list R) (j : nat) :
  MakeDtmfTone len fs tone last total amplitude = Some out ->
  (j < len)%nat ->
  (fs / kFadeInOut <= IZR (Z.of_nat j + last))%R ->
  (IZR (Z.of_nat j + last) < IZR total - fs / kFadeInOut)%R ->
  nth j out 0%R = wave_sample fs tone amplitude (Z.of_nat j + last).
Proof.
  intros E Hj Hin Hout.
  destruct (MakeDtmfTone_spec len fs tone last total amplitude)
    as (out' & E' & _ & Hn).
  rewrite E in E'. injection E' as <-.
  rewrite Hn, tone_wave_nth by exact Hj.
  pose proof (wxMin_bounds (INR len) (fs / kFadeInOut)) as [HA1 HA2].
  fold (fade_width len fs) in HA1, HA2.
  set (A := fade_width len fs) in *.
  assert (Gin : fade_in_gain len fs last j = 1%R).
  { unfold fade_in_gain. fold A.
    destruct (Z.eqb_spec last 0) as [H0 | H0]; cbn [andb]; [|reflexivity].
    destruct (Nat.ltb_spec j (List.length (iters_below A))) as [Hk | Hk];
      [|reflexivity].
    assert (Hi : In j (iters_below A))
      by (unfold iters_below in Hk |- *; rewrite length_seq in Hk;
          apply in_seq; lia).
    apply iters_below_In in Hi.
    rewrite H0, Z.add_0_r, <- INR_IZR_INZ in Hin. lra. }
  assert (Gout : fade_out_gain len fs last total j = 1%R).
  { unfold fade_out_gain. fold A. fold (fade_offset len fs).
    set (off := fade_offset len fs).
    destruct (last >=? total - Z.of_nat len) eqn:Hc; cbn [andb];
      [|reflexivity].
    destruct (Nat.leb_spec off j) as [H1 | H1]; cbn [andb]; [|reflexivity].
    destruct (Nat.ltb_spec j (off + List.length (iters_below A)))
      as [H2 | H2]; [|reflexivity].
    destruct (Nat.eq_dec j off) as [-> | Hne].
    - rewrite Nat.sub_diag. simpl INR. unfold Rdiv. ring.
    - exfalso.
      rewrite iters_below_length in H2.
      assert (Hc0 : 0 <= Zceil A) by lia.
      pose proof (fade_offset_plus_count len fs Hc0) as Hsum.
      fold A in Hsum. fold off in Hsum.
      rewrite iters_below_length in Hsum.
      pose proof (Zceil_bound A) as [Hcb _].
      apply Z.geb_le in Hc.
      assert (Hz : Z.of_nat len - Zceil A + 1 + (total - Z.of_nat len)
                   <= Z.of_nat j + last) by lia.
      apply IZR_le in Hz.
      rewrite !plus_IZR, !minus_IZR in Hz.
      rewrite plus_IZR in Hout. lra. }
  rewrite Gin, Gout. ring.
Qed.

(** C4: for k + m <= total, the samples of a call with (last = 0,
    len = k) followed by those of a call with (last = k, len = m) equal
    the samples of one call with (last = 0, len = k + m) at every index
    outside the fade-in window (the first fs/250 samples of the symbol)
    and the fade-out window (its last fs/250 samples). *)
Theorem MakeDtmfTone_phase_continuous (fs : R) (tone : ascii) (total : Z)
        (amplitude : R) (k m : nat) :
  Z.of_nat (k + m) <= total ->
  exists out1 out2 out,
    MakeDtmfTone k fs tone 0 total amplitude = Some out1 /\
    MakeDtmfTone m fs tone (Z.of_nat k) total amplitude = Some out2 /\
    MakeDtmfTone (k + m) fs tone 0 total amplitude = Some out /\
    List.length (out1 ++ out2) = List.length out /\
    forall j, (j < k + m)%nat ->
      (fs / kFadeInOut <= INR j)%R ->
      (INR j < IZR total - fs / kFadeInOut)%R ->
      nth j (out1 ++ out2) 0%R = nth j out 0%R.
Proof.
  intros Htot.
  destruct (MakeDtmfTone_spec k fs tone 0 total amplitude)
    as (out1 & E1 & L1 & _).
  destruct (MakeDtmfTone_spec m fs tone (Z.of_nat k) total amplitude)
    as (out2 & E2 & L2 & _).
  destruct (MakeDtmfTone_spec (k + m) fs tone 0 total amplitude)
    as (out & E & L & _).
  exists out1, out2, out.
  split; [exact E1|]. split; [exact E2|]. split; [exact E|].
  split; [rewrite length_app; lia|].
  intros j Hj Hin Hout.
  rewrite (MakeDtmfTone_plain _ _ _ _ _ _ _ j E Hj)
    by (rewrite Z.add_0_r, <- INR_IZR_INZ; assumption).
  destruct (Nat.lt_ge_cases j k) as [Hlt | Hge].
  - rewrite app_nth1 by lia.
    apply (MakeDtmfTone_plain _ _ _ _ _ _ _ j E1 Hlt);
      rewrite Z.add_0_r, <- INR_IZR_INZ; assumption.
  - rewrite app_nth2 by lia. rewrite L1.
    assert (Ej : Z.of_nat (j - k) + Z.of_nat k = Z.of_nat j) by lia.
    rewrite (MakeDtmfTone_plain _ _ _ _ _ _ _ (j - k)%nat E2)
      by (try lia; rewrite Ej, <- INR_IZR_INZ; assumption).
    rewrite Ej, Z.add_0_r. reflexivity.
Qed.

Lemma MakeDtmfTone_phase_continuous_witness :
  exists out1 out2 out,
    MakeDtmfTone 100 8000 "5" 0 200 1 = Some out1 /\
    MakeDtmfTone 60 8000 "5" (Z.of_nat 100) 200 1 = Some out2 /\
    MakeDtmfTone (100 + 60) 8000 "5" 0 200 1 = Some out /\
    List.length (out1 ++ out2) = List.length out /\
    forall j, (j < 100 + 60)%nat ->
      (8000 / kFadeInOut <= INR j)%R ->
      (INR j < IZR 200 - 8000 / kFadeInOut)%R ->
      nth j (out1 ++ out2) 0%R = nth j out 0%R.
Proof.
  apply (MakeDtmfTone_phase_continuous 8000 "5" 200 1 100 60). lia.
Defined.

(** ** The [ProcessBlock] loop *)

Lemma char_at_defined (s : string) (pos : Z) :
  0 <= pos < Z.of_nat (String.length s) -> exists ch, char_at s pos = Some ch.
Proof.
  intros [H0 H1]. unfold char_at.
  destruct (pos <? 0) eqn:E; [apply Z.ltb_lt in E; lia|].
  assert (Hn : (Z.to_nat pos < String.length s)%nat) by lia.
  clear -Hn. revert s Hn.
  induction (Z.to_nat pos) as [|n IH]; intros [|c s] Hn; simpl in *;
    try lia.
  - eexists; reflexivity.
  - apply IH. lia.
Qed.

Lemma segment_lengths_nonneg (k : nat) : forall c : Cursor,
  0 <= numSamplesTone c -> 0 <= numSamplesSilence c ->
  0 <= zsum (segment_lengths k c).
Proof.
  induction k as [|k IH]; intros c Ht Hs; [simpl; lia|].
  cbn [segment_lengths zsum fold_right].
  fold (zsum (segment_lengths k (startSegment c))).
  destruct (startSegment_fields c) as (_ & Et & Es & _ & _ & _ & Er).
  specialize (IH (startSegment c) ltac:(lia) ltac:(lia)).
  rewrite Er. destruct (isTone c); destruct (diff c >? 0); lia.
Qed.

Lemma startSegment_ok (N : Z) (k : nat) (c : Cursor) :
  cursor_ok N (S k) c -> numRemaining c = 0 ->
  cursor_ok N k (startSegment c) /\
  capacity k (startSegment c) = capacity (S k) c.
Proof.
  intros (Ht & Hs & Hr & Hk & Hp) H0.
  destruct (startSegment_fields c) as (_ & Et & Es & _ & Eb & Ep & Er).
  split.
  - unfold cursor_ok. rewrite Et, Es, Er, Eb, Ep.
    destruct (isTone c); destruct (diff c >? 0); cbn [negb]; lia.
  - unfold capacity. cbn [segment_lengths zsum fold_right].
    fold (zsum (segment_lengths k (startSegment c))). lia.
Qed.

Lemma segment_lengths_ext (k : nat) : forall c c' : Cursor,
  numSamplesTone c = numSamplesTone c' ->
  numSamplesSilence c = numSamplesSilence c' ->
  diff c = diff c' -> isTone c = isTone c' ->
  segment_lengths k c = segment_lengths k c'.
Proof.
  induction k as [|k IH]; intros c c' Ht Hs Hd Hb; [reflexivity|].
  cbn [segment_lengths].
  destruct (startSegment_fields c) as (_ & Et & Es & Ed & Eb & _ & Er).
  destruct (startSegment_fields c') as (_ & Et' & Es' & Ed' & Eb' & _ & Er').
  f_equal.
  - rewrite Er, Er', Ht, Hs, Hd, Hb. reflexivity.
  - apply IH; congruence.
Qed.

Lemma consume_ok (N : Z) (k : nat) (c : Cursor) (len : Z) :
  cursor_ok N k c -> 0 <= len <= numRemaining c ->
  cursor_ok N k (consume len c) /\
  capacity k (consume len c) = capacity k c - len /\
  numRemaining (consume len c) = numRemaining c - len.
Proof.
  intros (Ht & Hs & Hr & Hk & Hp) Hl. unfold cursor_ok, capacity.
  rewrite (segment_lengths_ext k (consume len c) c) by reflexivity.
  unfold consume.
  cbn [numSamplesTone numSamplesSilence numRemaining curSeqPos isTone].
  repeat split; lia.
Qed.

Section Blocks.

Variable e : EffectDtmf.
Let N : Z := dtmfNTones (mSettings e).
Hypothesis N_is_length :
  N = Z.of_nat (String.length (dtmfSequence (mSettings e))).

(** One pass of the loop, asked for no more than the run still holds:
    it stays within the sequence and the buffer, and either finishes
    the request or leaves fewer passes to do. *)
Lemma block_step_ok (k : nat) (c : Cursor) (size : Z) :
  cursor_ok N k c -> 0 < size <= capacity k c ->
  exists c' samples len k',
    block_step e c size = Some (c', samples, len) /\
    0 <= len <= size /\
    cursor_ok N k' c' /\
    capacity k' c' = capacity k c - len /\
    List.length samples = Z.to_nat len /\
    (size - len = 0 \/ (passes_left k' c' < passes_left k c)%nat).
Proof.
  intros Hok Hsize. unfold block_step.
  assert (H1 : exists k1,
             cursor_ok N k1
               (if numRemaining c =? 0 then startSegment c else c) /\
             capacity k1 (if numRemaining c =? 0 then startSegment c else c)
             = capacity k c /\
             (k1 < passes_left k c)%nat).
  { unfold passes_left.
    destruct (Z.eqb_spec (numRemaining c) 0) as [E0 | E0].
    - destruct k as [|k].
      + unfold capacity in Hsize. simpl in Hsize. lia.
      + exists k. destruct (startSegment_ok N k c Hok E0) as [Ha Hb].
        split; [exact Ha | split; [exact Hb | lia]].
    - exists k. split; [exact Hok | split; [reflexivity | lia]]. }
  destruct H1 as (k1 & Hok1 & Hcap1 & Hk1).
  set (c1 := if numRemaining c =? 0 then startSegment c else c) in *.
  set (len := limitSampleBufferSize size (numRemaining c1)).
  assert (Hlen : 0 <= len <= size /\ len <= numRemaining c1 /\
                 (size - len = 0 \/ len = numRemaining c1)).
  { destruct Hok1 as (_ & _ & Hr & _).
    subst len. unfold limitSampleBufferSize. lia. }
  destruct Hlen as (Hl1 & Hl2 & Hl3).
  destruct (consume_ok N k1 c1 len Hok1 ltac:(lia)) as (Hok' & Hcap' & Hr').
  assert (Hprog : size - len = 0 \/
                  (passes_left k1 (consume len c1) < passes_left k c)%nat).
  { destruct Hl3 as [Hz | Hz]; [left; exact Hz|right].
    unfold passes_left at 1. rewrite Hr', Hz, Z.sub_diag. simpl. lia. }
  destruct (isTone c1) eqn:Etone.
  - destruct (char_at_defined (dtmfSequence (mSettings e)) (curSeqPos c1))
      as (ch & Ech).
    { destruct Hok1 as (_ & _ & _ & Hk & Hp). rewrite Etone in Hp.
      rewrite <- N_is_length. lia. }
    rewrite Ech.
    destruct (MakeDtmfTone_spec (Z.to_nat len) (to_float (mSampleRate e)) ch
                (curTonePos c1) (numSamplesTone c1)
                (to_float (dtmfAmplitude (mSettings e))))
      as (o & Eo & Lo & _).
    rewrite Eo.
    exists (consume len c1), o, len, k1.
    split; [reflexivity|]. split; [exact Hl1|]. split; [exact Hok'|].
    split; [lia|]. split; [exact Lo | exact Hprog].
  - exists (consume len c1), (repeat 0%R (Z.to_nat len)), len, k1.
    split; [reflexivity|]. split; [exact Hl1|]. split; [exact Hok'|].
    split; [lia|]. split; [apply repeat_length | exact Hprog].
Qed.

Lemma block_loop_zero (fuel : nat) (c : Cursor) (out : list R)
      (processed : Z) :
  block_loop fuel e c 0 out processed = Done (c, out, processed).
Proof. destruct fuel; reflexivity. Qed.

Lemma block_loop_ok (fuel : nat) :
  forall (k : nat) (c : Cursor) (size : Z) (out : list R) (processed : Z),
  cursor_ok N k c -> 0 <= size <= capacity k c ->
  size = 0 \/ (passes_left k c < fuel)%nat ->
  exists c' out' k',
    block_loop fuel e c size out processed
    = Done (c', out', processed + size) /\
    cursor_ok N k' c' /\
    capacity k' c' = capacity k c - size /\
    List.length out' = (List.length out + Z.to_nat size)%nat.
Proof.
  assert (Hzero : forall fuel' k c out processed,
            cursor_ok N k c ->
            exists c' out' k',
              block_loop fuel' e c 0 out processed
              = Done (c', out', processed + 0) /\
              cursor_ok N k' c' /\
              capacity k' c' = capacity k c - 0 /\
              List.length out' = (List.length out + Z.to_nat 0)%nat).
  { intros fuel' k c out processed Hok. exists c, out, k.
    rewrite block_loop_zero, Z.add_0_r, Z.sub_0_r. simpl Z.to_nat.
    rewrite Nat.add_0_r. split; [reflexivity|].
    split; [exact Hok|]. split; reflexivity. }
  induction fuel as [|fuel IH]; intros k c size out processed Hok Hs Hf.
  - destruct Hf as [-> | Hf]; [|lia]. apply Hzero. exact Hok.
  - destruct (Z.eq_dec size 0) as [-> | Hnz].
    + apply Hzero. exact Hok.
    + destruct Hf as [Hf | Hf]; [contradiction|].
      cbn [block_loop].
      destruct (Z.eqb_spec size 0) as [Hz | _]; [contradiction|].
      destruct (block_step_ok k c size Hok ltac:(lia))
        as (c1 & samples & len & k1 & Est & Hl & Hok1 & Hcap & Lsm & Hp).
      rewrite Est.
      destruct (IH k1 c1 (size - len) (out ++ samples) (processed + len)
                   Hok1 ltac:(lia) ltac:(destruct Hp; [left | right]; lia))
        as (c' & out' & k' & Eloop & Hok' & Hcap' & Lout).
      exists c', out', k'. rewrite Eloop.
      split; [f_equal; f_equal; lia|].
      split; [exact Hok'|]. split; [lia|].
      rewrite Lout, length_app, Lsm. lia.
Qed.

End Blocks.

(** Whatever a call returns is the requested size: the loop ends only
    with [size = 0], and [processed] grows by what [size] loses. *)
Lemma block_loop_count (e : EffectDtmf) (fuel : nat) :
  forall (c : Cursor) (size : Z) (out : list R) (processed : Z)
         (c' : Cursor) (out' : list R) (p' : Z),
  block_loop fuel e c size out processed = Done (c', out', p') ->
  p' = processed + size.
Proof.
  induction fuel as [|fuel IH]; intros c size out processed c' out' p' H;
    cbn [block_loop] in H;
    destruct (Z.eqb_spec size 0) as [-> | Hnz];
    try (injection H as _ _ <-; lia); try discriminate.
  destruct (block_step e c size) as [[[c1 samples] len]|]; [|discriminate].
  apply IH in H. lia.
Qed.

Lemma ProcessBlock_count (fuel : nat) (e : EffectDtmf) (size : Z)
      (e' : EffectDtmf) (out : list R) (p : Z) :
  ProcessBlock fuel e size = Done (e', out, p) -> p = size.
Proof.
  unfold ProcessBlock. intros H.
  destruct (block_loop fuel e (mCursor e) size [] 0)
    as [[[c o] q]| |] eqn:E; try discriminate.
  injection H as _ _ <-. apply block_loop_count in E. lia.
Qed.

Lemma passes_left_bound (N : Z) (k : nat) (c : Cursor) :
  cursor_ok N k c -> (passes_left k c <= Z.to_nat (2 * N))%nat.
Proof.
  intros (_ & _ & _ & Hk & _). unfold passes_left.
  destruct (numRemaining c =? 0); lia.
Qed.

Lemma ProcessBlocks_ok (N : Z) (fuel : nat) (sizes : list Z) :
  (Z.to_nat (2 * N) < fuel)%nat ->
  Forall (fun s => 0 <= s) sizes ->
  forall (e : EffectDtmf) (k : nat),
  dtmfNTones (mSettings e) = N ->
  N = Z.of_nat (String.length (dtmfSequence (mSettings e))) ->
  cursor_ok N k (mCursor e) ->
  zsum sizes <= capacity k (mCursor e) ->
  exists e' k',
    ProcessBlocks fuel e sizes = Done (e', sizes) /\
    cursor_ok N k' (mCursor e') /\
    capacity k' (mCursor e') = capacity k (mCursor e) - zsum sizes.
Proof.
  intros Hfuel Hs. induction Hs as [|size sizes Hsize Hrest IH];
    intros e k HN Hlen Hok Hcap.
  - exists e, k. split; [reflexivity|]. split; [exact Hok|]. simpl. lia.
  - cbn [zsum fold_right] in Hcap |- *. fold (zsum sizes) in Hcap |- *.
    assert (Hz : 0 <= zsum sizes).
    { clear -Hrest. induction Hrest; simpl; [lia|].
      fold (zsum l). lia. }
    subst N.
    destruct (block_loop_ok e Hlen fuel k (mCursor e) size [] 0 Hok
                ltac:(lia)
                ltac:(right; pose proof (passes_left_bound _ _ _ Hok); lia))
      as (c' & out' & k' & Eloop & Hok' & Hcap' & _).
    cbn [ProcessBlocks]. unfold ProcessBlock. rewrite Eloop.
    destruct (IH (with_cursor c' e) k' eq_refl Hlen Hok' ltac:(simpl; lia))
      as (e'' & k'' & Erest & Hok'' & Hcap'').
    rewrite Erest. exists e'', k''.
    split; [rewrite Z.add_0_l; reflexivity|].
    split; [exact Hok''|].
    cbn [mCursor with_cursor] in Hcap''. lia.
Qed.

Lemma Recalculate_nonneg (e0 : EffectDtmf) :
  duty_cycle_in_range e0 -> (0 <= GetDuration e0)%R ->
  (0 <= dtmfTone (mSettings (Recalculate e0)))%R /\
  (0 <= dtmfSilence (mSettings (Recalculate e0)))%R.
Proof.
  unfold duty_cycle_in_range, MIN_DutyCycle, MAX_DutyCycle.
  intros Hdc Hdur.
  set (n := Z.of_nat (String.length (dtmfSequence (mSettings e0)))).
  destruct (Z_lt_le_dec n 2) as [Hsmall | Hbig].
  - unfold Recalculate, GetDuration in *. fold n.
    destruct (Z.eqb_spec n 0) as [E0 | E0]; [simpl; lra|].
    destruct (Z.eqb_spec n 1) as [E1 | E1]; [simpl; lra|].
    subst n. lia.
  - destruct (Recalculate_general e0 Hbig) as (_ & -> & ->). fold n.
    assert (Hn : (2 <= IZR n)%R) by (apply IZR_le; exact Hbig).
    set (p := (dtmfDutyCycle (mSettings e0) / 100)%R).
    assert (Hp : (0 <= p <= 1)%R) by (subst p; lra).
    assert (Hslot : (0 <= GetDuration e0 / (IZR n + p - 1))%R).
    { apply Rmult_le_pos; [exact Hdur|].
      apply Rlt_le, Rinv_0_lt_compat. lra. }
    split; apply Rmult_le_pos; lra.
Qed.

(** The cursor left by [ProcessInitialize] on slot lengths derived by
    [Recalculate], in real arithmetic: all [2N - 1] segments are still to
    come and they hold the total exactly. *)
Lemma initialized_cursor_ok (e0 : EffectDtmf) :
  let e := Recalculate e0 in
  let N := dtmfNTones (mSettings e) in
  let c0 := init_cursor (nominal_total e) (nominal_slots e) (mCursor e) in
  duty_cycle_in_range e0 ->
  (0 <= GetDuration e0)%R -> (0 <= mSampleRate e0)%R ->
  1 <= N ->
  N = Z.of_nat (String.length (dtmfSequence (mSettings e))) /\
  cursor_ok N (Z.to_nat (2 * N - 1)) c0 /\
  capacity (Z.to_nat (2 * N - 1)) c0 = nominal_total e.
Proof.
  intros e N c0 Hdc Hdur Hfs HN.
  destruct (ProcessInitialize_filled 0 e HN
              (Recalculate_slots_fill e0 Hdc HN)) as [_ Hd].
  fold N in Hd.
  destruct (Recalculate_nonneg e0 Hdc Hdur) as [Hton Hsil].
  fold e in Hton, Hsil.
  assert (Hfs' : mSampleRate e = mSampleRate e0)
    by (subst e; apply Recalculate_NTones).
  assert (Ht : 0 <= slotTone (nominal_slots e)).
  { cbn [nominal_slots slotTone]. apply Zfloor_lub.
    rewrite Hfs'. apply Rmult_le_pos; assumption. }
  assert (Hs : 0 <= slotSilence (nominal_slots e)).
  { cbn [nominal_slots slotSilence]. apply Zfloor_lub.
    rewrite Hfs'. apply Rmult_le_pos; assumption. }
  split; [|split].
  - subst N e. destruct (Recalculate_NTones e0) as (-> & -> & _).
    reflexivity.
  - unfold cursor_ok, c0, init_cursor.
    cbn [numSamplesTone numSamplesSilence numRemaining curSeqPos isTone].
    repeat split; lia.
  - unfold capacity, c0.
    rewrite segments_total by (try reflexivity; lia).
    cbn [init_cursor numRemaining]. lia.
Qed.

Lemma example_total : nominal_total (Recalculate example_effect) = 24000.
Proof.
  unfold nominal_total. simpl.
  rewrite (Zfloor_eq 24000), (Zfloor_eq 0); [reflexivity | lra | lra].
Qed.

Lemma example_initialize (fuel : nat) :
  ProcessInitialize fuel (Recalculate example_effect)
  = Done (true, example_initialized).
Proof.
  apply ProcessInitialize_filled.
  - simpl. lia.
  - apply Recalculate_slots_fill.
    + unfold duty_cycle_in_range, MIN_DutyCycle, MAX_DutyCycle. simpl. lra.
    + simpl. lia.
Qed.

(** C10, as the code has it: whatever a call of ProcessBlock returns is
    the requested size; and after any successful ProcessInitialize that
    leaves slot lengths which are not negative (dtmfNTones being the
    length of dtmfSequence), calls whose requested sizes add up to at most
    numSamplesSequence all return, each with exactly its requested size,
    no access to dtmfSequence falls outside the string, and curSeqPos
    ends at most at dtmfNTones - 1. *)
Theorem ProcessBlock_within_sequence
        (e e1 : EffectDtmf) (fuel0 fuel : nat) (sizes : list Z) :
  ProcessInitialize fuel0 e = Done (true, e1) ->
  dtmfNTones (mSettings e)
  = Z.of_nat (String.length (dtmfSequence (mSettings e))) ->
  0 <= numSamplesTone (mCursor e1) ->
  0 <= numSamplesSilence (mCursor e1) ->
  Forall (fun s => 0 <= s) sizes ->
  zsum sizes <= numSamplesSequence (mCursor e1) ->
  (Z.to_nat (2 * dtmfNTones (mSettings e1)) < fuel)%nat ->
  (forall fuel' e size e' out p,
      ProcessBlock fuel' e size = Done (e', out, p) -> p = size) /\
  exists e2,
    ProcessBlocks fuel e1 sizes = Done (e2, sizes) /\
    curSeqPos (mCursor e2) <= dtmfNTones (mSettings e1) - 1.
Proof.
  intros Hinit Hlen Ht Hs Hsizes Hsum Hfuel.
  split; [intros; eapply ProcessBlock_count; eassumption|].
  destruct (ProcessInitialize_leaves fuel0 e e1 Hinit)
    as (HN & T & st & -> & Hle & Hd).
  cbn [mSettings mCursor with_cursor] in *.
  set (N := dtmfNTones (mSettings e)) in *.
  cbn [init_cursor numSamplesTone numSamplesSilence numSamplesSequence]
    in Ht, Hs, Hsum.
  destruct (init_cursor_ok N T st (mCursor e) HN Ht Hs Hle Hd)
    as [Hok Hcap].
  destruct (ProcessBlocks_ok N fuel sizes Hfuel Hsizes
              (with_cursor (init_cursor T st (mCursor e)) e) _
              eq_refl Hlen Hok ltac:(cbn [mCursor with_cursor]; lia))
    as (e2 & k2 & Eblocks & Hok2 & _).
  exists e2. split; [exact Eblocks|].
  destruct Hok2 as (_ & _ & _ & _ & Hp).
  destruct (isTone (mCursor e2)); lia.
Qed.

(** Two tones whose slot lengths the loop has made 4000 and 8000 samples
    long, for a total of 8000 samples. *)
Lemma ProcessBlock_within_sequence_witness :
  exists e2,
    ProcessBlocks 7 stale_pair_initialized [4096; 3904]
    = Done (e2, [4096; 3904]) /\
    curSeqPos (mCursor e2) <= dtmfNTones (mSettings stale_pair_initialized) - 1.
Proof.
  apply (ProcessBlock_within_sequence stale_pair_effect
           stale_pair_initialized 1 7 [4096; 3904]).
  - apply stale_pair_initialize.
  - reflexivity.
  - simpl. lia.
  - simpl. lia.
  - repeat constructor; lia.
  - simpl. lia.
  - simpl. lia.
Defined.

(** ** Remarks on the remainder *)

(** The sample taken from the remainder goes to whichever segment starts
    next: with a nominal silence length of 0 (duty cycle 100, two tones of
    one sample, total 4) the silence segment still receives one sample. *)
Example remainder_reaches_silence :
  forall old, segment_lengths 3 (init_cursor 4 (mkSlots 1 0 2) old)
              = [2; 1; 1].
Proof. reflexivity. Qed.

(** Slot lengths that do not belong to the duration (here: both 0 for two
    tones and a total of 4) send the loop of [ProcessInitialize] through
    one pass, after which the three segments hold 8 samples. *)
Example stale_slots_overshoot :
  redistribute 1 4 2 0 0 = Done (mkSlots 2 4 (-4)) /\
  forall old, segment_lengths 3 (init_cursor 4 (mkSlots 2 4 (-4)) old)
              = [2; 4; 2].
Proof. split; intros; reflexivity. Qed.

Lemma MakeDtmfTone_empty (fs : R) (tone : ascii) (last total : Z)
      (amplitude : R) :
  MakeDtmfTone 0 fs tone last total amplitude = Some [].
Proof.
  destruct (MakeDtmfTone_spec 0 fs tone last total amplitude)
    as (out & E & L & _).
  destruct out; [exact E | discriminate].
Qed.

Lemma single_tone_initialize :
  ProcessInitialize 0 (Recalculate single_tone_config)
  = Done (true, single_tone_empty).
Proof.
  destruct (ProcessInitialize_filled 0 (Recalculate single_tone_config))
    as [E _].
  - simpl. lia.
  - apply Recalculate_single_fill. reflexivity.
  - rewrite E. unfold single_tone_empty. do 2 f_equal.
    unfold with_cursor, init_cursor, nominal_slots, nominal_total, diff_of.
    simpl.
    rewrite (Zfloor_eq 0), (Zfloor_eq 0), (Zfloor_eq 0);
      [reflexivity | lra | lra | lra].
Qed.

(** A request beyond the end of the run walks through empty segments
    until [curSeqPos] leaves the sequence: here one sample is asked of a
    run that holds none. *)
Lemma over_request_leaves_sequence (fuel : nat) :
  ProcessBlock (S (S (S fuel))) single_tone_empty 1 = Crash.
Proof.
  unfold ProcessBlock.
  assert (E1 : block_step single_tone_empty (mCursor single_tone_empty) 1
               = Some (mkCursor 0 0 0 (-1) 0 true 0 0, [], 0)).
  { unfold block_step. cbn -[MakeDtmfTone].
    rewrite MakeDtmfTone_empty. reflexivity. }
  assert (E2 : block_step single_tone_empty
                 (mkCursor 0 0 0 (-1) 0 true 0 0) 1
               = Some (mkCursor 0 0 0 (-2) 0 false 0 0, [], 0)).
  { reflexivity. }
  assert (E3 : block_step single_tone_empty
                 (mkCursor 0 0 0 (-2) 0 false 0 0) 1 = None).
  { reflexivity. }
  cbn [block_loop]. change (1 =? 0) with false. cbv iota.
  rewrite E1. change (1 - 0) with 1.
  cbn [block_loop]. change (1 =? 0) with false. cbv iota.
  rewrite E2. change (1 - 0) with 1.
  cbn [block_loop]. change (1 =? 0) with false. cbv iota.
  rewrite E3. reflexivity.
Qed.

Lemma block_loop_fuel_mono (e : EffectDtmf) (fuel : nat) :
  forall (c : Cursor) (size : Z) (out : list R) (processed : Z)
         (r : Cursor * list R * Z),
  block_loop fuel e c size out processed = Done r ->
  block_loop (S fuel) e c size out processed = Done r.
Proof.
  induction fuel as [|fuel IH]; intros c size out processed r H.
  - cbn [block_loop] in H |- *.
    destruct (size =? 0); [exact H | discriminate].
  - remember (S fuel) as f1. cbn [block_loop]. subst f1.
    cbn [block_loop] in H.
    destruct (size =? 0); [exact H|].
    destruct (block_step e c size) as [[[c1 samples] len]|]; [|discriminate].
    apply IH. exact H.
Qed.

(** C10 as stated fails: after a successful ProcessInitialize (one tone,
    duration 0, so numSamplesSequence = 0) a call of ProcessBlock for one
    sample does not return, whatever the number of loop passes allowed;
    it runs through empty segments and indexes dtmfSequence at 1. *)
Lemma ProcessBlock_within_sequence_counterexample :
  ProcessInitialize 0 (Recalculate single_tone_config)
  = Done (true, single_tone_empty) /\
  ProcessBlock 3 single_tone_empty 1 = Crash /\
  forall fuel r, ProcessBlock fuel single_tone_empty 1 <> Done r.
Proof.
  split; [apply single_tone_initialize|].
  split; [apply (over_request_leaves_sequence 0)|].
  intros fuel r H.
  assert (Hloop : forall n, exists r',
            block_loop (n + fuel) single_tone_empty
                       (mCursor single_tone_empty) 1 [] 0 = Done r').
  { unfold ProcessBlock in H.
    destruct (block_loop fuel single_tone_empty (mCursor single_tone_empty)
                         1 [] 0) as [r'| |] eqn:E; try discriminate.
    induction n as [|n [r'' IHn]].
    - exists r'. exact E.
    - exists r''. apply block_loop_fuel_mono. exact IHn. }
  destruct (Hloop 3%nat) as [r' Hr'].
  pose proof (over_request_leaves_sequence fuel) as Hc.
  unfold ProcessBlock in Hc.
  replace (3 + fuel)%nat with (S (S (S fuel))) in Hr' by lia.
  rewrite Hr' in Hc. destruct r' as [[c o] q]. discriminate.
Qed.

(** ** Length of each segment *)

(** Segment [j] (counted from 0) after the cursor is a tone or a silence
    in turn, of the nominal length plus one sample while the remainder
    lasts. *)
Lemma segment_lengths_nth (k : nat) : forall (c : Cursor) (j : nat),
  (j < k)%nat ->
  nth j (segment_lengths k c) 0
  = (if xorb (isTone c) (Nat.even j)
     then numSamplesTone c else numSamplesSilence c)
    + (if diff c - Z.of_nat j >? 0 then 1 else 0).
Proof.
  induction k as [|k IH]; intros c j Hj; [lia|].
  cbn [segment_lengths].
  destruct (startSegment_fields c) as (_ & Et & Es & Ed & Eb & _ & Er).
  destruct j as [|j].
  - cbn [nth]. rewrite Er. change (Nat.even 0) with true.
    rewrite Z.sub_0_r. destruct (isTone c); reflexivity.
  - cbn [nth]. rewrite IH by lia. rewrite Et, Es, Ed, Eb.
    rewrite Nat.even_succ, <- Nat.negb_even.
    replace (diff c - 1 - Z.of_nat j) with (diff c - Z.of_nat (S j)) by lia.
    destruct (isTone c); destruct (Nat.even j); reflexivity.
Qed.

Lemma example_full_duty :
  ProcessInitialize 0 (Recalculate full_duty_effect)
  = Done (true,
          with_cursor (mkCursor 24004 12001 0 2 (-1) false 0 0)
                      (Recalculate full_duty_effect)).
Proof.
  destruct (ProcessInitialize_filled 0 (Recalculate full_duty_effect))
    as [E _].
  - simpl. lia.
  - apply Recalculate_slots_fill.
    + unfold duty_cycle_in_range, MIN_DutyCycle, MAX_DutyCycle. simpl. lra.
    + simpl. lia.
  - rewrite E. do 2 f_equal. f_equal.
    unfold init_cursor, nominal_slots, nominal_total, diff_of.
    cbn [slotTone slotSilence slotDiff mCursor curTonePos].
    simpl.
    rewrite (Zfloor_eq 24004), (Zfloor_eq 0), (Zfloor_eq 12001),
            (Zfloor_eq 0); [reflexivity | lra | lra | lra | lra].
Qed.

Lemma example_zero_duty :
  ProcessInitialize 0 (Recalculate zero_duty_effect)
  = Done (true,
          with_cursor (mkCursor 24001 0 24000 1 (-1) false 0 0)
                      (Recalculate zero_duty_effect)).
Proof.
  destruct (ProcessInitialize_filled 0 (Recalculate zero_duty_effect))
    as [E _].
  - simpl. lia.
  - apply Recalculate_slots_fill.
    + unfold duty_cycle_in_range, MIN_DutyCycle, MAX_DutyCycle. simpl. lra.
    + simpl. lia.
  - rewrite E. do 2 f_equal. f_equal.
    unfold init_cursor, nominal_slots, nominal_total, diff_of.
    cbn [slotTone slotSilence slotDiff mCursor curTonePos].
    simpl.
    rewrite (Zfloor_eq 24001), (Zfloor_eq 0), (Zfloor_eq 0),
            (Zfloor_eq 24000); [reflexivity | lra | lra | lra | lra].
Qed.

(** C7 as stated fails for the generated slots: at duty cycle 100 the
    silence slot between two tones receives one sample of the remainder,
    and at duty cycle 0 the first tone slot does. *)
Lemma duty_cycle_extremes_counterexample :
  (dtmfDutyCycle (mSettings full_duty_effect) = 100%R /\
   1 < dtmfNTones (mSettings (Recalculate full_duty_effect)) /\
   exists e', ProcessInitialize 0 (Recalculate full_duty_effect)
              = Done (true, e') /\
              segment_lengths 3 (mCursor e') = [12002; 1; 12001]) /\
  (dtmfDutyCycle (mSettings zero_duty_effect) = 0%R /\
   1 < dtmfNTones (mSettings (Recalculate zero_duty_effect)) /\
   exists e', ProcessInitialize 0 (Recalculate zero_duty_effect)
              = Done (true, e') /\
              segment_lengths 3 (mCursor e') = [1; 24000; 0]).
Proof.
  split; (split; [reflexivity|]); (split; [simpl; lia|]).
  - eexists. split; [apply example_full_duty | reflexivity].
  - eexists. split; [apply example_zero_duty | reflexivity].
Qed.

(** C7, as the code has it: with more than one tone, a duty cycle of 100
    makes dtmfSilence 0 and the nominal silence length numSamplesSilence
    0 samples, so that every silence slot generated is 0 samples long or
    holds the one sample it takes from the remainder; a duty cycle of 0
    makes dtmfTone 0 and numSamplesTone 0, so that every tone slot is 0
    samples long or holds one sample of the remainder; this for every
    duration and sample rate. *)
Theorem duty_cycle_extremes (fuel : nat) (e0 : EffectDtmf) :
  let e := Recalculate e0 in
  let slots := Z.to_nat (2 * dtmfNTones (mSettings e) - 1) in
  1 < dtmfNTones (mSettings e) ->
  (dtmfDutyCycle (mSettings e0) = 100%R ->
   dtmfSilence (mSettings e) = 0%R /\
   exists e', ProcessInitialize fuel e = Done (true, e') /\
     numSamplesSilence (mCursor e') = 0 /\
     forall j, (j < slots)%nat -> Nat.even j = false ->
       0 <= nth j (segment_lengths slots (mCursor e')) 0 <= 1) /\
  (dtmfDutyCycle (mSettings e0) = 0%R ->
   dtmfTone (mSettings e) = 0%R /\
   exists e', ProcessInitialize fuel e = Done (true, e') /\
     numSamplesTone (mCursor e') = 0 /\
     forall j, (j < slots)%nat -> Nat.even j = true ->
       0 <= nth j (segment_lengths slots (mCursor e')) 0 <= 1).
Proof.
  intros e slots HN. subst e.
  destruct (Recalculate_NTones e0) as (EN & _). rewrite EN in HN.
  destruct (Recalculate_general e0 ltac:(lia)) as (_ & Ht & Hs).
  assert (Hinit : duty_cycle_in_range e0 ->
            ProcessInitialize fuel (Recalculate e0)
            = Done (true, with_cursor
                            (init_cursor (nominal_total (Recalculate e0))
                                         (nominal_slots (Recalculate e0))
                                         (mCursor (Recalculate e0)))
                            (Recalculate e0))).
  { intros Hdc. apply ProcessInitialize_filled; [rewrite EN; lia|].
    apply Recalculate_slots_fill; [exact Hdc | rewrite EN; lia]. }
  assert (Hextra : forall d : Z, 0 <= 0 + (if d >? 0 then 1 else 0) <= 1)
    by (intros d; destruct (d >? 0); lia).
  split; intros Hdc.
  - assert (E : dtmfSilence (mSettings (Recalculate e0)) = 0%R).
    { rewrite Hs, Hdc. replace (1 - 100 / 100)%R with 0%R by lra. ring. }
    split; [exact E|]. eexists. split.
    + apply Hinit. unfold duty_cycle_in_range, MIN_DutyCycle, MAX_DutyCycle.
      rewrite Hdc. lra.
    + cbn [mCursor with_cursor].
      assert (E0 : slotSilence (nominal_slots (Recalculate e0)) = 0).
      { cbn [nominal_slots slotSilence]. rewrite E.
        apply Zfloor_zero_times. }
      split; [exact E0|].
      intros j Hj Hodd. rewrite segment_lengths_nth by exact Hj.
      cbn [init_cursor isTone numSamplesTone numSamplesSilence diff xorb].
      rewrite Hodd, E0. apply Hextra.
  - assert (E : dtmfTone (mSettings (Recalculate e0)) = 0%R).
    { rewrite Ht, Hdc. replace (0 / 100)%R with 0%R by lra. ring. }
    split; [exact E|]. eexists. split.
    + apply Hinit. unfold duty_cycle_in_range, MIN_DutyCycle, MAX_DutyCycle.
      rewrite Hdc. lra.
    + cbn [mCursor with_cursor].
      assert (E0 : slotTone (nominal_slots (Recalculate e0)) = 0).
      { cbn [nominal_slots slotTone]. rewrite E.
        apply Zfloor_zero_times. }
      split; [exact E0|].
      intros j Hj Heven. rewrite segment_lengths_nth by exact Hj.
      cbn [init_cursor isTone numSamplesTone numSamplesSilence diff xorb].
      rewrite Heven, E0. apply Hextra.
Qed.

Lemma duty_cycle_extremes_witness :
  dtmfSilence (mSettings (Recalculate full_duty_effect)) = 0%R /\
  exists e', ProcessInitialize 0 (Recalculate full_duty_effect)
             = Done (true, e') /\
    numSamplesSilence (mCursor e') = 0 /\
    forall j,
      (j < Z.to_nat
             (2 * dtmfNTones (mSettings (Recalculate full_duty_effect)) - 1))%nat ->
      Nat.even j = false ->
      0 <= nth j (segment_lengths
                    (Z.to_nat
                       (2 * dtmfNTones
                              (mSettings (Recalculate full_duty_effect)) - 1))
                    (mCursor e')) 0 <= 1.
Proof.
  apply (duty_cycle_extremes 0 full_duty_effect).
  - simpl. lia.
  - reflexivity.
Defined.

(** * Further properties of the generator *)

(** ** [Recalculate] *)

(** X1: Recalculate is idempotent: applying it a second time changes
    nothing. *)
Theorem Recalculate_idempotent (e : EffectDtmf) :
  Recalculate (Recalculate e) = Recalculate e.
Proof.
  unfold Recalculate at 2 3.
  set (n := Z.of_nat (String.length (dtmfSequence (mSettings e)))).
  destruct (n =? 0) eqn:E0; [|destruct (n =? 1) eqn:E1];
    unfold Recalculate; cbn [mSettings with_settings SetDuration
                             dtmfSequence dtmfDutyCycle dtmfAmplitude
                             GetDuration mDuration mT0 mSampleRate mCursor];
    fold n; rewrite E0; try rewrite E1; reflexivity.
Qed.

(** X3: for a duty cycle within its bounds and a duration that is not
    negative, neither slot length is negative, and a tone is never longer
    than the whole duration. *)
Theorem Recalculate_slot_bounds (e : EffectDtmf) :
  duty_cycle_in_range e -> (0 <= GetDuration e)%R ->
  let s' := mSettings (Recalculate e) in
  (0 <= dtmfTone s')%R /\ (0 <= dtmfSilence s')%R /\
  (dtmfTone s' <= GetDuration (Recalculate e))%R.
Proof.
  intros Hdc Hdur s'. subst s'.
  destruct (Recalculate_nonneg e Hdc Hdur) as [Ht Hs].
  split; [exact Ht|]. split; [exact Hs|].
  destruct (Z_lt_le_dec (dtmfNTones (mSettings (Recalculate e))) 1)
    as [H0 | H1].
  - destruct (Recalculate_NTones e) as (EN & _). rewrite EN in H0.
    unfold Recalculate, GetDuration.
    set (n := Z.of_nat (String.length (dtmfSequence (mSettings e)))) in *.
    destruct (Z.eqb_spec n 0) as [E0 | E0]; [|subst n; lia].
    simpl. lra.
  - pose proof (Recalculate_slots_fill e Hdc H1) as Hfill.
    unfold slots_fill in Hfill.
    assert (Hn : (1 <= IZR (dtmfNTones (mSettings (Recalculate e))))%R)
      by (apply IZR_le; exact H1).
    nra.
Qed.

Lemma Recalculate_slot_bounds_witness :
  (0 <= dtmfTone (mSettings (Recalculate example_effect)))%R /\
  (0 <= dtmfSilence (mSettings (Recalculate example_effect)))%R /\
  (dtmfTone (mSettings (Recalculate example_effect))
   <= GetDuration (Recalculate example_effect))%R.
Proof.
  apply (Recalculate_slot_bounds example_effect).
  - unfold duty_cycle_in_range, MIN_DutyCycle, MAX_DutyCycle. simpl. lra.
  - simpl. lra.
Defined.

(** ** [ProcessInitialize] *)

(** X4: what every successful call of ProcessInitialize leaves, in real
    arithmetic and in binary64 alike, whatever the slot lengths were: the
    tone count is at least 1; settings, duration, start time and sample
    rate are untouched; the cursor is reset to before the first tone
    (curTonePos is not assigned); diff is the remainder of the slot
    lengths left and is at most 2N - 1; and the 2N - 1 segments of the
    run hold numSamplesSequence - min(0, diff) samples, which is
    numSamplesSequence exactly when diff >= 0, the condition the code
    asserts, and -diff samples more otherwise. *)
Theorem ProcessInitialize_postcondition :
  (forall (fuel : nat) (e e' : EffectDtmf),
     ProcessInitialize fuel e = Done (true, e') ->
     let N := dtmfNTones (mSettings e) in
     let c := mCursor e' in
     1 <= N /\
     mSettings e' = mSettings e /\ mDuration e' = mDuration e /\
     mT0 e' = mT0 e /\ mSampleRate e' = mSampleRate e /\
     curSeqPos c = -1 /\ isTone c = false /\ numRemaining c = 0 /\
     curTonePos c = curTonePos (mCursor e) /\
     diff c = numSamplesSequence c - N * numSamplesTone c
              - (N - 1) * numSamplesSilence c /\
     diff c <= 2 * N - 1 /\
     zsum (segment_lengths (Z.to_nat (2 * N - 1)) c)
     = numSamplesSequence c - Z.min 0 (diff c)) /\
  (forall (fuel : nat) (e e' : Binary64.EffectDtmf),
     Binary64.ProcessInitialize fuel e = Done (true, e') ->
     let N := Binary64.dtmfNTones (Binary64.mSettings e) in
     let c := Binary64.mCursor e' in
     1 <= N /\
     Binary64.mSettings e' = Binary64.mSettings e /\
     Binary64.mDuration e' = Binary64.mDuration e /\
     Binary64.mT0 e' = Binary64.mT0 e /\
     Binary64.mSampleRate e' = Binary64.mSampleRate e /\
     curSeqPos c = -1 /\ isTone c = false /\ numRemaining c = 0 /\
     curTonePos c = curTonePos (Binary64.mCursor e) /\
     diff c = numSamplesSequence c - N * numSamplesTone c
              - (N - 1) * numSamplesSilence c /\
     diff c <= 2 * N - 1 /\
     zsum (segment_lengths (Z.to_nat (2 * N - 1)) c)
     = numSamplesSequence c - Z.min 0 (diff c)).
Proof.
  split.
  - intros fuel e e' H N c.
    destruct (ProcessInitialize_leaves fuel e e' H)
      as (HN & T & st & -> & Hle & Hd).
    subst c. cbn [mSettings mDuration mT0 mSampleRate mCursor with_cursor].
    split; [exact HN|]. do 4 (split; [reflexivity|]).
    apply (init_cursor_shape N T st (mCursor e) HN Hle Hd).
  - intros fuel e e' H N c.
    destruct (ProcessInitialize_leaves_binary64 fuel e e' H)
      as (HN & T & st & -> & Hle & Hd).
    subst c.
    cbn [Binary64.mSettings Binary64.mDuration Binary64.mT0
         Binary64.mSampleRate Binary64.mCursor Binary64.with_cursor].
    split; [exact HN|]. do 4 (split; [reflexivity|]).
    apply (init_cursor_shape N T st (Binary64.mCursor e) HN Hle Hd).
Qed.

(** Two tones at duty cycle 8 over 0.21 s starting at 0.175 s, 44100 Hz:
    one pass of the loop, diff = -4, and 9266 samples for a total of
    9262. *)
Lemma ProcessInitialize_postcondition_witness :
  exists e',
    Binary64.ProcessInitialize 1 (Binary64.Recalculate Binary64.short_pair)
    = Done (true, e') /\
    diff (Binary64.mCursor e') = -4 /\
    diff (Binary64.mCursor e') <= 2 * 2 - 1 /\
    zsum (segment_lengths 3 (Binary64.mCursor e'))
    = numSamplesSequence (Binary64.mCursor e')
      - Z.min 0 (diff (Binary64.mCursor e')).
Proof.
  assert (H : Binary64.ProcessInitialize 1
                (Binary64.Recalculate Binary64.short_pair)
              = Done (true,
                      Binary64.with_cursor
                        (mkCursor 9262 687 7892 (-4) (-1) false 0 0)
                        (Binary64.Recalculate Binary64.short_pair)))
    by (vm_compute; reflexivity).
  eexists. split; [exact H|]. split; [reflexivity|].
  destruct (proj2 ProcessInitialize_postcondition 1%nat _ _ H)
    as (_ & _ & _ & _ & _ & _ & _ & _ & _ & _ & Hle & Hsum).
  split; [exact Hle | exact Hsum].
Defined.

(** X5: with two tones or more, whenever the remainder computed from the
    slot lengths exceeds 2N - 1 (slot lengths that do not belong to the
    duration), ProcessInitialize still returns true after one pass of
    the redistribution loop, but leaves diff <= -(N - 1) < 0, against
    wxASSERT(diff >= 0); the 2N - 1 segments then hold
    numSamplesSequence - diff samples, more than numSamplesSequence. *)
Theorem ProcessInitialize_overshoot (fuel : nat) (e : EffectDtmf) :
  let N := dtmfNTones (mSettings e) in
  2 <= N -> 2 * N - 1 < slotDiff (nominal_slots e) ->
  exists e',
    ProcessInitialize (S fuel) e = Done (true, e') /\
    diff (mCursor e') <= - (N - 1) /\
    zsum (segment_lengths (Z.to_nat (2 * N - 1)) (mCursor e'))
    = numSamplesSequence (mCursor e') - diff (mCursor e').
Proof.
  intros N HN Hd.
  rewrite ProcessInitialize_unfold by (fold N; lia). fold N.
  unfold nominal_slots in Hd |- *. cbn [slotDiff] in Hd.
  rewrite spread_one_pass by assumption.
  eexists. split; [reflexivity|].
  pose proof (spread_pass_overshoots _ _ _ _ HN Hd) as Hneg.
  cbv zeta in Hneg.
  cbn [mCursor with_cursor]. split.
  - cbn [init_cursor diff slotDiff]. exact Hneg.
  - rewrite segments_total; try lia.
    + cbn [init_cursor diff slotDiff numSamplesSequence].
      unfold N in *. lia.
    + reflexivity.
    + cbn [slotDiff]. unfold N in *. lia.
Qed.

Lemma ProcessInitialize_overshoot_witness :
  exists e',
    ProcessInitialize 1 stale_pair_effect = Done (true, e') /\
    diff (mCursor e') <= - (dtmfNTones (mSettings stale_pair_effect) - 1) /\
    zsum (segment_lengths
            (Z.to_nat (2 * dtmfNTones (mSettings stale_pair_effect) - 1))
            (mCursor e'))
    = numSamplesSequence (mCursor e') - diff (mCursor e').
Proof.
  apply (ProcessInitialize_overshoot 0 stale_pair_effect).
  - simpl. lia.
  - rewrite stale_pair_slots. simpl. lia.
Defined.

(** X6: with a single tone, whenever the remainder computed from the
    slot length exceeds 1 (a slot length that does not belong to the
    duration), ProcessInitialize enters the redistribution loop and
    divides by dtmfNTones - 1 = 0. *)
Theorem ProcessInitialize_single_tone_division (fuel : nat) (e : EffectDtmf) :
  dtmfNTones (mSettings e) = 1 -> 1 < slotDiff (nominal_slots e) ->
  ProcessInitialize (S fuel) e = Crash.
Proof.
  intros HN Hd.
  rewrite ProcessInitialize_unfold by lia. rewrite HN.
  unfold nominal_slots in Hd |- *. cbn [slotDiff] in Hd. rewrite HN in Hd.
  pose proof (spread_single_tone_crash fuel _ _ _ Hd) as Hc.
  unfold redistribute in Hc. rewrite HN. rewrite Hc. reflexivity.
Qed.

Lemma stale_single_slots :
  nominal_slots stale_single_effect = mkSlots 0 0 8000.
Proof.
  unfold nominal_slots, nominal_total, diff_of, GetDuration. simpl.
  rewrite (Zfloor_eq 8000 ((0 + 1) * 8000 + 0.5)) by lra.
  rewrite (Zfloor_eq 0 (0 * 8000 + 0.5)) by lra.
  rewrite (Zfloor_eq 0 (0 * 8000)) by lra.
  reflexivity.
Qed.

Lemma ProcessInitialize_single_tone_division_witness :
  ProcessInitialize 1 stale_single_effect = Crash.
Proof.
  apply (ProcessInitialize_single_tone_division 0 stale_single_effect).
  - reflexivity.
  - rewrite stale_single_slots. simpl. lia.
Defined.

(** ** [ProcessBlock] *)

Lemma block_step_shape (e : EffectDtmf) (c : Cursor) (size : Z)
      (c' : Cursor) (samples : list R) (len : Z) :
  block_step e c size = Some (c', samples, len) ->
  len = limitSampleBufferSize size (numRemaining (pass_cursor c)) /\
  c' = consume len (pass_cursor c) /\
  List.length samples = Z.to_nat len /\
  symbol_in_range e (pass_cursor c).
Proof.
  unfold block_step. fold (pass_cursor c).
  set (c1 := pass_cursor c).
  set (l := limitSampleBufferSize size (numRemaining c1)).
  unfold symbol_in_range.
  destruct (isTone c1) eqn:Etone.
  - destruct (char_at (dtmfSequence (mSettings e)) (curSeqPos c1))
      as [ch|] eqn:Ech; [|discriminate].
    destruct (MakeDtmfTone_spec (Z.to_nat l) (to_float (mSampleRate e)) ch
                (curTonePos c1) (numSamplesTone c1)
                (to_float (dtmfAmplitude (mSettings e))))
      as (o & Eo & Lo & _).
    rewrite Eo. intros H. injection H as <- <- <-.
    repeat split; try assumption. intros _. exists ch. reflexivity.
  - intros H. injection H as <- <- <-.
    repeat split; [apply repeat_length | discriminate].
Qed.

Lemma block_step_defined (e : EffectDtmf) (c : Cursor) (size : Z) :
  symbol_in_range e (pass_cursor c) ->
  exists samples,
    block_step e c size
    = Some (consume (limitSampleBufferSize size (numRemaining (pass_cursor c)))
                    (pass_cursor c),
            samples,
            limitSampleBufferSize size (numRemaining (pass_cursor c))).
Proof.
  intros Hs. unfold block_step. fold (pass_cursor c).
  set (c1 := pass_cursor c) in *.
  set (l := limitSampleBufferSize size (numRemaining c1)).
  unfold symbol_in_range in Hs.
  destruct (isTone c1) eqn:Etone.
  - destruct (Hs eq_refl) as [ch Ech]. rewrite Ech.
    destruct (MakeDtmfTone_spec (Z.to_nat l) (to_float (mSampleRate e)) ch
                (curTonePos c1) (numSamplesTone c1)
                (to_float (dtmfAmplitude (mSettings e))))
      as (o & Eo & _).
    rewrite Eo. eexists. reflexivity.
  - eexists. reflexivity.
Qed.

(** The accumulators [out] and [processed] do not influence the loop. *)
Lemma block_loop_acc (e : EffectDtmf) (fuel : nat) :
  forall (c : Cursor) (size : Z) (out : list R) (processed : Z),
  block_loop fuel e c size out processed
  = match block_loop fuel e c size [] 0 with
    | Done (c', o, q) => Done (c', out ++ o, processed + q)
    | Crash => Crash
    | OutOfFuel => OutOfFuel
    end.
Proof.
  induction fuel as [|fuel IH]; intros c size out processed;
    cbn [block_loop]; destruct (size =? 0).
  - rewrite app_nil_r, Z.add_0_r. reflexivity.
  - reflexivity.
  - rewrite app_nil_r, Z.add_0_r. reflexivity.
  - destruct (block_step e c size) as [[[c1 samples] len]|]; [|reflexivity].
    rewrite (IH c1 (size - len) (out ++ samples) (processed + len)).
    rewrite (IH c1 (size - len) ([] ++ samples) (0 + len)).
    destruct (block_loop fuel e c1 (size - len) [] 0) as [[[c' o] q]| |];
      try reflexivity.
    rewrite app_nil_l, app_assoc, Z.add_0_l, Z.add_assoc. reflexivity.
Qed.

Lemma block_loop_length (e : EffectDtmf) (fuel : nat) :
  forall (c : Cursor) (size : Z) (out : list R) (processed : Z)
         (c' : Cursor) (out' : list R) (p' : Z),
  0 <= size ->
  block_loop fuel e c size out processed = Done (c', out', p') ->
  List.length out' = (List.length out + Z.to_nat size)%nat.
Proof.
  induction fuel as [|fuel IH];
    intros c size out processed c' out' p' Hsize H;
    cbn [block_loop] in H;
    destruct (Z.eqb_spec size 0) as [-> | Hnz];
    try (injection H as _ <- _; simpl; lia); try discriminate.
  destruct (block_step e c size) as [[[c1 samples] len]|] eqn:Est;
    [|discriminate].
  destruct (block_step_shape _ _ _ _ _ _ Est) as (El & _ & Ls & _).
  assert (Hl : 0 <= len <= size)
    by (rewrite El; unfold limitSampleBufferSize; lia).
  apply IH in H; [|lia]. rewrite H, length_app, Ls. lia.
Qed.

(** The loop moves the cursor forward only. *)
Lemma block_loop_forward (e : EffectDtmf) (fuel : nat) :
  forall (c : Cursor) (size : Z) (out : list R) (processed : Z)
         (c' : Cursor) (out' : list R) (p' : Z),
  block_loop fuel e c size out processed = Done (c', out', p') ->
  numSamplesSequence c' = numSamplesSequence c /\
  numSamplesTone c' = numSamplesTone c /\
  numSamplesSilence c' = numSamplesSilence c /\
  curSeqPos c <= curSeqPos c' /\ diff c' <= diff c.
Proof.
  induction fuel as [|fuel IH];
    intros c size out processed c' out' p' H;
    cbn [block_loop] in H;
    destruct (size =? 0);
    try (injection H as <- _ _; repeat split; lia); try discriminate.
  destruct (block_step e c size) as [[[c1 samples] len]|] eqn:Est;
    [|discriminate].
  destruct (block_step_shape _ _ _ _ _ _ Est) as (_ & Ec & _ & _).
  apply IH in H. destruct H as (H1 & H2 & H3 & H4 & H5).
  assert (Hp : numSamplesSequence (pass_cursor c) = numSamplesSequence c /\
               numSamplesTone (pass_cursor c) = numSamplesTone c /\
               numSamplesSilence (pass_cursor c) = numSamplesSilence c /\
               curSeqPos c <= curSeqPos (pass_cursor c) /\
               diff (pass_cursor c) <= diff c).
  { unfold pass_cursor. destruct (numRemaining c =? 0).
    - destruct (startSegment_fields c) as (E1 & E2 & E3 & E4 & _ & E6 & _).
      rewrite E1, E2, E3, E4, E6. destruct (isTone c); repeat split; lia.
    - repeat split; lia. }
  subst c1. unfold consume in *.
  cbn [numSamplesSequence numSamplesTone numSamplesSilence curSeqPos diff]
    in *.
  destruct Hp as (P1 & P2 & P3 & P4 & P5). repeat split; lia.
Qed.

(** X7: a call of ProcessBlock that returns has written exactly the
    requested number of samples, no more and no fewer, and returns that
    number; it changes nothing of the effect but the cursor, and there
    only forwards: the slot lengths stay, curSeqPos does not decrease
    and diff does not increase. *)
Theorem ProcessBlock_fills_request (fuel : nat) (e : EffectDtmf) (size : Z)
        (e' : EffectDtmf) (out : list R) (p : Z) :
  0 <= size ->
  ProcessBlock fuel e size = Done (e', out, p) ->
  List.length out = Z.to_nat size /\ p = size /\
  mSettings e' = mSettings e /\ mDuration e' = mDuration e /\
  mT0 e' = mT0 e /\ mSampleRate e' = mSampleRate e /\
  numSamplesSequence (mCursor e') = numSamplesSequence (mCursor e) /\
  numSamplesTone (mCursor e') = numSamplesTone (mCursor e) /\
  numSamplesSilence (mCursor e') = numSamplesSilence (mCursor e) /\
  curSeqPos (mCursor e) <= curSeqPos (mCursor e') /\
  diff (mCursor e') <= diff (mCursor e).
Proof.
  intros Hsize H.
  pose proof (ProcessBlock_count _ _ _ _ _ _ H) as Hp.
  unfold ProcessBlock in H.
  destruct (block_loop fuel e (mCursor e) size [] 0)
    as [[[c o] q]| |] eqn:E; try discriminate.
  injection H as <- <- <-.
  pose proof (block_loop_length _ _ _ _ _ _ _ _ _ Hsize E) as Hl.
  pose proof (block_loop_forward _ _ _ _ _ _ _ _ _ E) as Hf.
  cbn [mSettings mDuration mT0 mSampleRate mCursor with_cursor].
  simpl in Hl. repeat split; try apply Hf; assumption.
Qed.

Lemma example_duty_in_range : duty_cycle_in_range example_effect.
Proof.
  unfold duty_cycle_in_range, MIN_DutyCycle, MAX_DutyCycle. simpl. lra.
Qed.

Lemma example_blocks (sizes : list Z) :
  Forall (fun s => 0 <= s) sizes -> zsum sizes <= 24000 ->
  exists e' k,
    ProcessBlocks 7 example_initialized sizes = Done (e', sizes) /\
    cursor_ok 3 k (mCursor e') /\
    capacity k (mCursor e') = 24000 - zsum sizes.
Proof.
  intros Hs Hsum.
  destruct (initialized_cursor_ok example_effect example_duty_in_range)
    as (Hlen & Hok & Hcap); try (simpl; lra); try (simpl; lia).
  assert (Hc : capacity (Z.to_nat (2 * 3 - 1)) (mCursor example_initialized)
               = 24000).
  { rewrite <- example_total. exact Hcap. }
  assert (Hfuel : (Z.to_nat (2 * 3) < 7)%nat) by (simpl; lia).
  pose proof (ProcessBlocks_ok 3 7 sizes Hfuel Hs example_initialized
                (Z.to_nat (2 * 3 - 1)) eq_refl Hlen Hok) as Hrun.
  rewrite Hc in Hrun.
  destruct (Hrun Hsum) as (e' & k & E & Hok' & Hcap').
  exists e', k. split; [exact E|]. split; [exact Hok'|]. exact Hcap'.
Qed.

Lemma example_first_block :
  exists e' out p, ProcessBlock 7 example_initialized 4096 = Done (e', out, p).
Proof.
  destruct (example_blocks [4096]) as (e' & k & E & _).
  - repeat constructor. lia.
  - simpl. lia.
  - cbn [ProcessBlocks] in E.
    destruct (ProcessBlock 7 example_initialized 4096)
      as [[[e1 o] q]| |]; try discriminate.
    exists e1, o, q. reflexivity.
Qed.

Lemma ProcessBlock_fills_request_witness :
  exists e' out p,
    ProcessBlock 7 example_initialized 4096 = Done (e', out, p) /\
    List.length out = Z.to_nat 4096 /\ p = 4096 /\
    mSettings e' = mSettings example_initialized /\
    mDuration e' = mDuration example_initialized /\
    mT0 e' = mT0 example_initialized /\
    mSampleRate e' = mSampleRate example_initialized /\
    numSamplesSequence (mCursor e')
    = numSamplesSequence (mCursor example_initialized) /\
    numSamplesTone (mCursor e') = numSamplesTone (mCursor example_initialized) /\
    numSamplesSilence (mCursor e')
    = numSamplesSilence (mCursor example_initialized) /\
    curSeqPos (mCursor example_initialized) <= curSeqPos (mCursor e') /\
    diff (mCursor e') <= diff (mCursor example_initialized).
Proof.
  destruct example_first_block as (e' & out & p & H).
  exists e', out, p. split; [exact H|].
  apply (ProcessBlock_fills_request 7 example_initialized 4096 e' out p);
    [lia | exact H].
Defined.

Lemma consume_consume (x y : Z) (c : Cursor) :
  consume y (consume x c) = consume (x + y) c.
Proof.
  unfold consume.
  cbn [numSamplesSequence numSamplesTone numSamplesSilence diff curSeqPos
       isTone numRemaining curTonePos].
  destruct (isTone c); f_equal; lia.
Qed.

Lemma pass_cursor_busy (c : Cursor) :
  numRemaining c <> 0 -> pass_cursor c = c.
Proof.
  intros H. unfold pass_cursor.
  destruct (Z.eqb_spec (numRemaining c) 0); [contradiction | reflexivity].
Qed.

Lemma symbol_in_range_consume (e : EffectDtmf) (x : Z) (c : Cursor) :
  symbol_in_range e c -> symbol_in_range e (consume x c).
Proof. unfold symbol_in_range, consume. cbn. tauto. Qed.

Lemma block_loop_step (e : EffectDtmf) (fuel : nat) (c : Cursor) (size : Z) :
  size <> 0 -> symbol_in_range e (pass_cursor c) ->
  let len := limitSampleBufferSize size (numRemaining (pass_cursor c)) in
  block_loop (S fuel) e c size [] 0
  = match block_loop fuel e (consume len (pass_cursor c)) (size - len) [] 0
    with
    | Done (c', o, q) =>
        match block_step e c size with
        | Some (_, samples, _) => Done (c', samples ++ o, len + q)
        | None => Crash
        end
    | Crash => Crash
    | OutOfFuel => OutOfFuel
    end.
Proof.
  intros Hnz Hs len. cbn [block_loop].
  destruct (Z.eqb_spec size 0) as [Hz | _]; [contradiction|].
  destruct (block_step_defined e c size Hs) as [samples Est].
  fold len in Est. rewrite Est. rewrite block_loop_acc.
  destruct (block_loop fuel e (consume len (pass_cursor c)) (size - len) [] 0)
    as [[[c' o] q]| |]; reflexivity.
Qed.

(** A request served in one call leaves the cursor where the same
    request served in two calls leaves it. *)
Lemma block_loop_split (e : EffectDtmf) (fuel : nat) :
  forall (c : Cursor) (a b : Z) (c2 : Cursor) (o : list R) (q : Z),
  0 <= a -> 0 <= b ->
  block_loop fuel e c (a + b) [] 0 = Done (c2, o, q) ->
  exists c1 o1 q1 o2 q2,
    block_loop fuel e c a [] 0 = Done (c1, o1, q1) /\
    block_loop fuel e c1 b [] 0 = Done (c2, o2, q2).
Proof.
  assert (Hnone : forall fuel' c c2 o q,
            block_loop fuel' e c 0 [] 0 = Done (c2, o, q) ->
            exists c1 o1 q1 o2 q2,
              block_loop fuel' e c 0 [] 0 = Done (c1, o1, q1) /\
              block_loop fuel' e c1 0 [] 0 = Done (c2, o2, q2)).
  { intros fuel' c c2 o q H. rewrite block_loop_zero in H.
    injection H as <- <- <-.
    exists c, [], 0, [], 0. rewrite block_loop_zero. split; reflexivity. }
  induction fuel as [|fuel IH]; intros c a b c2 o q Ha Hb H.
  - cbn [block_loop] in H.
    destruct (Z.eqb_spec (a + b) 0) as [Hz | Hnz]; [|discriminate].
    assert (a = 0) by lia. assert (b = 0) by lia. subst a b.
    apply (Hnone 0%nat c c2 o q). rewrite block_loop_zero. exact H.
  - destruct (Z.eq_dec (a + b) 0) as [Hz | Hnz].
    { assert (a = 0) by lia. assert (b = 0) by lia. subst a b.
      apply (Hnone (S fuel) c c2 o q). exact H. }
    destruct (Z.eq_dec a 0) as [-> | Ha0].
    { exists c, [], 0, o, q. rewrite block_loop_zero.
      split; [reflexivity | exact H]. }
    assert (Hs : symbol_in_range e (pass_cursor c)).
    { cbn [block_loop] in H.
      destruct (Z.eqb_spec (a + b) 0) as [Hz | _]; [contradiction|].
      destruct (block_step e c (a + b)) as [[[c' samples] len]|] eqn:Est;
        [|discriminate].
      apply (block_step_shape _ _ _ _ _ _ Est). }
    rewrite block_loop_step in H by assumption. cbv zeta in H.
    set (c1' := pass_cursor c) in *.
    set (nr1 := numRemaining c1') in *.
    set (len := limitSampleBufferSize (a + b) nr1) in *.
    destruct (block_loop fuel e (consume len c1') (a + b - len) [] 0)
      as [[[c' o'] q']| |] eqn:Erest; try discriminate.
    assert (Ec : c' = c2).
    { destruct (block_step e c (a + b)) as [[[x y] z]|];
        [injection H as -> _ _; reflexivity | discriminate]. }
    subst c'. clear H.
    rewrite (block_loop_step e fuel c a Ha0 Hs). cbv zeta.
    fold c1'. fold nr1.
    set (la := limitSampleBufferSize a nr1).
    destruct (block_step_defined e c a Hs) as [sa Esa].
    fold c1' in Esa. fold nr1 in Esa. fold la in Esa. rewrite Esa.
    destruct (Z_le_gt_dec (Z.max 0 nr1) a) as [Hle | Hgt].
    + (* the segment ends inside the first part *)
      assert (El : la = len)
        by (subst la len; unfold limitSampleBufferSize; lia).
      rewrite El.
      assert (Hl : 0 <= len <= a)
        by (subst len; unfold limitSampleBufferSize; lia).
      replace (a + b - len) with ((a - len) + b) in Erest by lia.
      assert (Hal : 0 <= a - len) by lia.
      destruct (IH (consume len c1') (a - len) b c2 o' q' Hal Hb Erest)
        as (c1 & o1 & q1 & o2 & q2 & E1 & E2).
      rewrite E1. exists c1, (sa ++ o1), (len + q1), o2, q2.
      split; [reflexivity|]. apply block_loop_fuel_mono. exact E2.
    + (* the first part ends inside the segment *)
      assert (Ela : la = a)
        by (subst la; unfold limitSampleBufferSize; lia).
      rewrite Ela, Z.sub_diag, block_loop_zero.
      exists (consume a c1'), (sa ++ []), (a + 0).
      destruct (Z.eq_dec b 0) as [-> | Hb0].
      * exists [], 0. split; [reflexivity|].
        rewrite block_loop_zero.
        assert (El : len = a)
          by (subst len; unfold limitSampleBufferSize; lia).
        rewrite El in Erest.
        replace (a + 0 - a) with 0 in Erest by lia.
        rewrite block_loop_zero in Erest. injection Erest as <- _ _.
        reflexivity.
      * assert (Hnr : numRemaining (consume a c1') = nr1 - a)
          by reflexivity.
        assert (Hbusy : pass_cursor (consume a c1') = consume a c1')
          by (apply pass_cursor_busy; rewrite Hnr; lia).
        assert (Hs' : symbol_in_range e (pass_cursor (consume a c1')))
          by (rewrite Hbusy; apply symbol_in_range_consume; exact Hs).
        rewrite (block_loop_step e fuel (consume a c1') b Hb0 Hs').
        cbv zeta. rewrite Hbusy, Hnr.
        set (lb := limitSampleBufferSize b (nr1 - a)).
        assert (El : len = a + lb)
          by (subst len lb; unfold limitSampleBufferSize; lia).
        rewrite consume_consume, <- El.
        replace (b - lb) with (a + b - len) by lia.
        rewrite Erest.
        destruct (block_step_defined e (consume a c1') b Hs') as [sb Esb].
        rewrite Esb. eexists. eexists. split; reflexivity.
Qed.

(** The loop reads the settings and the sample rate of the effect, not
    its stored cursor. *)
Lemma block_loop_with_cursor (e : EffectDtmf) (c0 : Cursor) (fuel : nat) :
  forall (c : Cursor) (size : Z) (out : list R) (processed : Z),
  block_loop fuel (with_cursor c0 e) c size out processed
  = block_loop fuel e c size out processed.
Proof.
  induction fuel as [|fuel IH]; intros c size out processed;
    cbn [block_loop]; [reflexivity|].
  destruct (size =? 0); [reflexivity|].
  change (block_step (with_cursor c0 e) c size) with (block_step e c size).
  destruct (block_step e c size) as [[[c1 samples] len]|]; [|reflexivity].
  apply IH.
Qed.

(** X8: when a call of ProcessBlock for a + b samples returns, so do a
    call for a samples followed by a call for b samples, and they leave
    the effect in the same state: where the run stands does not depend on
    how the host cuts its requests into blocks. *)
Theorem ProcessBlock_split (fuel : nat) (e : EffectDtmf) (a b : Z)
        (e2 : EffectDtmf) (out : list R) (p : Z) :
  0 <= a -> 0 <= b ->
  ProcessBlock fuel e (a + b) = Done (e2, out, p) ->
  exists e1 out1 out2,
    ProcessBlock fuel e a = Done (e1, out1, a) /\
    ProcessBlock fuel e1 b = Done (e2, out2, b) /\
    (List.length out1 + List.length out2 = List.length out)%nat.
Proof.
  intros Ha Hb H.
  assert (Hab : 0 <= a + b) by lia.
  unfold ProcessBlock in H.
  destruct (block_loop fuel e (mCursor e) (a + b) [] 0)
    as [[[c2 o] q]| |] eqn:E; try discriminate.
  injection H as <- <- <-.
  pose proof (block_loop_length _ _ _ _ _ _ _ _ _ Hab E) as Hlen.
  simpl in Hlen.
  destruct (block_loop_split e fuel _ _ _ _ _ _ Ha Hb E)
    as (c1 & o1 & q1 & o2 & q2 & E1 & E2).
  pose proof (block_loop_count _ _ _ _ _ _ _ _ _ E1) as Hq1.
  pose proof (block_loop_count _ _ _ _ _ _ _ _ _ E2) as Hq2.
  pose proof (block_loop_length _ _ _ _ _ _ _ _ _ Ha E1) as Hl1.
  pose proof (block_loop_length _ _ _ _ _ _ _ _ _ Hb E2) as Hl2.
  simpl in Hq1, Hq2, Hl1, Hl2. subst q1 q2.
  exists (with_cursor c1 e), o1, o2.
  unfold ProcessBlock. cbn [mCursor with_cursor].
  rewrite E1.
  rewrite block_loop_with_cursor, E2.
  split; [reflexivity|]. split; [reflexivity|]. lia.
Qed.

Lemma ProcessBlock_split_witness :
  exists e2 out p,
    ProcessBlock 7 example_initialized (1000 + 3096) = Done (e2, out, p) /\
    exists e1 out1 out2,
      ProcessBlock 7 example_initialized 1000 = Done (e1, out1, 1000) /\
      ProcessBlock 7 e1 3096 = Done (e2, out2, 3096) /\
      (List.length out1 + List.length out2 = List.length out)%nat.
Proof.
  destruct example_first_block as (e2 & out & p & H).
  exists e2, out, p. split; [exact H|].
  apply (ProcessBlock_split 7 example_initialized 1000 3096 e2 out p);
    [lia | lia | exact H].
Defined.

(** X9: ProcessInitialize does not reset curTonePos, but the value left
    by an earlier run is never read: the first request for samples after
    ProcessInitialize starts a tone and sets curTonePos to 0 before use,
    so the call behaves the same whatever the stale value. *)
Theorem ProcessBlock_ignores_stale_position (fuel : nat) (e : EffectDtmf)
        (T : Z) (st : Slots) (old1 old2 : Cursor) (size : Z) :
  size <> 0 ->
  ProcessBlock fuel (with_cursor (init_cursor T st old1) e) size
  = ProcessBlock fuel (with_cursor (init_cursor T st old2) e) size.
Proof.
  intros Hnz. unfold ProcessBlock. cbn [mCursor with_cursor].
  rewrite !block_loop_with_cursor.
  assert (E : block_loop fuel e (init_cursor T st old1) size [] 0
              = block_loop fuel e (init_cursor T st old2) size [] 0).
  { destruct fuel as [|fuel]; cbn [block_loop];
      destruct (Z.eqb_spec size 0) as [Hz | _]; try contradiction;
      [reflexivity|].
    assert (Es : block_step e (init_cursor T st old1) size
                 = block_step e (init_cursor T st old2) size)
      by reflexivity.
    rewrite Es. reflexivity. }
  rewrite E.
  destruct (block_loop fuel e (init_cursor T st old2) size [] 0)
    as [[[c o] q]| |]; reflexivity.
Qed.

Lemma ProcessBlock_ignores_stale_position_witness :
  ProcessBlock 7 (with_cursor
                    (init_cursor 24000 (mkSlots 4800 4800 0)
                                 (mkCursor 0 0 0 0 0 false 0 17))
                    example_effect) 4096
  = ProcessBlock 7 (with_cursor
                      (init_cursor 24000 (mkSlots 4800 4800 0)
                                   (mkCursor 0 0 0 0 0 false 0 0))
                      example_effect) 4096.
Proof.
  apply (ProcessBlock_ignores_stale_position 7 example_effect 24000
           (mkSlots 4800 4800 0)). lia.
Defined.

Lemma ProcessBlocks_forward (fuel : nat) (sizes : list Z) :
  forall (e e' : EffectDtmf) (counts : list Z),
  ProcessBlocks fuel e sizes = Done (e', counts) ->
  numSamplesTone (mCursor e') = numSamplesTone (mCursor e) /\
  numSamplesSilence (mCursor e') = numSamplesSilence (mCursor e) /\
  mSettings e' = mSettings e.
Proof.
  induction sizes as [|size sizes IH]; intros e e' counts H;
    cbn [ProcessBlocks] in H.
  - injection H as <- _. repeat split.
  - unfold ProcessBlock in H.
    destruct (block_loop fuel e (mCursor e) size [] 0)
      as [[[c o] q]| |] eqn:E; try discriminate.
    destruct (ProcessBlocks fuel (with_cursor c e) sizes)
      as [[e2 cs]| |] eqn:E2; try discriminate.
    injection H as <- _.
    apply IH in E2. cbn [mCursor mSettings with_cursor] in E2.
    pose proof (block_loop_forward _ _ _ _ _ _ _ _ _ E) as Hf.
    destruct E2 as (-> & -> & ->). repeat split; apply Hf.
Qed.

(** With tones of at least one sample, nothing is left of the run only
    at the end of the last tone. *)
Lemma capacity_zero_at_end (N : Z) (k : nat) (c : Cursor) :
  cursor_ok N k c -> 1 <= numSamplesTone c -> capacity k c = 0 ->
  k = 0%nat /\ isTone c = true /\ curSeqPos c = N - 1 /\ numRemaining c = 0.
Proof.
  intros (Ht & Hs & Hr & Hk & Hp) Htone Hcap. unfold capacity in Hcap.
  pose proof (segment_lengths_nonneg k c Ht Hs) as Hz.
  assert (Hr0 : numRemaining c = 0) by lia.
  assert (Hs0 : zsum (segment_lengths k c) = 0) by lia.
  assert (Hk0 : k = 0%nat).
  { destruct k as [|k]; [reflexivity|exfalso].
    cbn [segment_lengths zsum fold_right] in Hs0.
    fold (zsum (segment_lengths k (startSegment c))) in Hs0.
    destruct (startSegment_fields c) as (_ & Et & Es & _ & Eb & _ & Er).
    pose proof (segment_lengths_nonneg k (startSegment c)
                  ltac:(lia) ltac:(lia)) as Hz1.
    assert (Hx : 0 <= (if diff c >? 0 then 1 else 0))
      by (destruct (diff c >? 0); lia).
    destruct (isTone c) eqn:Eb0.
    - (* a silence comes next, then a tone *)
      destruct k as [|k]; [lia|].
      cbn [segment_lengths zsum fold_right] in Hs0.
      fold (zsum (segment_lengths k (startSegment (startSegment c))))
        in Hs0.
      destruct (startSegment_fields (startSegment c))
        as (_ & Et2 & Es2 & _ & _ & _ & Er2).
      pose proof (segment_lengths_nonneg k (startSegment (startSegment c))
                    ltac:(lia) ltac:(lia)) as Hz2.
      rewrite Eb in Er2. cbn [negb] in Er2.
      assert (Hx2 : 0 <= (if diff (startSegment c) >? 0 then 1 else 0))
        by (destruct (diff (startSegment c) >? 0); lia).
      lia.
    - lia. }
  subst k. split; [reflexivity|].
  destruct (isTone c); [repeat split; lia | lia].
Qed.

Lemma example_slots :
  nominal_slots (Recalculate example_effect) = mkSlots 4800 4800 0.
Proof.
  unfold nominal_slots. rewrite example_total.
  assert (Et : dtmfTone (mSettings (Recalculate example_effect)) = 0.6%R)
    by (simpl; lra).
  assert (Es : dtmfSilence (mSettings (Recalculate example_effect)) = 0.6%R)
    by (simpl; lra).
  rewrite Et, Es.
  change (mSampleRate (Recalculate example_effect)) with 8000%R.
  rewrite (Zfloor_eq 4800 (0.6 * 8000)) by lra.
  reflexivity.
Qed.

(** X10: after a successful ProcessInitialize that leaves tones of at
    least one sample, silences that are not negative and a remainder that
    is not negative (the condition the code asserts; dtmfNTones being the
    length of dtmfSequence), calls of ProcessBlock that ask for
    numSamplesSequence samples in all end exactly at the end of the last
    tone: curSeqPos = dtmfNTones - 1, inside a tone, with nothing
    remaining.  Every symbol of the sequence has had its tone. *)
Theorem complete_run_ends_in_last_tone
        (e e1 : EffectDtmf) (fuel0 fuel : nat) (sizes : list Z) :
  let N := dtmfNTones (mSettings e) in
  ProcessInitialize fuel0 e = Done (true, e1) ->
  N = Z.of_nat (String.length (dtmfSequence (mSettings e))) ->
  1 <= numSamplesTone (mCursor e1) ->
  0 <= numSamplesSilence (mCursor e1) ->
  0 <= diff (mCursor e1) ->
  Forall (fun s => 0 <= s) sizes ->
  zsum sizes = numSamplesSequence (mCursor e1) ->
  (Z.to_nat (2 * N) < fuel)%nat ->
  exists e2,
    ProcessBlocks fuel e1 sizes = Done (e2, sizes) /\
    curSeqPos (mCursor e2) = N - 1 /\ isTone (mCursor e2) = true /\
    numRemaining (mCursor e2) = 0.
Proof.
  intros N Hinit Hlen Ht Hs Hdiff Hsizes Hsum Hfuel.
  destruct (ProcessInitialize_leaves fuel0 e e1 Hinit)
    as (HN & T & st & -> & Hle & Hd).
  fold N in HN, Hle, Hd.
  cbn [mCursor with_cursor init_cursor numSamplesTone numSamplesSilence
       numSamplesSequence diff] in Ht, Hs, Hdiff, Hsum.
  destruct (init_cursor_ok N T st (mCursor e) HN ltac:(lia) Hs Hle Hd)
    as [Hok Hcap].
  destruct (ProcessBlocks_ok N fuel sizes Hfuel Hsizes
              (with_cursor (init_cursor T st (mCursor e)) e) _
              eq_refl Hlen Hok ltac:(cbn [mCursor with_cursor]; lia))
    as (e2 & k2 & Eblocks & Hok2 & Hcap2).
  exists e2. split; [exact Eblocks|].
  destruct (ProcessBlocks_forward _ _ _ _ _ Eblocks) as (Et & _ & _).
  cbn [mCursor with_cursor init_cursor numSamplesTone] in Et, Hcap2.
  destruct (capacity_zero_at_end N k2 (mCursor e2) Hok2 ltac:(lia)
              ltac:(lia)) as (_ & H1 & H2 & H3).
  repeat split; assumption.
Qed.

Lemma complete_run_ends_in_last_tone_witness :
  exists e2,
    ProcessBlocks 7 example_initialized [4096; 4096; 15808]
    = Done (e2, [4096; 4096; 15808]) /\
    curSeqPos (mCursor e2)
    = dtmfNTones (mSettings (Recalculate example_effect)) - 1 /\
    isTone (mCursor e2) = true /\ numRemaining (mCursor e2) = 0.
Proof.
  assert (Ec : mCursor example_initialized
               = init_cursor 24000 (mkSlots 4800 4800 0)
                             (mCursor (Recalculate example_effect))).
  { unfold example_initialized. cbn [mCursor with_cursor].
    rewrite example_total, example_slots. reflexivity. }
  apply (complete_run_ends_in_last_tone (Recalculate example_effect)
           example_initialized 0 7 [4096; 4096; 15808]).
  - apply example_initialize.
  - reflexivity.
  - rewrite Ec. simpl. lia.
  - rewrite Ec. simpl. lia.
  - rewrite Ec. simpl. lia.
  - repeat constructor; lia.
  - rewrite Ec. reflexivity.
  - simpl. lia.
Defined.

(** ** [MakeDtmfTone] *)

(** X11: a call of MakeDtmfTone never writes outside buffer[0 .. len) and
    leaves at every index j < len the plain wave at position j + last
    times the fade-in factor (j / A for the first samples when last = 0)
    times the fade-out factor (1 - (j - offset) / A for the last samples
    when last >= total - len), with A = min(len, fs/250) and
    offset = len - A truncated; where the two windows overlap both
    factors apply. *)
Theorem MakeDtmfTone_closed_form (len : nat) (fs : R) (tone : ascii)
        (last total : Z) (amplitude : R) :
  exists out,
    MakeDtmfTone len fs tone last total amplitude = Some out /\
    List.length out = len /\
    forall j, (j < len)%nat ->
      nth j out 0%R
      = (wave_sample fs tone amplitude (Z.of_nat j + last)
         * fade_in_gain len fs last j
         * fade_out_gain len fs last total j)%R.
Proof.
  destruct (MakeDtmfTone_spec len fs tone last total amplitude)
    as (out & E & L & Hn).
  exists out. split; [exact E|]. split; [exact L|].
  intros j Hj. rewrite Hn, tone_wave_nth by exact Hj. reflexivity.
Qed.

Lemma MakeDtmfTone_closed_form_witness :
  exists out,
    MakeDtmfTone 8 8000 "5" 0 8 1 = Some out /\
    List.length out = 8%nat /\
    nth 3 out 0%R
    = (wave_sample 8000 "5" 1 (Z.of_nat 3 + 0)
       * fade_in_gain 8 8000 0 3 * fade_out_gain 8 8000 0 8 3)%R.
Proof.
  destruct (MakeDtmfTone_closed_form 8 8000 "5" 0 8 1)
    as (out & E & L & Hn).
  exists out. split; [exact E|]. split; [exact L|]. apply Hn. lia.
Defined.

Lemma iters_below_lt (A : R) (i : nat) :
  (i < List.length (iters_below A))%nat -> (INR i < A)%R.
Proof.
  intros H. apply iters_below_In. unfold iters_below in *.
  rewrite length_seq in H. apply in_seq. lia.
Qed.

Lemma fade_in_gain_unit (len : nat) (fs : R) (last : Z) (j : nat) :
  (0 <= fade_in_gain len fs last j <= 1)%R.
Proof.
  unfold fade_in_gain.
  destruct (last =? 0); cbn [andb]; [|lra].
  destruct (Nat.ltb_spec j (List.length (iters_below (fade_width len fs))))
    as [H | H]; [|lra].
  apply iters_below_lt in H.
  pose proof (ratio_in_unit (INR j) (fade_width len fs)
                (conj (pos_INR j) H)). lra.
Qed.

Lemma fade_out_gain_unit (len : nat) (fs : R) (last total : Z) (j : nat) :
  (0 <= fade_out_gain len fs last total j <= 1)%R.
Proof.
  unfold fade_out_gain.
  destruct (last >=? total - Z.of_nat len); cbn [andb]; [|lra].
  destruct (Nat.leb_spec (fade_offset len fs) j) as [H1 | H1];
    cbn [andb]; [|lra].
  destruct (Nat.ltb_spec j (fade_offset len fs
                            + List.length (iters_below (fade_width len fs))))
    as [H2 | H2]; [|lra].
  assert (H : (j - fade_offset len fs
               < List.length (iters_below (fade_width len fs)))%nat) by lia.
  apply iters_below_lt in H.
  pose proof (ratio_in_unit (INR (j - fade_offset len fs))
                (fade_width len fs) (conj (pos_INR _) H)). lra.
Qed.

Lemma wave_sample_bounded (fs : R) (tone : ascii) (amplitude : R) (n : Z) :
  (Rabs (wave_sample fs tone amplitude n) <= Rabs amplitude)%R.
Proof.
  unfold wave_sample.
  set (s1 := sin _). set (s2 := sin _).
  assert (H1 : (-1 <= s1 <= 1)%R) by (subst s1; apply SIN_bound).
  assert (H2 : (-1 <= s2 <= 1)%R) by (subst s2; apply SIN_bound).
  rewrite !Rabs_mult.
  assert (Hh : (Rabs 0.5 * Rabs (s1 + s2) <= 1)%R).
  { rewrite (Rabs_pos_eq 0.5) by lra.
    assert (Rabs (s1 + s2) <= 2)%R by (apply Rabs_le; lra). lra. }
  pose proof (Rabs_pos amplitude).
  pose proof (Rabs_pos (s1 + s2)).
  rewrite (Rabs_pos_eq 0.5) in * by lra. nra.
Qed.

Lemma scaled_sample_bounded (w g1 g2 a : R) :
  (Rabs w <= a)%R -> (0 <= g1 <= 1)%R -> (0 <= g2 <= 1)%R ->
  (Rabs (w * g1 * g2) <= a)%R.
Proof.
  intros Hw H1 H2. rewrite !Rabs_mult.
  rewrite (Rabs_pos_eq g1), (Rabs_pos_eq g2) by lra.
  pose proof (Rabs_pos w) as Hx. set (x := Rabs w) in *.
  assert (H3 : (x * g1 <= x)%R) by nra.
  assert (H4 : (0 <= x * g1)%R) by nra.
  assert (H5 : (x * g1 * g2 <= x * g1)%R) by nra.
  lra.
Qed.

Lemma MakeDtmfTone_bounded (len : nat) (fs : R) (tone : ascii)
      (last total : Z) (amplitude : R) (out : list R) :
  MakeDtmfTone len fs tone last total amplitude = Some out ->
  Forall (fun x => (Rabs x <= Rabs amplitude)%R) out.
Proof.
  intros E.
  destruct (MakeDtmfTone_spec len fs tone last total amplitude)
    as (out' & E' & L & Hn).
  rewrite E in E'. injection E' as <-.
  apply Forall_nth. intros j d Hj.
  rewrite (nth_indep _ d 0%R Hj), Hn.
  rewrite tone_wave_nth by lia.
  apply scaled_sample_bounded.
  - apply wave_sample_bounded.
  - apply fade_in_gain_unit.
  - apply fade_out_gain_unit.
Qed.

(** X12: every sample a call of MakeDtmfTone leaves in the buffer is at
    most the amplitude in absolute value: the sum of the two sines is
    halved and the fades only scale down. *)
Theorem MakeDtmfTone_within_amplitude (len : nat) (fs : R) (tone : ascii)
        (last total : Z) (amplitude : R) :
  exists out,
    MakeDtmfTone len fs tone last total amplitude = Some out /\
    Forall (fun x => (Rabs x <= Rabs amplitude)%R) out.
Proof.
  destruct (MakeDtmfTone_spec len fs tone last total amplitude)
    as (out & E & _).
  exists out. split; [exact E|].
  apply (MakeDtmfTone_bounded _ _ _ _ _ _ _ E).
Qed.

Lemma block_loop_bounded (e : EffectDtmf) (fuel : nat) :
  forall (c : Cursor) (size : Z) (out : list R) (processed : Z)
         (c' : Cursor) (out' : list R) (p' : Z),
  Forall (fun x =>
            (Rabs x <= Rabs (to_float (dtmfAmplitude (mSettings e))))%R)
         out ->
  block_loop fuel e c size out processed = Done (c', out', p') ->
  Forall (fun x =>
            (Rabs x <= Rabs (to_float (dtmfAmplitude (mSettings e))))%R)
         out'.
Proof.
  induction fuel as [|fuel IH];
    intros c size out processed c' out' p' Hout H;
    cbn [block_loop] in H; destruct (size =? 0);
    try (injection H as _ <- _; exact Hout); try discriminate.
  destruct (block_step e c size) as [[[c1 samples] len]|] eqn:Est;
    [|discriminate].
  apply IH in H; [exact H|].
  apply Forall_app. split; [exact Hout|].
  unfold block_step in Est.
  destruct (isTone (if numRemaining c =? 0 then startSegment c else c)).
  - destruct (char_at _ _) as [ch|]; [|discriminate].
    destruct (MakeDtmfTone _ _ _ _ _ _) as [o|] eqn:Eo; [|discriminate].
    injection Est as _ <- _.
    apply (MakeDtmfTone_bounded _ _ _ _ _ _ _ Eo).
  - injection Est as _ <- _.
    apply Forall_forall. intros x Hx. apply repeat_spec in Hx. subst x.
    rewrite Rabs_R0. apply Rabs_pos.
Qed.

(** X13: every sample a call of ProcessBlock writes, tone or silence, is
    at most the amplitude MakeDtmfTone receives in absolute value, which
    is dtmfAmplitude narrowed to a float.  (The narrowed value can exceed
    dtmfAmplitude itself: 0.8 is narrowed to 0.800000011920929.) *)
Theorem ProcessBlock_within_amplitude (fuel : nat) (e : EffectDtmf)
        (size : Z) (e' : EffectDtmf) (out : list R) (p : Z) :
  ProcessBlock fuel e size = Done (e', out, p) ->
  Forall (fun x =>
            (Rabs x <= Rabs (to_float (dtmfAmplitude (mSettings e))))%R)
         out.
Proof.
  unfold ProcessBlock. intros H.
  destruct (block_loop fuel e (mCursor e) size [] 0)
    as [[[c o] q]| |] eqn:E; try discriminate.
  injection H as _ <- _.
  apply (block_loop_bounded _ _ _ _ _ _ _ _ _ (Forall_nil _) E).
Qed.

Lemma ProcessBlock_within_amplitude_witness :
  exists e' out p,
    ProcessBlock 7 example_initialized 4096 = Done (e', out, p) /\
    Forall (fun x =>
              (Rabs x
               <= Rabs (to_float
                          (dtmfAmplitude (mSettings example_initialized))))%R)
           out.
Proof.
  destruct example_first_block as (e' & out & p & H).
  exists e', out, p. split; [exact H|].
  apply (ProcessBlock_within_amplitude 7 example_initialized 4096 e' out p).
  exact H.
Defined.

(** ** The symbol tables *)

(** The characters of [kSymbols] are exactly the ones the two [switch]
    statements give a tone. *)
Lemma symbols_have_tones (c : ascii) :
  if mem_char c symbols
  then (low_tone c <> 0 /\ high_tone c <> 0)%R
  else (low_tone c = 0 /\ high_tone c = 0)%R.
Proof.
  destruct c as [[] [] [] [] [] [] [] []];
    cbv [mem_char symbols kSymbols fold_left String.append Ascii.eqb
         Bool.eqb orb low_tone high_tone];
    split; try reflexivity; apply not_0_IZR; discriminate.
Qed.

Lemma char_at_forall (f : ascii -> bool) (s : string) :
  string_forall f s = true ->
  forall pos ch, char_at s pos = Some ch -> f ch = true.
Proof.
  intros Hall pos ch. unfold char_at.
  destruct (pos <? 0); [discriminate|].
  generalize (Z.to_nat pos). clear pos.
  induction s as [|c s IH]; intros n H; simpl in *; [discriminate|].
  apply andb_prop in Hall. destruct Hall as [Hc Hs].
  destruct n as [|n].
  - injection H as <-. exact Hc.
  - apply (IH Hs n H).
Qed.

(** X14: a sequence that passes the alphabet check of
    SetAutomationParameters holds no silent symbol: every character of
    it has a low and a high frequency other than 0; and a character
    outside kSymbols has both frequencies 0. *)
Theorem accepted_sequence_has_tones (s : string) :
  find_first_not_of s symbols = None ->
  (forall pos ch, char_at s pos = Some ch ->
     (low_tone ch <> 0 /\ high_tone ch <> 0)%R) /\
  (forall c, mem_char c symbols = false ->
     (low_tone c = 0 /\ high_tone c = 0)%R).
Proof.
  intros H. split.
  - apply find_first_not_of_none in H.
    intros pos ch Hch.
    pose proof (char_at_forall _ _ H pos ch Hch) as Hm.
    pose proof (symbols_have_tones ch) as Ht. cbv beta in Hm.
    rewrite Hm in Ht. exact Ht.
  - intros c Hc. pose proof (symbols_have_tones c) as Ht.
    rewrite Hc in Ht. exact Ht.
Qed.

Lemma accepted_sequence_has_tones_witness :
  (forall pos ch, char_at "12#a" pos = Some ch ->
     (low_tone ch <> 0 /\ high_tone ch <> 0)%R) /\
  (forall c, mem_char c symbols = false ->
     (low_tone c = 0 /\ high_tone c = 0)%R).
Proof.
  apply (accepted_sequence_has_tones "12#a"). reflexivity.
Defined.

(** X15: the sixteen keys 0-9, star, hash and A-D have sixteen different
    (low, high) frequency pairs: two keys that sound alike are the same
    key. *)
Theorem keypad_keys_distinct (c1 c2 : ascii) :
  In c1 keypad_keys -> In c2 keypad_keys ->
  (low_tone c1, high_tone c1) = (low_tone c2, high_tone c2) ->
  c1 = c2.
Proof.
  intros H1 H2.
  cbv [keypad_keys list_ascii_of_string In] in H1, H2.
  repeat (destruct H1 as [<- | H1]); try contradiction;
    repeat (destruct H2 as [<- | H2]); try contradiction;
    cbv [low_tone high_tone]; intros H; try reflexivity;
    exfalso; injection H; intros;
    repeat match goal with
           | E : IZR _ = IZR _ |- _ => apply eq_IZR in E; try discriminate E
           end.
Qed.

Lemma keypad_keys_distinct_witness :
  In "5"%char keypad_keys /\ "5"%char = "5"%char.
Proof.
  assert (H : In "5"%char keypad_keys)
    by (cbv [keypad_keys list_ascii_of_string In]; tauto).
  split; [exact H|].
  apply (keypad_keys_distinct "5" "5" H H). reflexivity.
Defined.

(** ** Automation parameters and the dialog *)

Lemma Recalculate_settings (e : EffectDtmf) :
  dtmfSequence (mSettings (Recalculate e)) = dtmfSequence (mSettings e) /\
  dtmfDutyCycle (mSettings (Recalculate e)) = dtmfDutyCycle (mSettings e) /\
  dtmfAmplitude (mSettings (Recalculate e)) = dtmfAmplitude (mSettings e).
Proof.
  destruct (Recalculate_NTones e) as (_ & H1 & H2 & H3 & _).
  repeat split; assumption.
Qed.

Lemma ReadAndVerifyDouble_some (v : option R) (def lo hi x : R) :
  ReadAndVerifyDouble v def lo hi = Some x -> (lo <= x <= hi)%R.
Proof.
  unfold ReadAndVerifyDouble. cbv zeta.
  destruct (Rle_dec lo (read_or v def)); [|discriminate].
  destruct (Rle_dec (read_or v def) hi); [|discriminate].
  intros H. injection H as <-. lra.
Qed.

(** What an accepted call of [SetAutomationParameters] leaves. *)
Lemma SetAutomationParameters_accepted
      (DefaultSequence : string) (DefaultDutyCycle DefaultAmplitude : R)
      (parms : CommandParameters) (e e2 : EffectDtmf) :
  SetAutomationParameters DefaultSequence DefaultDutyCycle DefaultAmplitude
                          parms e = (true, e2) ->
  exists e', e2 = Recalculate e' /\ duty_cycle_in_range e' /\
    verifies (dtmfAmplitude (mSettings e')) MIN_Amplitude MAX_Amplitude /\
    find_first_not_of (dtmfSequence (mSettings e')) symbols = None.
Proof.
  unfold SetAutomationParameters, ReadAndVerifyString.
  destruct (ReadAndVerifyDouble (parmDutyCycle parms) _ _ _) as [dc|] eqn:Ed;
    [|discriminate].
  destruct (ReadAndVerifyDouble (parmAmplitude parms) _ _ _) as [am|] eqn:Ea;
    [|discriminate].
  destruct (find_first_not_of _ symbols) eqn:Es; [discriminate|].
  intros H. injection H as <-.
  eexists. split; [reflexivity|].
  apply ReadAndVerifyDouble_some in Ed. apply ReadAndVerifyDouble_some in Ea.
  repeat split; try apply Ed; try apply Ea. exact Es.
Qed.

(** X17: an effect on which SetAutomationParameters has returned true
    initialises as follows: with an empty sequence the duration is 0 and
    ProcessInitialize returns false, leaving the effect as it is; with
    two symbols or more the tone count is the number of symbols and
    ProcessInitialize returns true, after at most one pass of the
    redistribution loop, with diff <= 2N - 1. *)
Theorem automation_then_initialize
        (DefaultSequence : string) (DefaultDutyCycle DefaultAmplitude : R)
        (parms : CommandParameters) (e e2 : EffectDtmf) (fuel : nat) :
  let N := dtmfNTones (mSettings e2) in
  SetAutomationParameters DefaultSequence DefaultDutyCycle DefaultAmplitude
                          parms e = (true, e2) ->
  N = Z.of_nat (String.length (dtmfSequence (mSettings e2))) /\
  (dtmfSequence (mSettings e2) = EmptyString ->
   GetDuration e2 = 0%R /\ ProcessInitialize fuel e2 = Done (false, e2)) /\
  (2 <= N -> (1 <= fuel)%nat ->
   exists e3,
     ProcessInitialize fuel e2 = Done (true, e3) /\
     mSettings e3 = mSettings e2 /\
     diff (mCursor e3) <= 2 * N - 1).
Proof.
  intros N Hset.
  destruct (SetAutomationParameters_accepted _ _ _ _ _ _ Hset)
    as (e' & -> & Hdc & _ & _).
  destruct (Recalculate_NTones e') as (EN & Eseq & _).
  split; [subst N; rewrite EN, Eseq; reflexivity|].
  split.
  - intros Hempty. rewrite Eseq in Hempty.
    assert (HN0 : N = 0) by (subst N; rewrite EN, Hempty; reflexivity).
    split.
    + unfold Recalculate, GetDuration. rewrite Hempty. reflexivity.
    + unfold ProcessInitialize. fold N. rewrite HN0. reflexivity.
  - intros HN Hf.
    rewrite ProcessInitialize_unfold by (fold N; lia). fold N.
    destruct (redistribute_returns (nominal_total (Recalculate e')) N
                (slotTone (nominal_slots (Recalculate e')))
                (slotSilence (nominal_slots (Recalculate e')))
                fuel ltac:(lia) Hf ltac:(left; exact HN)) as (st & Hst).
    unfold redistribute in Hst.
    change (mkSlots (slotTone (nominal_slots (Recalculate e')))
                    (slotSilence (nominal_slots (Recalculate e')))
                    (diff_of (nominal_total (Recalculate e')) N
                       (slotTone (nominal_slots (Recalculate e')))
                       (slotSilence (nominal_slots (Recalculate e')))))
      with (nominal_slots (Recalculate e')) in Hst.
    rewrite Hst. eexists. split; [reflexivity|].
    split; [reflexivity|].
    cbn [mCursor with_cursor init_cursor diff].
    apply (spread_exit fuel (nominal_total (Recalculate e')) N
             (nominal_slots (Recalculate e')) st eq_refl Hst).
Qed.

Lemma automation_then_initialize_witness :
  exists e3,
    ProcessInitialize 1
      (Recalculate (with_settings (mkSettings "12#" 0 0 0 50 0.8)
                                  example_effect))
    = Done (true, e3) /\
    mSettings e3
    = mSettings (Recalculate (with_settings (mkSettings "12#" 0 0 0 50 0.8)
                                            example_effect)) /\
    diff (mCursor e3)
    <= 2 * dtmfNTones
             (mSettings
                (Recalculate (with_settings (mkSettings "12#" 0 0 0 50 0.8)
                                            example_effect))) - 1.
Proof.
  apply (automation_then_initialize "audacity" 55 0.8
           (mkParms (Some 50%R) None (Some "12#"%string)) example_effect
           (Recalculate (with_settings (mkSettings "12#" 0 0 0 50 0.8)
                                       example_effect)) 1).
  - unfold SetAutomationParameters, ReadAndVerifyString.
    cbn [parmDutyCycle parmAmplitude parmSequence].
    rewrite (ReadAndVerifyDouble_ok (Some 50%R) 55 MIN_DutyCycle
               MAX_DutyCycle)
      by (unfold verifies, MIN_DutyCycle, MAX_DutyCycle; simpl; lra).
    rewrite (ReadAndVerifyDouble_ok None 0.8 MIN_Amplitude MAX_Amplitude)
      by (unfold verifies, MIN_Amplitude, MAX_Amplitude; simpl; lra).
    reflexivity.
  - simpl. lia.
  - lia.
Defined.

(** X18: after SetAutomationParameters has returned true the amplitude
    lies in [0.001, 1], so every sample a later call of ProcessBlock
    writes lies in [-1, 1]: the generated signal cannot clip. *)
Theorem automation_output_in_range
        (DefaultSequence : string) (DefaultDutyCycle DefaultAmplitude : R)
        (parms : CommandParameters) (e e2 e3 e4 : EffectDtmf)
        (fuel : nat) (size : Z) (out : list R) (p : Z) :
  SetAutomationParameters DefaultSequence DefaultDutyCycle DefaultAmplitude
                          parms e = (true, e2) ->
  mSettings e3 = mSettings e2 ->
  ProcessBlock fuel e3 size = Done (e4, out, p) ->
  Forall (fun x => (-1 <= x <= 1)%R) out.
Proof.
  intros Hset Hsame Hrun.
  destruct (SetAutomationParameters_accepted _ _ _ _ _ _ Hset)
    as (e' & -> & _ & Ha & _).
  destruct (Recalculate_settings e') as (_ & _ & Eamp).
  unfold verifies, MIN_Amplitude, MAX_Amplitude in Ha.
  unfold ProcessBlock in Hrun.
  destruct (block_loop fuel e3 (mCursor e3) size [] 0)
    as [[[c o] q]| |] eqn:E; try discriminate.
  injection Hrun as _ <- _.
  pose proof (block_loop_bounded _ _ _ _ _ _ _ _ _ (Forall_nil _) E) as Hb.
  rewrite Hsame, Eamp in Hb.
  pose proof (to_float_unit (dtmfAmplitude (mSettings e')) ltac:(lra))
    as Hunit.
  eapply Forall_impl; [|exact Hb].
  intros x Hx. cbv beta in Hx.
  rewrite (Rabs_pos_eq (to_float (dtmfAmplitude (mSettings e')))) in Hx
    by lra.
  assert (Hx1 : (Rabs x <= 1)%R) by lra.
  unfold Rabs in Hx1. destruct (Rcase_abs x); lra.
Qed.

Lemma example_set_parameters :
  SetAutomationParameters "audacity" 55 0.8
    (mkParms (Some 50%R) (Some 1%R) (Some "123"%string)) example_effect
  = (true, Recalculate example_effect).
Proof.
  unfold SetAutomationParameters, ReadAndVerifyString.
  cbn [parmDutyCycle parmAmplitude parmSequence].
  rewrite (ReadAndVerifyDouble_ok (Some 50%R) 55 MIN_DutyCycle MAX_DutyCycle)
    by (unfold verifies, MIN_DutyCycle, MAX_DutyCycle; simpl; lra).
  rewrite (ReadAndVerifyDouble_ok (Some 1%R) 0.8 MIN_Amplitude MAX_Amplitude)
    by (unfold verifies, MIN_Amplitude, MAX_Amplitude; simpl; lra).
  reflexivity.
Qed.

Lemma automation_output_in_range_witness :
  exists e4 out p,
    ProcessBlock 7 example_initialized 4096 = Done (e4, out, p) /\
    Forall (fun x => (-1 <= x <= 1)%R) out.
Proof.
  destruct example_first_block as (e4 & out & p & H).
  exists e4, out, p. split; [exact H|].
  apply (automation_output_in_range "audacity" 55 0.8
           (mkParms (Some 50%R) (Some 1%R) (Some "123"%string))
           example_effect (Recalculate example_effect) example_initialized
           e4 7 4096 out p).
  - apply example_set_parameters.
  - reflexivity.
  - exact H.
Defined.

Lemma slider_in_range (pos : Z) (e : EffectDtmf) :
  0 <= pos <= 1000 ->
  duty_cycle_in_range (set_dtmfDutyCycle (IZR pos / SCL_DutyCycle)%R e).
Proof.
  intros [H0 H1].
  unfold duty_cycle_in_range, set_dtmfDutyCycle, MIN_DutyCycle,
    MAX_DutyCycle, SCL_DutyCycle.
  cbn [mSettings with_settings dtmfDutyCycle].
  apply IZR_le in H0. apply IZR_le in H1. lra.
Qed.

(** X19: every handler of the dialog leaves the derived fields in step
    with the fields it changes.  After OnSequence the sequence is the new
    text and the tone count is its length; after OnDuration the tone
    count is the length of the sequence, and the duration is the new
    value unless the sequence is empty, when it is 0; after OnDutyCycle
    and ValidateUI with a slider position within the slider's range
    0 .. 1000 the duty cycle is position / 10 and lies in [0, 100], and
    the tone count is the length of the sequence. *)
Theorem handlers_keep_derived_fields (e : EffectDtmf) :
  let len (x : EffectDtmf) :=
    Z.of_nat (String.length (dtmfSequence (mSettings x))) in
  (forall text,
     dtmfSequence (mSettings (OnSequence text e)) = text /\
     dtmfNTones (mSettings (OnSequence text e))
     = Z.of_nat (String.length text)) /\
  (forall value,
     dtmfNTones (mSettings (OnDuration value e)) = len e /\
     (dtmfSequence (mSettings e) <> EmptyString ->
      GetDuration (OnDuration value e) = value) /\
     (dtmfSequence (mSettings e) = EmptyString ->
      GetDuration (OnDuration value e) = 0%R)) /\
  (forall pos, 0 <= pos <= 1000 ->
     dtmfDutyCycle (mSettings (OnDutyCycle pos e)) = (IZR pos / 10)%R /\
     duty_cycle_in_range (OnDutyCycle pos e) /\
     dtmfNTones (mSettings (OnDutyCycle pos e)) = len e) /\
  (forall pos value, 0 <= pos <= 1000 ->
     fst (ValidateUI pos value e) = true /\
     dtmfDutyCycle (mSettings (snd (ValidateUI pos value e)))
     = (IZR pos / 10)%R /\
     duty_cycle_in_range (snd (ValidateUI pos value e)) /\
     dtmfNTones (mSettings (snd (ValidateUI pos value e))) = len e).
Proof.
  intros len. subst len. cbv beta.
  split; [|split; [|split]].
  - intros text. unfold OnSequence.
    destruct (Recalculate_NTones (set_dtmfSequence text e))
      as (EN & Eseq & _).
    rewrite EN, Eseq. cbn [set_dtmfSequence mSettings with_settings
                           dtmfSequence].
    split; reflexivity.
  - intros value. unfold OnDuration.
    destruct (Recalculate_NTones (SetDuration value e)) as (EN & _).
    split; [rewrite EN; reflexivity|].
    unfold Recalculate, GetDuration. cbn [SetDuration mSettings].
    split.
    + intros Hne.
      destruct (Z.eqb_spec
                  (Z.of_nat (String.length (dtmfSequence (mSettings e)))) 0)
        as [E0 | _].
      * destruct (dtmfSequence (mSettings e));
          [contradiction | simpl in E0; lia].
      * destruct (_ =? 1); reflexivity.
    + intros ->. reflexivity.
  - intros pos Hpos. unfold OnDutyCycle.
    pose proof (slider_in_range pos e Hpos) as Hr.
    destruct (Recalculate_NTones
                (set_dtmfDutyCycle (IZR pos / SCL_DutyCycle)%R e))
      as (EN & _ & Edc & _).
    split; [rewrite Edc; reflexivity|]. split.
    + unfold duty_cycle_in_range in *. rewrite Edc. exact Hr.
    + rewrite EN. reflexivity.
  - intros pos value Hpos. unfold ValidateUI. cbn [fst snd].
    pose proof (slider_in_range pos e Hpos) as Hr.
    assert (Hr' : duty_cycle_in_range
                    (SetDuration value
                       (set_dtmfDutyCycle (IZR pos / SCL_DutyCycle)%R e)))
      by exact Hr.
    destruct (Recalculate_NTones
                (SetDuration value
                   (set_dtmfDutyCycle (IZR pos / SCL_DutyCycle)%R e)))
      as (EN & _ & Edc & _).
    split; [reflexivity|]. split; [rewrite Edc; reflexivity|]. split.
    + unfold duty_cycle_in_range in *. rewrite Edc. exact Hr'.
    + rewrite EN. reflexivity.
Qed.

Lemma handlers_keep_derived_fields_witness :
  dtmfDutyCycle (mSettings (OnDutyCycle 550 example_effect))
  = (IZR 550 / 10)%R /\
  duty_cycle_in_range (OnDutyCycle 550 example_effect) /\
  dtmfNTones (mSettings (OnDutyCycle 550 example_effect))
  = Z.of_nat (String.length (dtmfSequence (mSettings example_effect))).
Proof.
  apply (handlers_keep_derived_fields example_effect). lia.
Defined.

(** X20: emptying the sequence box discards the duration: OnSequence
    with the empty text sets the effect's duration to 0, and a new
    sequence entered afterwards is given tones and silences of length 0;
    the duration comes back only when OnDuration (or ValidateUI) stores
    the value of the duration control again. *)
Theorem empty_sequence_discards_duration (e : EffectDtmf) (text : string)
        (value : R) :
  let e1 := OnSequence text (OnSequence EmptyString e) in
  GetDuration (OnSequence EmptyString e) = 0%R /\
  GetDuration e1 = 0%R /\
  dtmfTone (mSettings e1) = 0%R /\ dtmfSilence (mSettings e1) = 0%R /\
  (text <> EmptyString -> GetDuration (OnDuration value e1) = value).
Proof.
  intros e1.
  assert (H0 : GetDuration (OnSequence EmptyString e) = 0%R) by reflexivity.
  assert (Hkeep : forall e', GetDuration e' = 0%R ->
            GetDuration (Recalculate e') = 0%R /\
            dtmfTone (mSettings (Recalculate e')) = 0%R /\
            dtmfSilence (mSettings (Recalculate e')) = 0%R).
  { intros e' Hd. unfold Recalculate, GetDuration in *.
    destruct (_ =? 0); [repeat split|].
    destruct (_ =? 1);
      cbn [mDuration mSettings with_settings dtmfTone dtmfSilence];
      rewrite Hd; repeat split; unfold Rdiv; ring. }
  split; [exact H0|].
  destruct (Hkeep (set_dtmfSequence text (OnSequence EmptyString e)) H0)
    as (H1 & H2 & H3).
  split; [exact H1|]. split; [exact H2|]. split; [exact H3|].
  intros Hne. unfold OnDuration, Recalculate.
  assert (Es : dtmfSequence (mSettings (SetDuration value e1)) = text).
  { subst e1. unfold OnSequence. cbn [SetDuration mSettings].
    destruct (Recalculate_NTones
                (set_dtmfSequence text (Recalculate
                   (set_dtmfSequence EmptyString e)))) as (_ & -> & _).
    reflexivity. }
  rewrite Es.
  destruct (Z.eqb_spec (Z.of_nat (String.length text)) 0) as [E0 | _].
  - destruct text; [contradiction | simpl in E0; lia].
  - destruct (_ =? 1); reflexivity.
Qed.

Lemma empty_sequence_discards_duration_witness :
  GetDuration
    (OnDuration 3 (OnSequence "123" (OnSequence EmptyString example_effect)))
  = 3%R.
Proof.
  apply (empty_sequence_discards_duration example_effect "123" 3).
  discriminate.
Defined.

(** ** Shape of a run *)

(** X21: in the run ProcessInitialize sets up, segment j (counted from 0)
    is a tone for even j and a silence for odd j; it is one sample longer
    than its slot length exactly when j < diff: the samples of the
    remainder go to the first diff segments, one each. *)
Theorem segment_length_formula (T : Z) (st : Slots) (old : Cursor)
        (k j : nat) :
  (j < k)%nat ->
  nth j (segment_lengths k (init_cursor T st old)) 0
  = (if Nat.even j then slotTone st else slotSilence st)
    + (if Z.of_nat j <? slotDiff st then 1 else 0).
Proof.
  intros Hj. rewrite segment_lengths_nth by exact Hj.
  cbn [init_cursor isTone numSamplesTone numSamplesSilence diff xorb].
  f_equal.
  rewrite Z.gtb_ltb.
  destruct (Z.ltb_spec 0 (slotDiff st - Z.of_nat j));
    destruct (Z.ltb_spec (Z.of_nat j) (slotDiff st)); try reflexivity; lia.
Qed.

Lemma segment_length_formula_witness :
  nth 1 (segment_lengths 3 (init_cursor 24004 (mkSlots 12001 0 2)
                                        (mkCursor 0 0 0 0 0 false 0 0))) 0
  = (if Nat.even 1 then slotTone (mkSlots 12001 0 2)
     else slotSilence (mkSlots 12001 0 2))
    + (if Z.of_nat 1 <? slotDiff (mkSlots 12001 0 2) then 1 else 0).
Proof.
  apply (segment_length_formula 24004 (mkSlots 12001 0 2)
           (mkCursor 0 0 0 0 0 false 0 0) 3 1). lia.
Defined.

Lemma block_loop_tone_position (e : EffectDtmf) (fuel : nat) :
  forall (c : Cursor) (size : Z) (out : list R) (processed : Z)
         (c' : Cursor) (out' : list R) (p' : Z),
  0 <= size -> tone_position_ok c ->
  block_loop fuel e c size out processed = Done (c', out', p') ->
  tone_position_ok c'.
Proof.
  induction fuel as [|fuel IH];
    intros c size out processed c' out' p' Hsize Hok H;
    cbn [block_loop] in H;
    destruct (Z.eqb_spec size 0) as [Hz | Hnz];
    try (injection H as <- _ _; exact Hok); try discriminate.
  destruct (block_step e c size) as [[[c1 samples] len]|] eqn:Est;
    [|discriminate].
  destruct (block_step_shape _ _ _ _ _ _ Est) as (El & Ec & _ & _).
  assert (Hl : 0 <= len <= size)
    by (rewrite El; unfold limitSampleBufferSize; lia).
  apply IH in H; [exact H | lia |].
  assert (Hp : tone_position_ok (pass_cursor c)).
  { unfold pass_cursor. destruct (numRemaining c =? 0); [|exact Hok].
    unfold tone_position_ok, startSegment.
    destruct (isTone c); cbn; [discriminate|].
    intros _. destruct (diff c >? 0); lia. }
  subst c1. unfold tone_position_ok, consume in *.
  cbn [isTone curTonePos numRemaining numSamplesTone].
  intros Ht. specialize (Hp Ht). rewrite Ht. lia.
Qed.

(** X22: inside a tone, curTonePos is the number of samples of that tone
    already written: it is never negative and, with numRemaining, makes
    up the length of the segment (numSamplesTone, or one more for a
    sample of the remainder).  This holds after ProcessInitialize and is
    kept by every call of ProcessBlock, so the offset passed to
    MakeDtmfTone continues the phase of the chunk before. *)
Theorem tone_position_kept :
  (forall T st old, tone_position_ok (init_cursor T st old)) /\
  (forall fuel e size e' out p,
      0 <= size -> tone_position_ok (mCursor e) ->
      ProcessBlock fuel e size = Done (e', out, p) ->
      tone_position_ok (mCursor e')).
Proof.
  split.
  - intros T st old. unfold tone_position_ok, init_cursor. cbn.
    discriminate.
  - intros fuel e size e' out p Hsize Hok H.
    unfold ProcessBlock in H.
    destruct (block_loop fuel e (mCursor e) size [] 0)
      as [[[c o] q]| |] eqn:E; try discriminate.
    injection H as <- _ _. cbn [mCursor with_cursor].
    apply (block_loop_tone_position _ _ _ _ _ _ _ _ _ Hsize Hok E).
Qed.

Lemma tone_position_kept_witness :
  exists e' out p,
    ProcessBlock 7 example_initialized 4096 = Done (e', out, p) /\
    tone_position_ok (mCursor e').
Proof.
  destruct example_first_block as (e' & out & p & H).
  exists e', out, p. split; [exact H|].
  destruct tone_position_kept as [Hinit Hkeep].
  apply (Hkeep 7%nat example_initialized 4096 e' out p); [lia | | exact H].
  apply Hinit.
Defined.

(** ** The binary64 initialisation followed by [ProcessBlock] *)

Lemma ProcessInitialize_unfold_binary64 (fuel : nat)
      (e : Binary64.EffectDtmf) (st0 : Slots) :
  1 <= Binary64.dtmfNTones (Binary64.mSettings e) ->
  Binary64.nominal_slots e = Some st0 ->
  exists T,
    Binary64.nominal_total e = Some T /\
    slotDiff st0
    = diff_of T (Binary64.dtmfNTones (Binary64.mSettings e))
              (slotTone st0) (slotSilence st0) /\
    Binary64.ProcessInitialize fuel e
    = match spread fuel T (Binary64.dtmfNTones (Binary64.mSettings e)) st0
      with
      | Done st =>
          Done (true,
                Binary64.with_cursor
                  (init_cursor T st (Binary64.mCursor e)) e)
      | Crash => Crash
      | OutOfFuel => OutOfFuel
      end.
Proof.
  intros HN Hs.
  unfold Binary64.nominal_slots, Binary64.nominal_total in *.
  unfold Binary64.ProcessInitialize.
  destruct (Binary64.dtmfNTones (Binary64.mSettings e) <=? 0) eqn:E;
    [apply Z.leb_le in E; lia|].
  unfold Binary64.GetDuration in *.
  destruct (Binary64.floor _) as [nT0|]; [|discriminate].
  destruct (Binary64.floor _) as [nT1|]; [|discriminate].
  destruct (Binary64.floor _) as [t|]; [|discriminate].
  destruct (Binary64.floor _) as [sl|]; [|discriminate].
  injection Hs as <-. exists (nT1 - nT0).
  split; [reflexivity|]. split; reflexivity.
Qed.

(** X23: when ProcessInitialize returns, in binary64.  With a tone count
    of zero or less it returns false and leaves the state as it was.
    With finite operands it returns true for two tones or more (after at
    most one pass of the loop), and for one tone when the remainder
    computed from the rounded products is at most 1; for one tone with a
    larger remainder the loop body divides by dtmfNTones - 1 = 0. *)
Theorem ProcessInitialize_returns_binary64 (fuel : nat)
        (e : Binary64.EffectDtmf) :
  let N := Binary64.dtmfNTones (Binary64.mSettings e) in
  (N <= 0 -> Binary64.ProcessInitialize fuel e = Done (false, e)) /\
  (forall st : Slots,
     Binary64.nominal_slots e = Some st ->
     (2 <= N \/ (N = 1 /\ slotDiff st <= 1) -> (1 <= fuel)%nat ->
      exists e', Binary64.ProcessInitialize fuel e = Done (true, e')) /\
     (N = 1 -> 1 < slotDiff st ->
      Binary64.ProcessInitialize (S fuel) e = Crash)).
Proof.
  intros N. split.
  - intros H0. unfold Binary64.ProcessInitialize. fold N.
    destruct (N <=? 0) eqn:E; [reflexivity|].
    apply Z.leb_gt in E. lia.
  - intros st Hs. split.
    + intros Hc Hf.
      destruct (ProcessInitialize_unfold_binary64 fuel e st
                  ltac:(fold N; lia) Hs) as (T & _ & Hd & ->).
      fold N in Hd |- *.
      destruct (redistribute_returns T N (slotTone st) (slotSilence st)
                  fuel ltac:(lia) Hf
                  ltac:(destruct Hc as [Hc | [H1 Hc]];
                        [left; exact Hc | right; lia]))
        as (st' & Hst).
      unfold redistribute in Hst. rewrite <- Hd in Hst.
      destruct st as [t s d]. cbn [slotTone slotSilence slotDiff] in Hst.
      rewrite Hst. eexists. reflexivity.
    + intros H1 Hgt.
      destruct (ProcessInitialize_unfold_binary64 (S fuel) e st
                  ltac:(fold N; lia) Hs) as (T & _ & Hd & ->).
      fold N in Hd |- *. rewrite H1 in Hd |- *.
      pose proof (spread_single_tone_crash fuel T (slotTone st)
                    (slotSilence st) ltac:(lia)) as Hc.
      unfold redistribute in Hc. rewrite <- Hd in Hc.
      destruct st as [t s d]. cbn [slotTone slotSilence slotDiff] in Hc.
      rewrite Hc. reflexivity.
Qed.

(** An empty sequence, and two tones at duty cycle 8 over 0.21 s. *)
Lemma ProcessInitialize_returns_binary64_witness :
  Binary64.ProcessInitialize 1
    (Binary64.Recalculate Binary64.empty_selection)
  = Done (false, Binary64.Recalculate Binary64.empty_selection) /\
  exists e',
    Binary64.ProcessInitialize 1 (Binary64.Recalculate Binary64.short_pair)
    = Done (true, e').
Proof.
  split.
  - apply (ProcessInitialize_returns_binary64 1
             (Binary64.Recalculate Binary64.empty_selection)).
    simpl. lia.
  - apply (proj2 (ProcessInitialize_returns_binary64 1
                    (Binary64.Recalculate Binary64.short_pair))
                 (mkSlots 685 7888 4)).
    + vm_compute. reflexivity.
    + left. simpl. lia.
    + lia.
Defined.

(** X24: the run is safe whatever the rounding.  When an effect holds the
    cursor that the binary64 ProcessInitialize has left, with slot
    lengths that are not negative, and dtmfNTones is the length of its
    dtmfSequence, calls of ProcessBlock whose requested sizes add up to
    at most numSamplesSequence all return, each with exactly its
    requested size and no access outside dtmfSequence, and curSeqPos ends
    at most at dtmfNTones - 1. *)
Theorem blocks_after_binary64_initialize
        (eb eb1 : Binary64.EffectDtmf) (e1 : EffectDtmf)
        (fuel0 fuel : nat) (sizes : list Z) :
  let N := dtmfNTones (mSettings e1) in
  Binary64.ProcessInitialize fuel0 eb = Done (true, eb1) ->
  mCursor e1 = Binary64.mCursor eb1 ->
  N = Binary64.dtmfNTones (Binary64.mSettings eb) ->
  N = Z.of_nat (String.length (dtmfSequence (mSettings e1))) ->
  0 <= numSamplesTone (mCursor e1) ->
  0 <= numSamplesSilence (mCursor e1) ->
  Forall (fun s => 0 <= s) sizes ->
  zsum sizes <= numSamplesSequence (mCursor e1) ->
  (Z.to_nat (2 * N) < fuel)%nat ->
  exists e2,
    ProcessBlocks fuel e1 sizes = Done (e2, sizes) /\
    curSeqPos (mCursor e2) <= N - 1.
Proof.
  intros N Hinit Hcur HN Hlen Ht Hs Hsizes Hsum Hfuel.
  destruct (ProcessInitialize_leaves_binary64 fuel0 eb eb1 Hinit)
    as (HN1 & T & st & -> & Hle & Hd).
  rewrite <- HN in HN1, Hle, Hd.
  cbn [Binary64.mCursor Binary64.with_cursor] in Hcur.
  rewrite Hcur in Ht, Hs, Hsum.
  cbn [init_cursor numSamplesTone numSamplesSilence numSamplesSequence]
    in Ht, Hs, Hsum.
  destruct (init_cursor_ok N T st (Binary64.mCursor eb) HN1 Ht Hs Hle Hd)
    as [Hok Hcap].
  rewrite <- Hcur in Hok, Hcap.
  destruct (ProcessBlocks_ok N fuel sizes Hfuel Hsizes e1 _
              eq_refl Hlen Hok ltac:(lia))
    as (e2 & k2 & Eblocks & Hok2 & _).
  exists e2. split; [exact Eblocks|].
  destruct Hok2 as (_ & _ & _ & _ & Hp).
  destruct (isTone (mCursor e2)); lia.
Qed.

(** One tone of 1 s starting at 0.005 s, 44100 Hz: 44099 samples are
    asked of a tone of 44100. *)
Lemma blocks_after_binary64_initialize_witness :
  exists e2,
    ProcessBlocks 3
      (mkEffect (mkSettings "1" 1 1 0 55 1) 1 0.005 44100
                (mkCursor 44099 44100 0 (-1) (-1) false 0 0))
      [4096; 40003]
    = Done (e2, [4096; 40003]) /\
    curSeqPos (mCursor e2) <= 1 - 1.
Proof.
  apply (blocks_after_binary64_initialize
           (Binary64.Recalculate Binary64.one_second_tone)
           (Binary64.with_cursor
              (mkCursor 44099 44100 0 (-1) (-1) false 0 0)
              (Binary64.Recalculate Binary64.one_second_tone))
           (mkEffect (mkSettings "1" 1 1 0 55 1) 1 0.005 44100
                     (mkCursor 44099 44100 0 (-1) (-1) false 0 0))
           0 3 [4096; 40003]).
  - vm_compute. reflexivity.
  - reflexivity.
  - reflexivity.
  - reflexivity.
  - simpl. lia.
  - simpl. lia.
  - repeat constructor; lia.
  - simpl. lia.
  - simpl. lia.
Defined.

(** X25: the duty-cycle extremes in binary64.  Two tones at duty cycle
    100 over 3.0004875 s at 8000 Hz: dtmfSilence is 0, numSamplesSilence
    is 0 and the loop is not entered, yet the silence segment holds one
    sample of the remainder: the segments are 12002, 1, 12001.  At duty
    cycle 0 over 3.0000625 s: dtmfTone is 0, numSamplesTone is 0, and the
    first tone segment holds one sample: the segments are 1, 24000, 0. *)
Theorem duty_cycle_extremes_binary64 :
  (exists e',
     Binary64.dtmfSilence
       (Binary64.mSettings (Binary64.Recalculate Binary64.full_duty_pair))
     = Binary64.zero /\
     (forall fuel,
        Binary64.ProcessInitialize fuel
          (Binary64.Recalculate Binary64.full_duty_pair) = Done (true, e')) /\
     Binary64.mCursor e' = mkCursor 24004 12001 0 2 (-1) false 0 0 /\
     segment_lengths 3 (Binary64.mCursor e') = [12002; 1; 12001]) /\
  (exists e',
     Binary64.dtmfTone
       (Binary64.mSettings (Binary64.Recalculate Binary64.zero_duty_pair))
     = Binary64.zero /\
     (forall fuel,
        Binary64.ProcessInitialize fuel
          (Binary64.Recalculate Binary64.zero_duty_pair) = Done (true, e')) /\
     Binary64.mCursor e' = mkCursor 24001 0 24000 1 (-1) false 0 0 /\
     segment_lengths 3 (Binary64.mCursor e') = [1; 24000; 0]).
Proof.
  split.
  - exists (Binary64.with_cursor
              (mkCursor 24004 12001 0 2 (-1) false 0 0)
              (Binary64.Recalculate Binary64.full_duty_pair)).
    split; [vm_compute; reflexivity|]. split; [|split; reflexivity].
    intros fuel. destruct fuel; vm_compute; reflexivity.
  - exists (Binary64.with_cursor
              (mkCursor 24001 0 24000 1 (-1) false 0 0)
              (Binary64.Recalculate Binary64.zero_duty_pair)).
    split; [vm_compute; reflexivity|]. split; [|split; reflexivity].
    intros fuel. destruct fuel; vm_compute; reflexivity.
Qed.
